(** * LONIX social schema: counters, engagement score, policies, sticker store

    A shallow embedding of the database script (tables, trigger functions,
    row-level-security predicates) and of the two sticker-store handlers
    (`handlePurchase`, `handleSubmit`), with the properties of the data model
    stated and proved over it.

    Conventions of the embedding.
    - A table is the list of its rows, newest row first; `INSERT` conses,
      `DELETE` filters, `UPDATE ... WHERE` maps over the matching rows,
      `EXISTS` is [existsb], `count( * )` is the length of a filter.
    - A statement either commits a new database or raises an SQL error, in
      which case the transaction is rolled back; this is the [result] monad.
    - `INTEGER` columns are nullable 32-bit integers: [option Z] with the
      range check of PostgreSQL written out (overflow raises, it does not
      wrap).  `DECIMAL(10,2)` values are kept in hundredths.
    - Columns that no modelled statement reads or writes (timestamps of
      creation, urls, texts) are left out of the row records.
    - Trigger bodies and policy sub-selects are evaluated over the whole
      tables they name: the trigger functions are taken to run with the
      right to write the rows they name, and the row-level security of a
      table is not applied a second time inside a policy that reads it. *)

From Stdlib Require Import ZArith NArith List Bool String Ascii Lia.
From Stdlib Require Import Permutation Sorted.
Import ListNotations.
Open Scope string_scope.
Open Scope Z_scope.

(* ================================================================= *)
(** ** SQL layer *)

Inductive sql_error : Type :=
  | unique_violation
  | foreign_key_violation
  | numeric_value_out_of_range
  | undefined_table
  | undefined_column.

Inductive result (A : Type) : Type :=
  | Ok (a : A)
  | Err (e : sql_error).

Arguments Ok {A} a.
Arguments Err {A} e.

Definition bind {A B : Type} (m : result A) (k : A -> result B) : result B :=
  match m with
  | Ok a => k a
  | Err e => Err e
  end.

Notation "x <- m ;; k" := (bind m (fun x => k))
  (at level 61, m at next level, right associativity).

Definition uuid := N.

Definition uuid_eqb (a b : uuid) : bool := N.eqb a b.

(** A nullable `INTEGER`; [None] is `NULL`. *)
Definition sql_int := option Z.

(** A nullable `DECIMAL(10,2)`, in hundredths. *)
Definition sql_numeric := option Z.

Definition int4_min : Z := -2147483648.
Definition int4_max : Z := 2147483647.

Definition int4 (z : Z) : result sql_int :=
  if (int4_min <=? z) && (z <=? int4_max) then Ok (Some z)
  else Err numeric_value_out_of_range.

(** `a + b` and `a - b` on `INTEGER`: `NULL` is absorbing, overflow raises. *)
Definition int4_add (a b : sql_int) : result sql_int :=
  match a, b with
  | Some x, Some y => int4 (x + y)
  | _, _ => Ok None
  end.

Definition int4_sub (a b : sql_int) : result sql_int :=
  match a, b with
  | Some x, Some y => int4 (x - y)
  | _, _ => Ok None
  end.

(** `GREATEST(a, b)`: `NULL` arguments are ignored. *)
Definition GREATEST (a b : sql_int) : sql_int :=
  match a, b with
  | Some x, Some y => Some (Z.max x y)
  | Some x, None => Some x
  | None, Some y => Some y
  | None, None => None
  end.

Definition COALESCE (a : sql_int) (d : Z) : Z :=
  match a with
  | Some x => x
  | None => d
  end.

(** Coercion of an exact value, given in hundredths, to `DECIMAL(10,2)`:
    at most eight digits before the decimal point. *)
Definition numeric_10_2 (hundredths : Z) : result sql_numeric :=
  if Z.abs hundredths <? 10000000000 then Ok (Some hundredths)
  else Err numeric_value_out_of_range.

(** `UPDATE t SET ... WHERE cond`: [set] is applied to every matching row. *)
Fixpoint UPDATE {R : Type} (cond : R -> bool) (set : R -> result R)
    (t : list R) : result (list R) :=
  match t with
  | [] => Ok []
  | r :: rest =>
      r' <- (if cond r then set r else Ok r) ;;
      rest' <- UPDATE cond set rest ;;
      Ok (r' :: rest')
  end.

(** `FOR EACH ROW EXECUTE FUNCTION f`: the trigger function runs once per
    affected row, each run seeing the effects of the previous one. *)
Fixpoint for_each_row {R S : Type} (f : R -> S -> result S)
    (rows : list R) (s : S) : result S :=
  match rows with
  | [] => Ok s
  | r :: rest => s' <- f r s ;; for_each_row f rest s'
  end.

Definition count {R : Type} (cond : R -> bool) (t : list R) : Z :=
  Z.of_nat (List.length (filter cond t)).

Inductive tg_op : Type := INSERT | DELETE | UPDATE_OP.

(* ================================================================= *)
(** ** Tables *)

Record profile : Type := {
  id : uuid;
  username : option string;
  display_name : option string;
  followers_count : sql_int;
  following_count : sql_int;
  posts_count : sql_int
}.

Record post : Type := {
  p_id : uuid;
  creator_id : uuid;
  likes_count : sql_int;
  comments_count : sql_int;
  shares_count : sql_int;
  saves_count : sql_int;
  engagement_score : sql_numeric
}.

Record follow : Type := {
  follower_id : uuid;
  following_id : uuid
}.

Record post_like : Type := {
  pl_post_id : uuid;
  pl_user_id : uuid
}.

Record comment : Type := {
  c_id : uuid;
  c_post_id : uuid;
  c_user_id : uuid;
  c_parent_id : option uuid
}.

Inductive role : Type := role_user | role_moderator | role_admin.

Record user_role : Type := {
  ur_user_id : uuid;
  ur_role : role
}.

(** `user_settings` of the initial migration: one row per identity. *)
Record user_setting : Type := {
  us_user_id : uuid
}.

(** `price` and `amount` are `DECIMAL(10,2)`, in hundredths. *)
Record sticker_pack : Type := {
  sp_id : uuid;
  sp_creator_id : uuid;
  sp_name : string;
  sp_price : sql_numeric;
  sp_is_public : bool;
  sp_is_approved : bool
}.

Record user_purchase : Type := {
  up_user_id : uuid;
  up_pack_id : uuid;
  up_amount : Z;
  up_payment_id : option string
}.

Record db : Type := {
  profiles : list profile;
  posts : list post;
  follows : list follow;
  post_likes : list post_like;
  comments : list comment;
  user_roles : list user_role;
  user_settings : list user_setting;
  sticker_packs : list sticker_pack;
  user_purchases : list user_purchase
}.

Definition empty_db : db :=
  {| profiles := []; posts := []; follows := []; post_likes := [];
     comments := []; user_roles := []; user_settings := [];
     sticker_packs := []; user_purchases := [] |}.

Definition set_profiles (t : list profile) (d : db) : db :=
  {| profiles := t; posts := posts d; follows := follows d;
     post_likes := post_likes d; comments := comments d;
     user_roles := user_roles d; user_settings := user_settings d;
     sticker_packs := sticker_packs d; user_purchases := user_purchases d |}.

Definition set_posts (t : list post) (d : db) : db :=
  {| profiles := profiles d; posts := t; follows := follows d;
     post_likes := post_likes d; comments := comments d;
     user_roles := user_roles d; user_settings := user_settings d;
     sticker_packs := sticker_packs d; user_purchases := user_purchases d |}.

Definition set_follows (t : list follow) (d : db) : db :=
  {| profiles := profiles d; posts := posts d; follows := t;
     post_likes := post_likes d; comments := comments d;
     user_roles := user_roles d; user_settings := user_settings d;
     sticker_packs := sticker_packs d; user_purchases := user_purchases d |}.

Definition set_post_likes (t : list post_like) (d : db) : db :=
  {| profiles := profiles d; posts := posts d; follows := follows d;
     post_likes := t; comments := comments d;
     user_roles := user_roles d; user_settings := user_settings d;
     sticker_packs := sticker_packs d; user_purchases := user_purchases d |}.

Definition set_comments (t : list comment) (d : db) : db :=
  {| profiles := profiles d; posts := posts d; follows := follows d;
     post_likes := post_likes d; comments := t;
     user_roles := user_roles d; user_settings := user_settings d;
     sticker_packs := sticker_packs d; user_purchases := user_purchases d |}.

Definition set_user_roles (t : list user_role) (d : db) : db :=
  {| profiles := profiles d; posts := posts d; follows := follows d;
     post_likes := post_likes d; comments := comments d;
     user_roles := t; user_settings := user_settings d;
     sticker_packs := sticker_packs d; user_purchases := user_purchases d |}.

Definition set_sticker_packs (t : list sticker_pack) (d : db) : db :=
  {| profiles := profiles d; posts := posts d; follows := follows d;
     post_likes := post_likes d; comments := comments d;
     user_roles := user_roles d; user_settings := user_settings d;
     sticker_packs := t; user_purchases := user_purchases d |}.

Definition set_user_purchases (t : list user_purchase) (d : db) : db :=
  {| profiles := profiles d; posts := posts d; follows := follows d;
     post_likes := post_likes d; comments := comments d;
     user_roles := user_roles d; user_settings := user_settings d;
     sticker_packs := sticker_packs d; user_purchases := t |}.

Definition profile_exists (u : uuid) (d : db) : bool :=
  existsb (fun r => uuid_eqb (id r) u) (profiles d).

Definition post_exists (p : uuid) (d : db) : bool :=
  existsb (fun r => uuid_eqb (p_id r) p) (posts d).

(* ================================================================= *)
(** ** Counter functions *)

(** The integer columns the dynamic `UPDATE %I SET %I = ...` can name. *)
Record int_column (R : Type) : Type := {
  col_get : R -> sql_int;
  col_set : sql_int -> R -> R
}.

Arguments col_get {R} _ _.
Arguments col_set {R} _ _ _.

Definition set_followers_count (v : sql_int) (r : profile) : profile :=
  {| id := id r; username := username r; display_name := display_name r;
     followers_count := v; following_count := following_count r;
     posts_count := posts_count r |}.

Definition set_following_count (v : sql_int) (r : profile) : profile :=
  {| id := id r; username := username r; display_name := display_name r;
     followers_count := followers_count r; following_count := v;
     posts_count := posts_count r |}.

Definition set_posts_count (v : sql_int) (r : profile) : profile :=
  {| id := id r; username := username r; display_name := display_name r;
     followers_count := followers_count r;
     following_count := following_count r; posts_count := v |}.

Definition set_likes_count (v : sql_int) (r : post) : post :=
  {| p_id := p_id r; creator_id := creator_id r;
     likes_count := v; comments_count := comments_count r;
     shares_count := shares_count r; saves_count := saves_count r;
     engagement_score := engagement_score r |}.

Definition set_comments_count (v : sql_int) (r : post) : post :=
  {| p_id := p_id r; creator_id := creator_id r;
     likes_count := likes_count r; comments_count := v;
     shares_count := shares_count r; saves_count := saves_count r;
     engagement_score := engagement_score r |}.

Definition set_shares_count (v : sql_int) (r : post) : post :=
  {| p_id := p_id r; creator_id := creator_id r;
     likes_count := likes_count r; comments_count := comments_count r;
     shares_count := v; saves_count := saves_count r;
     engagement_score := engagement_score r |}.

Definition set_saves_count (v : sql_int) (r : post) : post :=
  {| p_id := p_id r; creator_id := creator_id r;
     likes_count := likes_count r; comments_count := comments_count r;
     shares_count := shares_count r; saves_count := v;
     engagement_score := engagement_score r |}.

Definition set_engagement_score (v : sql_numeric) (r : post) : post :=
  {| p_id := p_id r; creator_id := creator_id r;
     likes_count := likes_count r; comments_count := comments_count r;
     shares_count := shares_count r; saves_count := saves_count r;
     engagement_score := v |}.

Definition profiles_column (column_name : string)
    : option (int_column profile) :=
  if (column_name =? "followers_count")%string then
    Some {| col_get := followers_count; col_set := set_followers_count |}
  else if (column_name =? "following_count")%string then
    Some {| col_get := following_count; col_set := set_following_count |}
  else if (column_name =? "posts_count")%string then
    Some {| col_get := posts_count; col_set := set_posts_count |}
  else None.

Definition posts_column (column_name : string) : option (int_column post) :=
  if (column_name =? "likes_count")%string then
    Some {| col_get := likes_count; col_set := set_likes_count |}
  else if (column_name =? "comments_count")%string then
    Some {| col_get := comments_count; col_set := set_comments_count |}
  else if (column_name =? "shares_count")%string then
    Some {| col_get := shares_count; col_set := set_shares_count |}
  else if (column_name =? "saves_count")%string then
    Some {| col_get := saves_count; col_set := set_saves_count |}
  else None.

(** `UPDATE <table> SET <column> = expr(<column>) WHERE id = $1`, for the
    two tables of the model that carry counters. *)
Definition update_counter (expr : sql_int -> result sql_int)
    (table_name column_name : string) (row_id : uuid) (d : db) : result db :=
  if (table_name =? "profiles")%string then
    match profiles_column column_name with
    | Some c =>
        t <- UPDATE (fun r => uuid_eqb (id r) row_id)
               (fun r => v <- expr (col_get c r) ;; Ok (col_set c v r))
               (profiles d) ;;
        Ok (set_profiles t d)
    | None => Err undefined_column
    end
  else if (table_name =? "posts")%string then
    match posts_column column_name with
    | Some c =>
        t <- UPDATE (fun r => uuid_eqb (p_id r) row_id)
               (fun r => v <- expr (col_get c r) ;; Ok (col_set c v r))
               (posts d) ;;
        Ok (set_posts t d)
    | None => Err undefined_column
    end
  else Err undefined_table.

(** `SET c = c + 1` *)
Definition increment_counter : string -> string -> uuid -> db -> result db :=
  update_counter (fun c => int4_add c (Some 1)).

(** `SET c = GREATEST(0, c - 1)` *)
Definition decrement_counter : string -> string -> uuid -> db -> result db :=
  update_counter
    (fun c => v <- int4_sub c (Some 1) ;; Ok (GREATEST (Some 0) v)).

(* ================================================================= *)
(** ** Engagement score *)

(** The numeric literal `a.b`, in hundredths. *)
Definition dec (a b : Z) : Z := a * 100 + b * 10.

(** `SELECT ... INTO score FROM posts WHERE id = post_id; RETURN score`.
    The products of an integer by a one-decimal literal are exact; the
    assignment to the `DECIMAL(10,2)` variable checks the precision.  A
    missing row leaves [score] `NULL`. *)
Definition calculate_engagement_score (post_id : uuid) (d : db)
    : result sql_numeric :=
  match find (fun r => uuid_eqb (p_id r) post_id) (posts d) with
  | Some r =>
      numeric_10_2
        (COALESCE (likes_count r) 0 * dec 1 0 +
         COALESCE (comments_count r) 0 * dec 3 0 +
         COALESCE (shares_count r) 0 * dec 5 0 +
         COALESCE (saves_count r) 0 * dec 10 0)
  | None => Ok None
  end.

(** Trigger function of `post_likes` and `comments`; [row_post_id] is
    `NEW.post_id` on insertion and `OLD.post_id` on deletion. *)
Definition update_engagement_score (TG_OP : tg_op) (row_post_id : uuid)
    (d : db) : result db :=
  match TG_OP with
  | INSERT =>
      t <- UPDATE (fun r => uuid_eqb (p_id r) row_post_id)
             (fun r => s <- calculate_engagement_score row_post_id d ;;
                       Ok (set_engagement_score s r))
             (posts d) ;;
      Ok (set_posts t d)
  | DELETE =>
      t <- UPDATE (fun r => uuid_eqb (p_id r) row_post_id)
             (fun r => s <- calculate_engagement_score row_post_id d ;;
                       Ok (set_engagement_score s r))
             (posts d) ;;
      Ok (set_posts t d)
  | UPDATE_OP => Ok d
  end.

(* ================================================================= *)
(** ** Counter triggers *)

Definition update_follow_counts (TG_OP : tg_op) (row : follow) (d : db)
    : result db :=
  match TG_OP with
  | INSERT =>
      d1 <- increment_counter "profiles" "following_count"
              (follower_id row) d ;;
      increment_counter "profiles" "followers_count" (following_id row) d1
  | DELETE =>
      d1 <- decrement_counter "profiles" "following_count"
              (follower_id row) d ;;
      decrement_counter "profiles" "followers_count" (following_id row) d1
  | UPDATE_OP => Ok d
  end.

Definition update_post_count (TG_OP : tg_op) (row : post) (d : db)
    : result db :=
  match TG_OP with
  | INSERT => increment_counter "profiles" "posts_count" (creator_id row) d
  | DELETE => decrement_counter "profiles" "posts_count" (creator_id row) d
  | UPDATE_OP => Ok d
  end.

(* ================================================================= *)
(** ** Sign-up cascade *)

Record auth_user : Type := {
  au_id : uuid;
  raw_user_meta_data : list (string * string)
}.

(** `object ->> key` on a flat JSON object of strings. *)
Fixpoint json_text (o : list (string * string)) (key : string)
    : option string :=
  match o with
  | [] => None
  | (k, v) :: rest => if (k =? key)%string then Some v else json_text rest key
  end.

Definition same_text (a b : option string) : bool :=
  match a, b with
  | Some x, Some y => (x =? y)%string
  | _, _ => false
  end.

(** `INSERT INTO profiles`: primary key on `id`, `username` unique (`NULL`
    user names never collide). *)
Definition insert_profile (NEW : profile) (d : db) : result db :=
  if existsb (fun r => uuid_eqb (id r) (id NEW)) (profiles d)
  then Err unique_violation
  else if existsb (fun r => same_text (username r) (username NEW))
            (profiles d)
  then Err unique_violation
  else Ok (set_profiles (NEW :: profiles d) d).

(** `INSERT INTO user_roles`: `UNIQUE(user_id)`, `user_id` references
    `profiles`. *)
Definition insert_user_role (NEW : user_role) (d : db) : result db :=
  if existsb (fun r => uuid_eqb (ur_user_id r) (ur_user_id NEW))
       (user_roles d)
  then Err unique_violation
  else if negb (profile_exists (ur_user_id NEW) d)
  then Err foreign_key_violation
  else Ok (set_user_roles (NEW :: user_roles d) d).

(** Trigger function of `auth.users` (`AFTER INSERT`).  The columns the
    `INSERT` does not list take their defaults. *)
Definition handle_new_user (NEW : auth_user) (d : db) : result db :=
  d1 <- insert_profile
          {| id := au_id NEW;
             display_name := json_text (raw_user_meta_data NEW) "display_name";
             username := json_text (raw_user_meta_data NEW) "username";
             followers_count := Some 0;
             following_count := Some 0;
             posts_count := Some 0 |} d ;;
  insert_user_role {| ur_user_id := au_id NEW; ur_role := role_user |} d1.

(* ================================================================= *)
(** ** Statements on follows, posts, likes and comments *)

Definition same_follow (a b : follow) : bool :=
  uuid_eqb (follower_id a) (follower_id b) &&
  uuid_eqb (following_id a) (following_id b).

Definition same_like (a b : post_like) : bool :=
  uuid_eqb (pl_post_id a) (pl_post_id b) &&
  uuid_eqb (pl_user_id a) (pl_user_id b).

(** `INSERT INTO follows`: `UNIQUE(follower_id, following_id)`, both ends
    reference `profiles`; then the row trigger. *)
Definition insert_follow (NEW : follow) (d : db) : result db :=
  if existsb (same_follow NEW) (follows d) then Err unique_violation
  else if negb (profile_exists (follower_id NEW) d &&
                profile_exists (following_id NEW) d)
  then Err foreign_key_violation
  else update_follow_counts INSERT NEW (set_follows (NEW :: follows d) d).

(** `DELETE FROM follows WHERE follower_id = a AND following_id = b`. *)
Definition delete_follow (a b : uuid) (d : db) : result db :=
  let hit := same_follow {| follower_id := a; following_id := b |} in
  for_each_row (update_follow_counts DELETE)
    (filter hit (follows d))
    (set_follows (filter (fun r => negb (hit r)) (follows d)) d).

(** `INSERT INTO post_likes`: `UNIQUE(post_id, user_id)`, references to
    `posts` and `profiles`; then the engagement trigger. *)
Definition insert_like (NEW : post_like) (d : db) : result db :=
  if existsb (same_like NEW) (post_likes d) then Err unique_violation
  else if negb (post_exists (pl_post_id NEW) d &&
                profile_exists (pl_user_id NEW) d)
  then Err foreign_key_violation
  else update_engagement_score INSERT (pl_post_id NEW)
         (set_post_likes (NEW :: post_likes d) d).

(** `DELETE FROM post_likes WHERE post_id = p AND user_id = u`. *)
Definition delete_like (p u : uuid) (d : db) : result db :=
  let hit := same_like {| pl_post_id := p; pl_user_id := u |} in
  for_each_row (fun OLD => update_engagement_score DELETE (pl_post_id OLD))
    (filter hit (post_likes d))
    (set_post_likes (filter (fun r => negb (hit r)) (post_likes d)) d).

Definition comment_exists (c : uuid) (d : db) : bool :=
  existsb (fun r => uuid_eqb (c_id r) c) (comments d).

(** `INSERT INTO comments`: primary key, references to `posts`, `profiles`
    and, for a reply, to the parent comment; then the engagement trigger. *)
Definition insert_comment (NEW : comment) (d : db) : result db :=
  if comment_exists (c_id NEW) d then Err unique_violation
  else if negb (post_exists (c_post_id NEW) d &&
                profile_exists (c_user_id NEW) d &&
                match c_parent_id NEW with
                | Some q => comment_exists q d
                | None => true
                end)
  then Err foreign_key_violation
  else update_engagement_score INSERT (c_post_id NEW)
         (set_comments (NEW :: comments d) d).

(** The ids removed when the rows selected by [root] are deleted:
    `parent_id ... ON DELETE CASCADE` takes the replies with them.  A reply
    is always newer than its parent (the parent had to exist), so one pass
    from the oldest row finds every descendant. *)
Fixpoint cascade_delete (root : comment -> bool) (t : list comment)
    : list uuid :=
  match t with
  | [] => []
  | c :: older =>
      let gone := cascade_delete root older in
      if root c ||
         match c_parent_id c with
         | Some q => existsb (uuid_eqb q) gone
         | None => false
         end
      then c_id c :: gone
      else gone
  end.

Definition is_gone (gone : list uuid) (c : comment) : bool :=
  existsb (uuid_eqb (c_id c)) gone.

(** `DELETE FROM comments WHERE id = c`. *)
Definition delete_comment (c : uuid) (d : db) : result db :=
  let gone := cascade_delete (fun r => uuid_eqb (c_id r) c) (comments d) in
  for_each_row (fun OLD => update_engagement_score DELETE (c_post_id OLD))
    (filter (is_gone gone) (comments d))
    (set_comments (filter (fun r => negb (is_gone gone r)) (comments d)) d).

(** `INSERT INTO posts`: primary key, `creator_id` references `profiles`;
    then the post-count trigger.  The client may supply any column. *)
Definition insert_post (NEW : post) (d : db) : result db :=
  if post_exists (p_id NEW) d then Err unique_violation
  else if negb (profile_exists (creator_id NEW) d)
  then Err foreign_key_violation
  else update_post_count INSERT NEW (set_posts (NEW :: posts d) d).

(** A post row as the client code inserts it: the counters and the score
    take their column defaults. *)
Definition new_post (p creator : uuid) : post :=
  {| p_id := p; creator_id := creator;
     likes_count := Some 0; comments_count := Some 0;
     shares_count := Some 0; saves_count := Some 0;
     engagement_score := Some 0 |}.

(** `DELETE FROM posts WHERE id = p`.  The likes and comments of a deleted
    post go with it (`ON DELETE CASCADE`), the comments with their replies;
    every removed row fires its own trigger. *)
Definition delete_post (p : uuid) (d : db) : result db :=
  match filter (fun r => uuid_eqb (p_id r) p) (posts d) with
  | [] => Ok d
  | OLD =>
      let like_hit := fun l => uuid_eqb (pl_post_id l) p in
      let gone :=
        cascade_delete (fun c => uuid_eqb (c_post_id c) p) (comments d) in
      let d1 :=
        set_comments
          (filter (fun r => negb (is_gone gone r)) (comments d))
          (set_post_likes
             (filter (fun l => negb (like_hit l)) (post_likes d))
             (set_posts
                (filter (fun r => negb (uuid_eqb (p_id r) p)) (posts d))
                d)) in
      d2 <- for_each_row
              (fun l => update_engagement_score DELETE (pl_post_id l))
              (filter like_hit (post_likes d)) d1 ;;
      d3 <- for_each_row
              (fun c => update_engagement_score DELETE (c_post_id c))
              (filter (is_gone gone) (comments d)) d2 ;;
      for_each_row (update_post_count DELETE) OLD d3
  end.

(* ================================================================= *)
(** ** Histories *)

Inductive op : Type :=
  | SignUp (NEW : auth_user)
  | InsertFollow (NEW : follow)
  | DeleteFollow (follower following : uuid)
  | InsertPost (NEW : post)
  | DeletePost (p : uuid)
  | InsertLike (NEW : post_like)
  | DeleteLike (p u : uuid)
  | InsertComment (NEW : comment)
  | DeleteComment (c : uuid).

Definition step (o : op) (d : db) : result db :=
  match o with
  | SignUp NEW => handle_new_user NEW d
  | InsertFollow NEW => insert_follow NEW d
  | DeleteFollow a b => delete_follow a b d
  | InsertPost NEW => insert_post NEW d
  | DeletePost p => delete_post p d
  | InsertLike NEW => insert_like NEW d
  | DeleteLike p u => delete_like p u d
  | InsertComment NEW => insert_comment NEW d
  | DeleteComment c => delete_comment c d
  end.

(** The states a history of committed statements leads to, from the empty
    database; a statement that raises leaves the database as it was. *)
Inductive reachable : db -> Prop :=
  | reach_empty : reachable empty_db
  | reach_step (d d' : db) (o : op) :
      reachable d -> step o d = Ok d' -> reachable d'.

(** Column reads by primary key. *)
Definition profile_row (u : uuid) (d : db) : option profile :=
  find (fun r => uuid_eqb (id r) u) (profiles d).

Definition post_row (p : uuid) (d : db) : option post :=
  find (fun r => uuid_eqb (p_id r) p) (posts d).

(* ================================================================= *)
(** ** Derived counters against the live rows *)

Definition followers_of (u : uuid) (d : db) : Z :=
  count (fun e => uuid_eqb (following_id e) u) (follows d).

Definition following_of (u : uuid) (d : db) : Z :=
  count (fun e => uuid_eqb (follower_id e) u) (follows d).

Definition posts_of (u : uuid) (d : db) : Z :=
  count (fun q => uuid_eqb (creator_id q) u) (posts d).

Definition likes_of (p : uuid) (d : db) : Z :=
  count (fun l => uuid_eqb (pl_post_id l) p) (post_likes d).

Definition comments_of (p : uuid) (d : db) : Z :=
  count (fun c => uuid_eqb (c_post_id c) p) (comments d).

(** The three counters of a profile row agree with the follow edges [F]
    and the posts [Po]. *)
Definition counts_row_ok (F : list follow) (Po : list post) (r : profile)
    : Prop :=
  followers_count r = Some (count (fun e => uuid_eqb (following_id e) (id r)) F) /\
  following_count r = Some (count (fun e => uuid_eqb (follower_id e) (id r)) F) /\
  posts_count r = Some (count (fun q => uuid_eqb (creator_id q) (id r)) Po).

(** Every follow edge and every post belongs to existing profiles. *)
Definition references_ok (P : list profile) (F : list follow)
    (Po : list post) : Prop :=
  Forall (fun e => In (follower_id e) (map id P) /\
                   In (following_id e) (map id P)) F /\
  Forall (fun q => In (creator_id q) (map id P)) Po.

(** The weighted sum of the stored counters of a post row, `NULL` read
    as 0. *)
Definition weighted_sum (r : post) : Z :=
  COALESCE (likes_count r) 0 * 1 +
  COALESCE (comments_count r) 0 * 3 +
  COALESCE (shares_count r) 0 * 5 +
  COALESCE (saves_count r) 0 * 10.

(** The stored score of post [p] is the weighted sum of its stored
    counters (the score is kept in hundredths). *)
Definition score_ok (p : uuid) (d : db) : Prop :=
  forall r, post_row p d = Some r ->
            engagement_score r = Some (100 * weighted_sum r).

(** The post a like or comment statement is about, in the state it runs
    in; [None] for the other statements and for a comment that is not
    there. *)
Definition targets (o : op) (d : db) : option uuid :=
  match o with
  | InsertLike NEW => Some (pl_post_id NEW)
  | DeleteLike p _ => Some p
  | InsertComment NEW => Some (c_post_id NEW)
  | DeleteComment c =>
      option_map c_post_id
        (find (fun r => uuid_eqb (c_id r) c) (comments d))
  | _ => None
  end.

(** Whether the statement touches a row, and so fires the row trigger:
    an insertion that commits always does, a deletion only when a row
    matches. *)
Definition fires (o : op) (d : db) : bool :=
  match o with
  | InsertLike _ => true
  | InsertComment _ => true
  | DeleteLike p u =>
      existsb (same_like {| pl_post_id := p; pl_user_id := u |})
        (post_likes d)
  | DeleteComment c => comment_exists c d
  | _ => false
  end.

Fixpoint run (os : list op) (d : db) : result db :=
  match os with
  | [] => Ok d
  | o :: rest => d' <- step o d ;; run rest d'
  end.

(* ================================================================= *)
(** ** Relations used in the proofs *)

(** What a run of the engagement trigger may change: the score column of
    post rows, and nothing else. *)
Definition same_but_score (r r' : post) : Prop :=
  exists s, r' = set_engagement_score s r.

Definition score_only (d d' : db) : Prop :=
  exists t, d' = set_posts t d /\ Forall2 same_but_score (posts d) t.

(** The profile counters agree with the live rows, and every edge and
    post points to a profile. *)
Definition counters_exact (d : db) : Prop :=
  Forall (counts_row_ok (follows d) (posts d)) (profiles d) /\
  references_ok (profiles d) (follows d) (posts d).

Definition tg_op_eq_dec (a b : tg_op) : {a = b} + {a <> b}.
Proof. decide equality. Defined.

(** `SELECT <counter> FROM profiles WHERE id = u` (`NULL` when there is no
    such row). *)
Definition followers_count_of (u : uuid) (d : db) : sql_int :=
  match profile_row u d with
  | Some r => followers_count r
  | None => None
  end.

Definition following_count_of (u : uuid) (d : db) : sql_int :=
  match profile_row u d with
  | Some r => following_count r
  | None => None
  end.

(** A counter column holds a non-negative `INTEGER`. *)
Definition counter_value (c : sql_int) : Prop :=
  exists n, c = Some n /\ 0 <= n <= int4_max.

Definition counters_in_range (d : db) : Prop :=
  Forall (fun r => counter_value (followers_count r) /\
                   counter_value (following_count r) /\
                   counter_value (posts_count r))
         (profiles d).

(* ================================================================= *)
(** ** Example states *)

(** A small history used to exercise the statements: two identities, a
    follow edge, a post with default counters, one like on it. *)
Definition alice : auth_user :=
  {| au_id := 1%N;
     raw_user_meta_data := [("username", "alice"); ("display_name", "Alice")] |}.

Definition bob : auth_user :=
  {| au_id := 2%N;
     raw_user_meta_data := [("username", "bob"); ("display_name", "Bob")] |}.

Definition two_users : db :=
  Eval vm_compute in
    match run [SignUp alice; SignUp bob] empty_db with
    | Ok d => d
    | Err _ => empty_db
    end.

Definition one_post : db :=
  Eval vm_compute in
    match run [InsertFollow {| follower_id := 1%N; following_id := 2%N |};
               InsertPost (new_post 7%N 1%N)] two_users with
    | Ok d => d
    | Err _ => empty_db
    end.

Definition one_like : db :=
  Eval vm_compute in
    match run [InsertLike {| pl_post_id := 7%N; pl_user_id := 2%N |}]
            one_post with
    | Ok d => d
    | Err _ => empty_db
    end.

(* ================================================================= *)
(** ** Ephemeral content *)

(** Timestamps are points of the integer time line, in microseconds. *)
Record ephemeral_post : Type := {
  e_id : uuid;
  e_creator_id : uuid;
  e_duration_hours : Z;
  e_expires_at : Z;
  e_created_at : Z
}.

(** Policy "Ephemeral content is viewable by everyone":
    `FOR SELECT USING (expires_at > NOW())`.  The predicate does not
    mention the caller. *)
Definition ephemeral_viewable (now : Z) (e : ephemeral_post) : bool :=
  e_expires_at e >? now.

(** What a `SELECT` on `ephemeral_content` returns to [reader] at [now]. *)
Definition select_ephemeral (reader : option uuid) (now : Z)
    (t : list ephemeral_post) : list ephemeral_post :=
  filter (ephemeral_viewable now) t.

(** The periodic sweep:
    `DELETE FROM public.ephemeral_content WHERE expires_at < NOW()`. *)
Definition cleanup_ephemeral_content (now : Z) (t : list ephemeral_post)
    : list ephemeral_post :=
  filter (fun e => negb (e_expires_at e <? now)) t.

(** The table after sweeps at the given times, the first of the list
    run last. *)
Definition swept (times : list Z) (t : list ephemeral_post)
    : list ephemeral_post :=
  fold_right cleanup_ephemeral_content t times.

(* ================================================================= *)
(** ** Messages *)

Record conversation_participant : Type := {
  cp_conversation_id : uuid;
  cp_user_id : uuid;
  cp_left_at : option Z
}.

Record message : Type := {
  m_id : uuid;
  m_conversation_id : uuid;
  m_sender_id : uuid
}.

Definition is_null {A : Type} (v : option A) : bool :=
  match v with
  | None => true
  | Some _ => false
  end.

(** `user_id = auth.uid()`: never true for an anonymous caller, whose
    `auth.uid()` is `NULL`. *)
Definition is_caller (auth_uid : option uuid) (u : uuid) : bool :=
  match auth_uid with
  | Some a => uuid_eqb u a
  | None => false
  end.

(** Policy "Users can view messages in their conversations":
    `EXISTS (SELECT 1 FROM conversation_participants
             WHERE conversation_id = messages.conversation_id
               AND user_id = auth.uid() AND left_at IS NULL)`. *)
Definition messages_select_policy (auth_uid : option uuid)
    (participants : list conversation_participant) (m : message) : bool :=
  existsb (fun cp =>
             uuid_eqb (cp_conversation_id cp) (m_conversation_id m) &&
             is_caller auth_uid (cp_user_id cp) &&
             is_null (cp_left_at cp))
          participants.

Definition select_messages (auth_uid : option uuid)
    (participants : list conversation_participant) (t : list message)
    : list message :=
  filter (messages_select_policy auth_uid participants) t.

(** `UNIQUE(conversation_id, user_id)` on `conversation_participants`. *)
Definition participants_unique (t : list conversation_participant) : Prop :=
  forall x y, In x t -> In y t ->
    cp_conversation_id x = cp_conversation_id y ->
    cp_user_id x = cp_user_id y -> x = y.

(* ================================================================= *)
(** ** Numbers of the client code *)

(** The Number values the store code handles: the result of `parseFloat`
    on the price field.  A finite value is kept as the decimal it was
    written as, [digits] * 10 ^ [exponent]; rounding to binary64 is not
    modelled (it does not change which decimals of up to fifteen digits are
    zero, nor what their JSON text reads back as). *)
Inductive js_number : Type :=
  | JNaN
  | JInfinity (negative : bool)
  | JDecimal (negative : bool) (digits : N) (exponent : Z).

Definition is_ws (c : ascii) : bool :=
  let n := N_of_ascii c in
  ((9 <=? n) && (n <=? 13) || (n =? 32))%N.

Fixpoint skip_ws (s : string) : string :=
  match s with
  | String c rest => if is_ws c then skip_ws rest else s
  | EmptyString => s
  end.

Definition digit_of (c : ascii) : option N :=
  let n := N_of_ascii c in
  if ((48 <=? n) && (n <=? 57))%N then Some (n - 48)%N else None.

(** Reads the longest run of decimal digits: the value accumulated on
    [acc], how many digits were read, and the rest of the text. *)
Fixpoint read_digits (s : string) (acc : N) (n : Z) : N * Z * string :=
  match s with
  | String c rest =>
      match digit_of c with
      | Some k => read_digits rest (acc * 10 + k)%N (n + 1)
      | None => (acc, n, s)
      end
  | EmptyString => (acc, n, s)
  end.

Definition read_sign (s : string) : bool * string :=
  match s with
  | String "-" rest => (true, rest)
  | String "+" rest => (false, rest)
  | _ => (false, s)
  end.

(** `ExponentPart`: `e` or `E`, an optional sign, at least one digit;
    anything else is not part of the number. *)
Definition read_exponent (s : string) : Z :=
  match s with
  | String c rest =>
      if (Ascii.eqb c "e" || Ascii.eqb c "E")%bool then
        let (neg, rest') := read_sign rest in
        match read_digits rest' 0%N 0 with
        | (v, n, _) =>
            if n =? 0 then 0
            else if neg then - Z.of_N v else Z.of_N v
        end
      else 0
  | EmptyString => 0
  end.

(** `parseFloat(s)`: leading white space is skipped, the longest prefix
    that is a `StrDecimalLiteral` is read, `NaN` when there is none. *)
Definition parseFloat (s : string) : js_number :=
  let (neg, body) := read_sign (skip_ws s) in
  if String.prefix "Infinity" body then JInfinity neg
  else
    match read_digits body 0%N 0 with
    | (int_part, n_int, after_int) =>
        match
          match after_int with
          | String "." frac => read_digits frac int_part 0
          | _ => (int_part, 0, after_int)
          end
        with
        | (digits, n_frac, after_frac) =>
            if n_int + n_frac =? 0 then JNaN
            else JDecimal neg digits (read_exponent after_frac - n_frac)
        end
    end.

(** Truthiness of a Number: `NaN` and the zeros are falsy. *)
Definition js_truthy (x : js_number) : bool :=
  match x with
  | JNaN => false
  | JInfinity _ => true
  | JDecimal _ digits _ => negb (digits =? 0)%N
  end.

(** `x || 0` *)
Definition js_or_zero (x : js_number) : js_number :=
  if js_truthy x then x else JDecimal false 0%N 0.

(** A Number sent in a JSON body and stored in a `DECIMAL(10,2)` column:
    `NaN` and the infinities are serialised as `null`; a finite value is
    rounded to two decimals, half away from zero, and must fit. *)
Definition numeric_of_js (x : js_number) : result sql_numeric :=
  match x with
  | JNaN => Ok None
  | JInfinity _ => Ok None
  | JDecimal neg digits exponent =>
      let m := Z.of_N digits in
      let magnitude :=
        if 0 <=? exponent + 2 then m * 10 ^ (exponent + 2)
        else
          let unit := 10 ^ (- (exponent + 2)) in
          if unit <=? 2 * (m mod unit) then m / unit + 1 else m / unit in
      numeric_10_2 (if neg then - magnitude else magnitude)
  end.

(* ================================================================= *)
(** ** Sticker packs: creation *)

Definition pack_exists (k : uuid) (d : db) : bool :=
  existsb (fun r => uuid_eqb (sp_id r) k) (sticker_packs d).

(** `INSERT INTO sticker_packs`: primary key, `creator_id` references
    `profiles`. *)
Definition insert_sticker_pack (NEW : sticker_pack) (d : db) : result db :=
  if pack_exists (sp_id NEW) d then Err unique_violation
  else if negb (profile_exists (sp_creator_id NEW) d)
  then Err foreign_key_violation
  else Ok (set_sticker_packs (NEW :: sticker_packs d) d).

(** The two `SELECT` policies of `sticker_packs`, either of which admits
    the row: "Anyone can view approved public sticker packs" and "Users can
    view their own sticker packs". *)
Definition publicly_listable (k : sticker_pack) : bool :=
  sp_is_public k && sp_is_approved k.

Definition sticker_packs_select_policy (auth_uid : option uuid)
    (k : sticker_pack) : bool :=
  publicly_listable k || is_caller auth_uid (sp_creator_id k).

(** `s.trim()` on the white space [is_ws] knows. *)
Fixpoint rev_string (s acc : string) : string :=
  match s with
  | String c rest => rev_string rest (String c acc)
  | EmptyString => acc
  end.

Definition trim (s : string) : string :=
  rev_string (skip_ws (rev_string (skip_ws s) "")) "".

(** The state of the creation form when it is submitted. *)
Record pack_form : Type := {
  packName : string;
  price : string;
  isPublic : bool;
  stickers : nat;
  cover_upload_failed : bool
}.

Inductive submit_outcome : Type :=
  | login_required
  | name_required
  | no_stickers
  | too_few_stickers
  | creation_failed
  | pack_created (row : sticker_pack) (d : db).

(** `handleSubmit`, up to the insertion of the pack row; [new_id] is the
    id the database generates for it. *)
Definition handleSubmit (user : option uuid) (form : pack_form)
    (new_id : uuid) (d : db) : submit_outcome :=
  match user with
  | None => login_required
  | Some u =>
      if (trim (packName form) =? "")%string then name_required
      else if Nat.eqb (stickers form) 0 then no_stickers
      else if Nat.ltb (stickers form) 3 then too_few_stickers
      else if cover_upload_failed form then creation_failed
      else
        match numeric_of_js (js_or_zero (parseFloat (price form))) with
        | Err _ => creation_failed
        | Ok stored_price =>
            let row :=
              {| sp_id := new_id;
                 sp_creator_id := u;
                 sp_name := trim (packName form);
                 sp_price := stored_price;
                 sp_is_public := isPublic form;
                 sp_is_approved := (price form =? "0")%string |} in
            match insert_sticker_pack row d with
            | Ok d' => pack_created row d'
            | Err _ => creation_failed
            end
        end
  end.

(* ================================================================= *)
(** ** Sticker packs: purchase *)

(** `INSERT INTO user_purchases`: the table has no uniqueness constraint
    and its insert policy is `WITH CHECK (TRUE)`; the two references must
    hold. *)
Definition insert_user_purchase (NEW : user_purchase) (d : db) : result db :=
  if negb (profile_exists (up_user_id NEW) d && pack_exists (up_pack_id NEW) d)
  then Err foreign_key_violation
  else Ok (set_user_purchases (NEW :: user_purchases d) d).

Definition has_purchase (u k : uuid) (d : db) : bool :=
  existsb (fun r => uuid_eqb (up_user_id r) u && uuid_eqb (up_pack_id r) k)
    (user_purchases d).

(** Modelled from the spec: `ownedPacks` of the `useStickers` hook, which
    is not among the sources; the packs for which a Purchase record of the
    identity exists ("Purchase record exists" is the source of truth for
    ownership). *)
Definition ownedPacks (u : uuid) (d : db) : list sticker_pack :=
  filter (fun k => has_purchase u (sp_id k) d) (sticker_packs d).

(** Modelled from the spec: `myPacks` of the same hook; the packs the
    identity created. *)
Definition myPacks (u : uuid) (d : db) : list sticker_pack :=
  filter (fun k => uuid_eqb (sp_creator_id k) u) (sticker_packs d).

(** A pack as the store shows it. *)
Record pack_view : Type := {
  pack : sticker_pack;
  is_owned : bool
}.

(** `ownedPackIds.has(pack.id) || myPackIds.has(pack.id)` *)
Definition owned_flag (u : uuid) (d : db) (k : sticker_pack) : bool :=
  existsb (uuid_eqb (sp_id k)) (map sp_id (ownedPacks u d)) ||
  existsb (uuid_eqb (sp_id k)) (map sp_id (myPacks u d)).

Definition view_of (u : uuid) (d : db) (k : sticker_pack) : pack_view :=
  {| pack := k; is_owned := owned_flag u d k |}.

(** `pack.price === 0` *)
Definition price_is_zero (p : sql_numeric) : bool :=
  match p with
  | Some 0 => true
  | _ => false
  end.

Inductive purchase_outcome : Type :=
  | go_to_auth
  | already_owned
  | free_pack_added
  | free_pack_error
  | checkout (pack_id user_id : uuid).

Definition free_purchase (u : uuid) (k : sticker_pack) : user_purchase :=
  {| up_user_id := u; up_pack_id := sp_id k; up_amount := 0;
     up_payment_id := Some "free_download" |}.

(** `handlePurchase`: the database it leaves and what the user is shown.
    For a paid pack only the checkout request leaves the client; the
    purchase row of a paid pack is not written by this code. *)
Definition handlePurchase (user : option uuid) (v : pack_view) (d : db)
    : db * purchase_outcome :=
  match user with
  | None => (d, go_to_auth)
  | Some u =>
      if is_owned v then (d, already_owned)
      else if price_is_zero (sp_price (pack v)) then
        match insert_user_purchase (free_purchase u (pack v)) d with
        | Ok d' => (d', free_pack_added)
        | Err _ => (d, free_pack_error)
        end
      else (d, checkout (sp_id (pack v)) u)
  end.

(** A store state for the purchase examples: alice has published a paid
    pack (5.00) and a free one, both public and approved. *)
Definition paid_cats : sticker_pack :=
  {| sp_id := 50%N; sp_creator_id := 1%N; sp_name := "Cats";
     sp_price := Some 500; sp_is_public := true; sp_is_approved := true |}.

Definition free_dogs : sticker_pack :=
  {| sp_id := 51%N; sp_creator_id := 1%N; sp_name := "Dogs";
     sp_price := Some 0; sp_is_public := true; sp_is_approved := true |}.

Definition store_db : db :=
  set_sticker_packs [free_dogs; paid_cats] two_users.

Definition typed_0_00 : pack_form :=
  {| packName := "Cats"; price := "0.00"; isPublic := true; stickers := 3;
     cover_upload_failed := false |}.

Definition cleared_price : pack_form :=
  {| packName := "Cats"; price := ""; isPublic := true; stickers := 3;
     cover_upload_failed := false |}.

Definition like_or_comment (o : op) : bool :=
  match o with
  | InsertLike _ | DeleteLike _ _ | InsertComment _ | DeleteComment _ => true
  | _ => false
  end.

(* ================================================================= *)
(** ** Referential integrity, roles and raw counter cells *)

(** The comments table as the insertions build it: ids are unique and a
    reply is newer than the comment it answers. *)
Fixpoint comments_wf (t : list comment) : Prop :=
  match t with
  | [] => True
  | c :: older =>
      ~ In (c_id c) (map c_id older) /\
      (forall q, c_parent_id c = Some q -> In q (map c_id older)) /\
      comments_wf older
  end.

(** The keys and references the schema declares: primary keys, the two
    `UNIQUE` pairs, and every `REFERENCES` of the modelled tables. *)
Definition integrity (d : db) : Prop :=
  NoDup (map id (profiles d)) /\
  NoDup (map p_id (posts d)) /\
  NoDup (follows d) /\
  NoDup (post_likes d) /\
  comments_wf (comments d) /\
  Forall (fun u => In u (map id (profiles d))) (map creator_id (posts d)) /\
  Forall (fun e => In (follower_id e) (map id (profiles d)) /\
                   In (following_id e) (map id (profiles d))) (follows d) /\
  Forall (fun l => In (pl_post_id l) (map p_id (posts d)) /\
                   In (pl_user_id l) (map id (profiles d))) (post_likes d) /\
  Forall (fun c => In (c_post_id c) (map p_id (posts d)) /\
                   In (c_user_id c) (map id (profiles d))) (comments d).

(** What a trigger run leaves alone: every table but the counter and
    score columns of `profiles` and `posts`. *)
Definition frame (d d' : db) : Prop :=
  map id (profiles d') = map id (profiles d) /\
  map p_id (posts d') = map p_id (posts d) /\
  map creator_id (posts d') = map creator_id (posts d) /\
  follows d' = follows d /\
  post_likes d' = post_likes d /\
  comments d' = comments d /\
  user_roles d' = user_roles d /\
  user_settings d' = user_settings d /\
  sticker_packs d' = sticker_packs d /\
  user_purchases d' = user_purchases d.

(** Policy "Moderators can view reports":
    `EXISTS (SELECT 1 FROM user_roles
             WHERE user_id = auth.uid() AND role IN ('moderator', 'admin'))`. *)
Definition reports_select_policy (auth_uid : option uuid) (d : db) : bool :=
  existsb (fun r =>
             is_caller auth_uid (ur_user_id r) &&
             match ur_role r with
             | role_moderator | role_admin => true
             | role_user => false
             end)
          (user_roles d).

(** The cells an `increment_counter` or `decrement_counter` call addresses:
    the named column of the rows of the named table whose id is [row_id]. *)
Definition counter_cells (table_name column_name : string) (row_id : uuid)
    (d : db) : list sql_int :=
  if (table_name =? "profiles")%string then
    match profiles_column column_name with
    | Some c =>
        map (col_get c)
          (filter (fun r => uuid_eqb (id r) row_id) (profiles d))
    | None => []
    end
  else if (table_name =? "posts")%string then
    match posts_column column_name with
    | Some c =>
        map (col_get c)
          (filter (fun r => uuid_eqb (p_id r) row_id) (posts d))
    | None => []
    end
  else [].

(** [one_like] with a thread on the post: comment 9, its reply 10, the
    reply 12 to that reply, and the unrelated comment 11. *)
Definition thread_history : list op :=
  [InsertComment {| c_id := 9%N; c_post_id := 7%N; c_user_id := 2%N;
                    c_parent_id := None |};
   InsertComment {| c_id := 10%N; c_post_id := 7%N; c_user_id := 1%N;
                    c_parent_id := Some 9%N |};
   InsertComment {| c_id := 11%N; c_post_id := 7%N; c_user_id := 1%N;
                    c_parent_id := None |};
   InsertComment {| c_id := 12%N; c_post_id := 7%N; c_user_id := 2%N;
                    c_parent_id := Some 10%N |}].

Definition with_thread : db :=
  Eval vm_compute in
    match run thread_history one_like with
    | Ok d => d
    | Err _ => empty_db
    end.

(** A cell that holds a number that is not negative. *)
Definition not_negative (v : sql_int) : Prop :=
  exists n, v = Some n /\ 0 <= n.

(** The laws of a column of a row type with key [key]: reading what was
    written, writing what was read, overwriting, and the key staying. *)
Definition column_laws {R : Type} (key : R -> uuid) (c : int_column R)
    : Prop :=
  (forall v r, col_get c (col_set c v r) = v) /\
  (forall r, col_set c (col_get c r) r = r) /\
  (forall v w r, col_set c v (col_set c w r) = col_set c v r) /\
  (forall v r, key (col_set c v r) = key r).

(** Every identity has one role row, in step with its profile row, and
    all roles are the base role. *)
Definition roles_ok (d : db) : Prop :=
  map ur_user_id (user_roles d) = map id (profiles d) /\
  Forall (fun r => ur_role r = role_user) (user_roles d).

(* ================================================================= *)
(** ** Storage objects *)

(** `string_to_array(name, '/')` *)
Fixpoint split_slash (s : string) : list string :=
  match s with
  | EmptyString => [EmptyString]
  | String c rest =>
      if Ascii.eqb c "/" then EmptyString :: split_slash rest
      else
        match split_slash rest with
        | first :: others => String c first :: others
        | [] => [String c EmptyString]
        end
  end.

(** `storage.foldername(name)`: the parts of the path but the last.  (For
    the empty name the platform function has no part at all; here as there
    it has no folder.) *)
Definition foldername (name : string) : list string :=
  removelast (split_slash name).

(** The policies "Users can upload ..." and "Users can delete their ..."
    of a bucket:
    `bucket_id = '<bucket>' AND auth.uid()::text = (storage.foldername(name))[1]`;
    [auth_uid_text] is `auth.uid()::text`, `NULL` for an anonymous caller. *)
Definition storage_owner_policy (bucket : string)
    (auth_uid_text : option string) (bucket_id name : string) : bool :=
  (bucket_id =? bucket)%string &&
  match auth_uid_text, hd_error (foldername name) with
  | Some a, Some folder => (a =? folder)%string
  | _, _ => false
  end.

Fixpoint has_slash (s : string) : bool :=
  match s with
  | EmptyString => false
  | String c rest => Ascii.eqb c "/" || has_slash rest
  end.

(** The object paths `handleSubmit` uploads to, in the bucket `stickers`:
    `${user.id}/${Date.now()}-cover-${coverImage.name}` and
    `${user.id}/${packData.id}/${Date.now()}-${sticker.file.name}`; the
    ids and the clock reading come as their texts. *)
Definition coverFileName (user_id now file_name : string) : string :=
  user_id ++ "/" ++ now ++ "-cover-" ++ file_name.

Definition fileName (user_id pack_id now file_name : string)
    : string :=
  user_id ++ "/" ++ pack_id ++ "/" ++ now ++ "-" ++ file_name.

(* ================================================================= *)
(** ** Seed rows *)

Inductive severity : Type := low | medium | high.

Record report_type : Type := {
  rt_name : string;
  rt_description : option string;
  rt_severity : severity;
  rt_is_active : bool
}.

(** `INSERT INTO report_types ... ON CONFLICT (name) DO NOTHING`: a row
    whose name is taken, in the table or by an earlier row of the same
    statement, is skipped. *)
Fixpoint insert_do_nothing (rows t : list report_type) : list report_type :=
  match rows with
  | [] => t
  | r :: rest =>
      insert_do_nothing rest
        (if existsb (fun x => (rt_name x =? rt_name r)%string) t
         then t else r :: t)
  end.

Definition default_report_types : list report_type :=
  [ {| rt_name := "Spam";
       rt_description :=
         Some "Unwanted commercial content or repetitive posts";
       rt_severity := low; rt_is_active := true |};
    {| rt_name := "Harassment";
       rt_description := Some "Bullying or targeted harassment";
       rt_severity := high; rt_is_active := true |};
    {| rt_name := "Hate Speech";
       rt_description :=
         Some "Discriminatory content based on protected characteristics";
       rt_severity := high; rt_is_active := true |};
    {| rt_name := "Violence";
       rt_description := Some "Threats of violence or harmful content";
       rt_severity := high; rt_is_active := true |};
    {| rt_name := "Impersonation";
       rt_description := Some "Pretending to be someone else";
       rt_severity := medium; rt_is_active := true |};
    {| rt_name := "Copyright";
       rt_description := Some "Unauthorized use of copyrighted material";
       rt_severity := medium; rt_is_active := true |};
    {| rt_name := "Inappropriate Content";
       rt_description :=
         Some "Sexually explicit or otherwise inappropriate content";
       rt_severity := medium; rt_is_active := true |} ].

(** The seeding statement of the script. *)
Definition seed_report_types (t : list report_type) : list report_type :=
  insert_do_nothing default_report_types t.

Definition has_name (n : string) (t : list report_type) : bool :=
  existsb (fun x => (rt_name x =? n)%string) t.

(** The four stored counters of a post row. *)
Definition stored_counters (r : post)
    : sql_int * sql_int * sql_int * sql_int :=
  (likes_count r, comments_count r, shares_count r, saves_count r).

(** Every post row of [d'] is a row of [d], but for its score. *)
Definition posts_kept (d d' : db) : Prop :=
  forall q', In q' (posts d') ->
             exists q, In q (posts d) /\ same_but_score q q'.


(* ================================================================= *)
(** ** The sticker list of the creation form *)

(** A `File`, by the two properties the form reads. *)
Record js_file : Type := {
  f_name : string;
  f_type : string
}.

(** An entry of the `stickers` state (the preview URL left out). *)
Record sticker_file : Type := {
  sf_id : string;
  sf_file : js_file;
  sf_emoji : string
}.

(** `file.type.startsWith("image/")` *)
Definition is_image (f : js_file) : bool := String.prefix "image/" (f_type f).

(** `imageFiles.map(file => ({ id: Math.random()..., file, emoji: "" }))`;
    [rand] gives the id drawn for each position. *)
Fixpoint newStickers (rand : nat -> string) (i : nat) (files : list js_file)
    : list sticker_file :=
  match files with
  | [] => []
  | f :: rest =>
      {| sf_id := rand i; sf_file := f; sf_emoji := "" |}
        :: newStickers rand (S i) rest
  end.

(** `processStickerFiles`, on the list the form shows. *)
Definition processStickerFiles (rand : nat -> string) (files : list js_file)
    (prev : list sticker_file) : list sticker_file :=
  let imageFiles := filter is_image files in
  if Nat.eqb (List.length imageFiles) 0 then prev
  else if Nat.ltb 50 (List.length prev + List.length imageFiles) then prev
  else (prev ++ newStickers rand 0 imageFiles)%list.

Definition removeSticker (i : string) (prev : list sticker_file)
    : list sticker_file :=
  filter (fun s => negb (sf_id s =? i)%string) prev.

Definition updateStickerEmoji (i emoji : string) (prev : list sticker_file)
    : list sticker_file :=
  map (fun sticker =>
         if (sf_id sticker =? i)%string
         then {| sf_id := sf_id sticker; sf_file := sf_file sticker;
                 sf_emoji := emoji |}
         else sticker) prev.

(** What the user can do to the list, one event after the other. *)
Inductive form_event : Type :=
  | AddFiles (rand : nat -> string) (files : list js_file)
  | RemoveSticker (i : string)
  | SetEmoji (i emoji : string).

Definition form_step (prev : list sticker_file) (ev : form_event)
    : list sticker_file :=
  match ev with
  | AddFiles rand files => processStickerFiles rand files prev
  | RemoveSticker i => removeSticker i prev
  | SetEmoji i emoji => updateStickerEmoji i emoji prev
  end.

Definition form_run (events : list form_event) : list sticker_file :=
  fold_left form_step events [].

(* ================================================================= *)
(** ** Liking a post from the following feed *)

(** A post as the feed holds it, by the fields the like handler uses. *)
Record feed_post : Type := {
  fp_id : uuid;
  is_liked : bool;
  fp_likes_count : sql_int
}.

(** `ToNumber` of a fetched integer column (`null` counts as 0). *)
Definition to_number (x : sql_int) : Z := COALESCE x 0.

Definition has_like (p u : uuid) (d : db) : bool :=
  existsb (same_like {| pl_post_id := p; pl_user_id := u |}) (post_likes d).

(** What `fetchFollowingPosts` makes of a post row for the reader: the
    stored columns, and `is_liked: !!like` from the reader's like row. *)
Definition fetched (user : uuid) (d : db) (r : post) : feed_post :=
  {| fp_id := p_id r; is_liked := has_like (p_id r) user d;
     fp_likes_count := likes_count r |}.

(** The optimistic update of `handleLikePost`. *)
Definition toggle_like (postId : uuid) (post : feed_post) : feed_post :=
  if uuid_eqb (fp_id post) postId
  then {| fp_id := fp_id post;
          is_liked := negb (is_liked post);
          fp_likes_count :=
            Some (if is_liked post
                  then to_number (fp_likes_count post) - 1
                  else to_number (fp_likes_count post) + 1) |}
  else post.

(** `handleLikePost` on a feed other than "forYou": the list it sets, the
    database after its statement, and the error of the statement, which
    the handler does not look at. *)
Definition handleLikePost (user postId : uuid) (followingPosts : list feed_post)
    (d : db) : list feed_post * db * option sql_error :=
  let shown := map (toggle_like postId) followingPosts in
  let statement :=
    match find (fun p => uuid_eqb (fp_id p) postId) followingPosts with
    | Some post =>
        if is_liked post then delete_like postId user
        else insert_like {| pl_post_id := postId; pl_user_id := user |}
    | None => insert_like {| pl_post_id := postId; pl_user_id := user |}
    end in
  match statement d with
  | Ok d' => (shown, d', None)
  | Err e => (shown, d, Some e)
  end.

(** The entry is what a fetch makes of a row of [d]. *)
Definition in_sync (user : uuid) (d : db) (post : feed_post) : Prop :=
  exists r, In r (posts d) /\ post = fetched user d r.


(* ================================================================= *)
(** ** The store listing *)

(** `Array.prototype.sort(compare)`.  The sort is stable, and for a
    comparator that is a consistent order, as the differences of numeric
    keys below are, its result is determined: it is what this insertion
    from the right builds. *)
Fixpoint js_insert {A : Type} (compare : A -> A -> Z) (x : A)
    (sorted : list A) : list A :=
  match sorted with
  | [] => [x]
  | y :: rest =>
      if compare x y <=? 0 then x :: y :: rest
      else y :: js_insert compare x rest
  end.

Fixpoint js_sort {A : Type} (compare : A -> A -> Z) (l : list A) : list A :=
  match l with
  | [] => []
  | x :: rest => js_insert compare x (js_sort compare rest)
  end.

(** A pack of `allPacks`: the view with the two columns the sorting reads;
    [created_at] is the time `new Date(created_at).getTime()` reads, in
    milliseconds. *)
Record store_pack : Type := {
  shown : pack_view;
  sales_count : sql_int;
  created_at : option Z
}.

Inductive SortOption : Type := popular | newest | price_low | price_high.

Inductive FilterOption : Type :=
  | filter_all | filter_free | filter_paid | filter_owned.

(** `pack.price > 0` (`null > 0` is false) *)
Definition price_is_positive (p : sql_numeric) : bool :=
  match p with
  | Some h => 0 <? h
  | None => false
  end.

(** The price filter of the listing. *)
Definition passes (filterBy : FilterOption) (k : store_pack) : bool :=
  match filterBy with
  | filter_all => true
  | filter_free => price_is_zero (sp_price (pack (shown k)))
  | filter_paid => price_is_positive (sp_price (pack (shown k)))
  | filter_owned => is_owned (shown k)
  end.

(** The comparators of the listing; the prices are compared in
    hundredths, which has the sign of their difference, and `null`
    counts as 0 in a subtraction. *)
Definition compare_by (sortBy : SortOption) (a b : store_pack) : Z :=
  match sortBy with
  | popular => to_number (sales_count b) - to_number (sales_count a)
  | newest => to_number (created_at b) - to_number (created_at a)
  | price_low =>
      to_number (sp_price (pack (shown a))) -
      to_number (sp_price (pack (shown b)))
  | price_high =>
      to_number (sp_price (pack (shown b))) -
      to_number (sp_price (pack (shown a)))
  end.

(** `filteredAndSortedPacks`; [search] is the test the search term makes
    of a pack, [None] when the search box is empty. *)
Definition filteredAndSortedPacks (search : option (store_pack -> bool))
    (filterBy : FilterOption) (sortBy : SortOption)
    (allPacks : list store_pack) : list store_pack :=
  let result :=
    match search with
    | Some matches => filter matches allPacks
    | None => allPacks
    end in
  let result :=
    match filterBy with
    | filter_all => result
    | _ => filter (passes filterBy) result
    end in
  js_sort (compare_by sortBy) result.

(** The packs of a listing that tie with [k] under the comparator. *)
Definition ties (sortBy : SortOption) (k : store_pack)
    (l : list store_pack) : list store_pack :=
  filter (fun x => compare_by sortBy x k =? 0) l.

(** The rank the comparator of [sortBy] orders by, smaller first. *)
Definition rank (sortBy : SortOption) (k : store_pack) : Z :=
  match sortBy with
  | popular => - to_number (sales_count k)
  | newest => - to_number (created_at k)
  | price_low => to_number (sp_price (pack (shown k)))
  | price_high => - to_number (sp_price (pack (shown k)))
  end.

(** Policy "Users can send messages", the `WITH CHECK` of an `INSERT`:
    `EXISTS (SELECT 1 FROM conversation_participants
             WHERE conversation_id = messages.conversation_id
               AND user_id = auth.uid() AND left_at IS NULL)`. *)
Definition messages_insert_policy (auth_uid : option uuid)
    (participants : list conversation_participant) (NEW : message) : bool :=
  existsb (fun cp =>
             uuid_eqb (cp_conversation_id cp) (m_conversation_id NEW) &&
             is_caller auth_uid (cp_user_id cp) &&
             is_null (cp_left_at cp))
          participants.

(** The row with another `sender_id`. *)
Definition sent_as (s : uuid) (m : message) : message :=
  {| m_id := m_id m; m_conversation_id := m_conversation_id m;
     m_sender_id := s |}.

(** The entry of bob's feed for alice's post, once bob has liked it. *)
Definition liked_entry : feed_post :=
  toggle_like 7%N (fetched 2%N one_post (new_post 7%N 1%N)).

(* ================================================================= *)
(** * Properties *)

(* ================================================================= *)
(** ** Basic facts *)

Lemma uuid_eqb_eq (a b : uuid) : uuid_eqb a b = true <-> a = b.
Proof. apply N.eqb_eq. Qed.

Lemma uuid_eqb_refl (a : uuid) : uuid_eqb a a = true.
Proof. apply N.eqb_refl. Qed.

Lemma uuid_eqb_neq (a b : uuid) : uuid_eqb a b = false <-> a <> b.
Proof. apply N.eqb_neq. Qed.

Lemma uuid_eqb_sym (a b : uuid) : uuid_eqb a b = uuid_eqb b a.
Proof. apply N.eqb_sym. Qed.

Lemma bind_Ok {A B : Type} (m : result A) (k : A -> result B) (b : B) :
  bind m k = Ok b -> exists a, m = Ok a /\ k a = Ok b.
Proof. destruct m as [a|e]; simpl; [eauto | discriminate]. Qed.

Ltac bind_inv H :=
  let x := fresh "x" in
  let Hx := fresh "Hx" in
  apply bind_Ok in H; destruct H as (x & Hx & H).

Lemma int4_Ok (z : Z) (v : sql_int) :
  int4 z = Ok v -> v = Some z /\ int4_min <= z <= int4_max.
Proof.
  unfold int4. destruct (int4_min <=? z) eqn:E1; simpl; try discriminate.
  destruct (z <=? int4_max) eqn:E2; try discriminate.
  intros H. inversion H. split; [reflexivity | lia].
Qed.

Lemma int4_in_range (z : Z) :
  int4_min <= z <= int4_max -> int4 z = Ok (Some z).
Proof.
  intros [H1 H2]. unfold int4.
  apply Z.leb_le in H1. apply Z.leb_le in H2. now rewrite H1, H2.
Qed.

Lemma UPDATE_Forall2 {R : Type} (cond : R -> bool) (set : R -> result R)
    (t t' : list R) :
  UPDATE cond set t = Ok t' ->
  Forall2 (fun r r' => if cond r then set r = Ok r' else r' = r) t t'.
Proof.
  revert t'. induction t as [|r t IH]; simpl; intros t' H.
  - inversion H. constructor.
  - bind_inv H. bind_inv H. inversion H; subst. constructor.
    + destruct (cond r); [assumption | now inversion Hx].
    + now apply IH.
Qed.

Lemma Forall2_transfer {R : Type} (rel : R -> R -> Prop) (Q Q' : R -> Prop)
    (t t' : list R) :
  Forall2 rel t t' ->
  (forall r r', rel r r' -> Q r -> Q' r') ->
  Forall Q t -> Forall Q' t'.
Proof.
  intros H HQ. induction H; intros HF; constructor; inversion HF; subst; eauto.
Qed.

Lemma Forall2_map_eq {R X : Type} (rel : R -> R -> Prop) (f : R -> X)
    (t t' : list R) :
  Forall2 rel t t' ->
  (forall r r', rel r r' -> f r' = f r) ->
  map f t' = map f t.
Proof.
  intros H Hf. induction H; simpl; [reflexivity|].
  f_equal; auto.
Qed.

Lemma count_nil {R : Type} (cond : R -> bool) : count cond [] = 0.
Proof. reflexivity. Qed.

Lemma count_cons {R : Type} (cond : R -> bool) (r : R) (t : list R) :
  count cond (r :: t) = (if cond r then 1 else 0) + count cond t.
Proof.
  unfold count. cbn [filter]. destruct (cond r); cbn [List.length]; lia.
Qed.

Lemma count_nonneg {R : Type} (cond : R -> bool) (t : list R) :
  0 <= count cond t.
Proof. unfold count. lia. Qed.

Lemma count_app {R : Type} (cond : R -> bool) (t1 t2 : list R) :
  count cond (t1 ++ t2) = count cond t1 + count cond t2.
Proof.
  unfold count. rewrite filter_app, List.length_app. lia.
Qed.

Lemma count_split {R : Type} (cond hit : R -> bool) (t : list R) :
  count cond (filter hit t ++ filter (fun r => negb (hit r)) t) = count cond t.
Proof.
  rewrite count_app.
  induction t as [|r t IH]; [reflexivity|].
  rewrite count_cons. simpl filter.
  destruct (hit r); simpl; rewrite count_cons; lia.
Qed.

Lemma count_map_eq {R X : Type} (f : R -> X) (g : X -> bool) (t t' : list R) :
  map f t' = map f t ->
  count (fun r => g (f r)) t' = count (fun r => g (f r)) t.
Proof.
  revert t'. induction t as [|r t IH]; intros [|r' t'] H; try discriminate.
  - reflexivity.
  - simpl in H. inversion H as [[Hr Ht]]. rewrite !count_cons.
    rewrite Hr, (IH _ Ht). reflexivity.
Qed.

Lemma count_zero {R : Type} (cond : R -> bool) (t : list R) :
  (forall r, In r t -> cond r = false) -> count cond t = 0.
Proof.
  induction t as [|r t IH]; intros H; [reflexivity|].
  rewrite count_cons, (H r (or_introl eq_refl)), IH; [reflexivity|].
  intros r' Hr'. apply H. now right.
Qed.

(* ================================================================= *)
(** ** The counter triggers keep the profile counters exact *)

Lemma update_counter_profiles (expr : sql_int -> result sql_int)
    (cname : string) (c : int_column profile) (a : uuid) (d d' : db) :
  profiles_column cname = Some c ->
  update_counter expr "profiles" cname a d = Ok d' ->
  exists t,
    d' = set_profiles t d /\
    Forall2 (fun r r' =>
               if uuid_eqb (id r) a
               then exists v, expr (col_get c r) = Ok v /\ r' = col_set c v r
               else r' = r)
            (profiles d) t.
Proof.
  intros Hc H. unfold update_counter in H.
  change (("profiles" =? "profiles")%string) with true in H. cbv iota in H.
  rewrite Hc in H. bind_inv H. inversion H; subst d'; clear H.
  exists x. split; [reflexivity|].
  apply UPDATE_Forall2 in Hx.
  eapply Forall2_impl; [|exact Hx].
  intros r r' Hr. cbv beta in Hr. destruct (uuid_eqb (id r) a); [|assumption].
  bind_inv Hr. inversion Hr; subst. eauto.
Qed.

Lemma incr_Ok (c v : sql_int) (n : Z) :
  c = Some n -> int4_add c (Some 1) = Ok v -> v = Some (n + 1).
Proof.
  intros -> H. simpl in H. now apply int4_Ok in H.
Qed.

Lemma decr_Ok (c v : sql_int) (n : Z) :
  c = Some n -> 1 <= n ->
  (w <- int4_sub c (Some 1) ;; Ok (GREATEST (Some 0) w)) = Ok v ->
  v = Some (n - 1).
Proof.
  intros -> Hn H. bind_inv H. simpl in Hx. apply int4_Ok in Hx as [-> _].
  simpl in H. inversion H. f_equal. lia.
Qed.

Lemma follow_INSERT_counts (e : follow) (d d' : db)
    (F : list follow) (Po : list post) :
  update_follow_counts INSERT e d = Ok d' ->
  Forall (counts_row_ok F Po) (profiles d) ->
  (exists t, d' = set_profiles t d) /\
  Forall (counts_row_ok (e :: F) Po) (profiles d') /\
  map id (profiles d') = map id (profiles d).
Proof.
  intros H Hinv. unfold update_follow_counts, increment_counter in H.
  bind_inv H.
  eapply update_counter_profiles in Hx; [|reflexivity].
  eapply update_counter_profiles in H; [|reflexivity].
  destruct Hx as (t1 & -> & H1). destruct H as (t2 & -> & H2).
  simpl in H2. simpl.
  split; [eexists; reflexivity|]. split.
  - eapply Forall2_transfer; [exact H2| |].
    2:{ eapply Forall2_transfer with
          (Q' := fun r =>
             followers_count r =
               Some (count (fun x => uuid_eqb (following_id x) (id r)) F) /\
             following_count r =
               Some (count (fun x => uuid_eqb (follower_id x) (id r)) (e :: F)) /\
             posts_count r =
               Some (count (fun q => uuid_eqb (creator_id q) (id r)) Po));
          [exact H1| |exact Hinv].
        intros r r' Hr (Ha & Hb & Hc). cbv beta in Hr. rewrite count_cons.
        rewrite (uuid_eqb_sym (follower_id e) (id r')).
        destruct (uuid_eqb (id r) (follower_id e)) eqn:E.
        - destruct Hr as (v & Hv & ->). simpl in *. rewrite E.
          apply (incr_Ok _ _ _ Hb) in Hv. subst v. repeat split; auto.
          f_equal. lia.
        - subst r'. rewrite E. repeat split; auto. }
    intros r r' Hr (Ha & Hb & Hc). cbv beta in Hr. unfold counts_row_ok.
    rewrite (count_cons (fun x => uuid_eqb (following_id x) (id r'))).
    rewrite (uuid_eqb_sym (following_id e) (id r')).
    destruct (uuid_eqb (id r) (following_id e)) eqn:E.
    + destruct Hr as (v & Hv & ->). simpl in *. rewrite E.
      apply (incr_Ok _ _ _ Ha) in Hv. subst v. repeat split; auto.
      f_equal. lia.
    + subst r'. rewrite E. repeat split; auto.
  - transitivity (map id t1).
    + eapply Forall2_map_eq; [exact H2|].
      intros r r' Hr. cbv beta in Hr.
      destruct (uuid_eqb (id r) (following_id e));
        [destruct Hr as (v & _ & ->); reflexivity | now subst].
    + eapply Forall2_map_eq; [exact H1|].
      intros r r' Hr. cbv beta in Hr.
      destruct (uuid_eqb (id r) (follower_id e));
        [destruct Hr as (v & _ & ->); reflexivity | now subst].
Qed.

Lemma follow_DELETE_counts (e : follow) (d d' : db)
    (F : list follow) (Po : list post) :
  update_follow_counts DELETE e d = Ok d' ->
  Forall (counts_row_ok (e :: F) Po) (profiles d) ->
  (exists t, d' = set_profiles t d) /\
  Forall (counts_row_ok F Po) (profiles d') /\
  map id (profiles d') = map id (profiles d).
Proof.
  intros H Hinv. unfold update_follow_counts, decrement_counter in H.
  bind_inv H.
  eapply update_counter_profiles in Hx; [|reflexivity].
  eapply update_counter_profiles in H; [|reflexivity].
  destruct Hx as (t1 & -> & H1). destruct H as (t2 & -> & H2).
  simpl in H2. simpl.
  split; [eexists; reflexivity|]. split.
  - eapply Forall2_transfer; [exact H2| |].
    2:{ eapply Forall2_transfer with
          (Q' := fun r =>
             followers_count r =
               Some (count (fun x => uuid_eqb (following_id x) (id r)) (e :: F)) /\
             following_count r =
               Some (count (fun x => uuid_eqb (follower_id x) (id r)) F) /\
             posts_count r =
               Some (count (fun q => uuid_eqb (creator_id q) (id r)) Po));
          [exact H1| |exact Hinv].
        intros r r' Hr (Ha & Hb & Hc). cbv beta in Hr.
        rewrite count_cons in Hb.
        rewrite (uuid_eqb_sym (follower_id e) (id r)) in Hb.
        destruct (uuid_eqb (id r) (follower_id e)) eqn:E.
        - destruct Hr as (v & Hv & ->). cbv iota in Hb. simpl.
          apply (decr_Ok _ _ _ Hb) in Hv;
            [|pose proof (count_nonneg
                 (fun x => uuid_eqb (follower_id x) (id r)) F); lia].
          subst v. repeat split; auto. f_equal. lia.
        - subst r'. repeat split; auto. }
    intros r r' Hr (Ha & Hb & Hc). cbv beta in Hr. unfold counts_row_ok.
    rewrite count_cons in Ha.
    rewrite (uuid_eqb_sym (following_id e) (id r)) in Ha.
    destruct (uuid_eqb (id r) (following_id e)) eqn:E.
    + destruct Hr as (v & Hv & ->). cbv iota in Ha. simpl.
      apply (decr_Ok _ _ _ Ha) in Hv;
        [|pose proof (count_nonneg
             (fun x => uuid_eqb (following_id x) (id r)) F); lia].
      subst v. repeat split; auto. f_equal. lia.
    + subst r'. repeat split; auto.
  - transitivity (map id t1).
    + eapply Forall2_map_eq; [exact H2|].
      intros r r' Hr. cbv beta in Hr.
      destruct (uuid_eqb (id r) (following_id e));
        [destruct Hr as (v & _ & ->); reflexivity | now subst].
    + eapply Forall2_map_eq; [exact H1|].
      intros r r' Hr. cbv beta in Hr.
      destruct (uuid_eqb (id r) (follower_id e));
        [destruct Hr as (v & _ & ->); reflexivity | now subst].
Qed.

Lemma post_INSERT_counts (q : post) (d d' : db)
    (F : list follow) (Po : list post) :
  update_post_count INSERT q d = Ok d' ->
  Forall (counts_row_ok F Po) (profiles d) ->
  (exists t, d' = set_profiles t d) /\
  Forall (counts_row_ok F (q :: Po)) (profiles d') /\
  map id (profiles d') = map id (profiles d).
Proof.
  intros H Hinv. unfold update_post_count, increment_counter in H.
  eapply update_counter_profiles in H; [|reflexivity].
  destruct H as (t1 & -> & H1). simpl.
  split; [eexists; reflexivity|]. split.
  - eapply Forall2_transfer; [exact H1| |exact Hinv].
    intros r r' Hr (Ha & Hb & Hc). cbv beta in Hr. unfold counts_row_ok.
    rewrite (count_cons (fun x => uuid_eqb (creator_id x) (id r'))).
    rewrite (uuid_eqb_sym (creator_id q) (id r')).
    destruct (uuid_eqb (id r) (creator_id q)) eqn:E.
    + destruct Hr as (v & Hv & ->). simpl in *. rewrite E.
      apply (incr_Ok _ _ _ Hc) in Hv. subst v. repeat split; auto.
      f_equal. lia.
    + subst r'. rewrite E. repeat split; auto.
  - eapply Forall2_map_eq; [exact H1|].
    intros r r' Hr. cbv beta in Hr.
    destruct (uuid_eqb (id r) (creator_id q));
      [destruct Hr as (v & _ & ->); reflexivity | now subst].
Qed.

Lemma post_DELETE_counts (q : post) (d d' : db)
    (F : list follow) (Po : list post) :
  update_post_count DELETE q d = Ok d' ->
  Forall (counts_row_ok F (q :: Po)) (profiles d) ->
  (exists t, d' = set_profiles t d) /\
  Forall (counts_row_ok F Po) (profiles d') /\
  map id (profiles d') = map id (profiles d).
Proof.
  intros H Hinv. unfold update_post_count, decrement_counter in H.
  eapply update_counter_profiles in H; [|reflexivity].
  destruct H as (t1 & -> & H1). simpl.
  split; [eexists; reflexivity|]. split.
  - eapply Forall2_transfer; [exact H1| |exact Hinv].
    intros r r' Hr (Ha & Hb & Hc). cbv beta in Hr. unfold counts_row_ok.
    rewrite count_cons in Hc.
    rewrite (uuid_eqb_sym (creator_id q) (id r)) in Hc.
    destruct (uuid_eqb (id r) (creator_id q)) eqn:E.
    + destruct Hr as (v & Hv & ->). cbv iota in Hc. simpl.
      apply (decr_Ok _ _ _ Hc) in Hv;
        [|pose proof (count_nonneg
             (fun x => uuid_eqb (creator_id x) (id r)) Po); lia].
      subst v. repeat split; auto. f_equal. lia.
    + subst r'. repeat split; auto.
  - eapply Forall2_map_eq; [exact H1|].
    intros r r' Hr. cbv beta in Hr.
    destruct (uuid_eqb (id r) (creator_id q));
      [destruct Hr as (v & _ & ->); reflexivity | now subst].
Qed.

(** Row triggers over a batch of deleted rows. *)
Lemma follow_DELETE_rows (rows : list follow) (d d' : db)
    (F : list follow) (Po : list post) :
  for_each_row (update_follow_counts DELETE) rows d = Ok d' ->
  Forall (counts_row_ok (rows ++ F) Po) (profiles d) ->
  (exists t, d' = set_profiles t d) /\
  Forall (counts_row_ok F Po) (profiles d') /\
  map id (profiles d') = map id (profiles d).
Proof.
  revert d. induction rows as [|e rows IH]; cbn [for_each_row app]; intros d H Hinv.
  - inversion H; subst. split; [|now split].
    exists (profiles d'). now destruct d'.
  - bind_inv H.
    destruct (follow_DELETE_counts _ _ _ _ _ Hx Hinv) as ((t1 & ->) & H1 & Hid1).
    destruct (IH _ H H1) as ((t2 & ->) & H2 & Hid2).
    split; [eexists; reflexivity|]. split; [assumption|].
    now rewrite Hid2, Hid1.
Qed.

Lemma post_DELETE_rows (rows : list post) (d d' : db)
    (F : list follow) (Po : list post) :
  for_each_row (update_post_count DELETE) rows d = Ok d' ->
  Forall (counts_row_ok F (rows ++ Po)) (profiles d) ->
  (exists t, d' = set_profiles t d) /\
  Forall (counts_row_ok F Po) (profiles d') /\
  map id (profiles d') = map id (profiles d).
Proof.
  revert d. induction rows as [|e rows IH]; cbn [for_each_row app]; intros d H Hinv.
  - inversion H; subst. split; [|now split].
    exists (profiles d'). now destruct d'.
  - bind_inv H.
    destruct (post_DELETE_counts _ _ _ _ _ Hx Hinv) as ((t1 & ->) & H1 & Hid1).
    destruct (IH _ H H1) as ((t2 & ->) & H2 & Hid2).
    split; [eexists; reflexivity|]. split; [assumption|].
    now rewrite Hid2, Hid1.
Qed.

(* ================================================================= *)
(** ** The engagement trigger writes the score column only *)

Lemma same_but_score_refl (r : post) : same_but_score r r.
Proof. exists (engagement_score r). now destruct r. Qed.

Lemma same_but_score_trans (r1 r2 r3 : post) :
  same_but_score r1 r2 -> same_but_score r2 r3 -> same_but_score r1 r3.
Proof. intros (s1 & ->) (s2 & ->). now exists s2. Qed.

Lemma Forall2_refl {R : Type} (rel : R -> R -> Prop) (t : list R) :
  (forall r, rel r r) -> Forall2 rel t t.
Proof. intros H. induction t; constructor; auto. Qed.

Lemma Forall2_trans {R : Type} (rel : R -> R -> Prop) (t1 t2 t3 : list R) :
  (forall a b c, rel a b -> rel b c -> rel a c) ->
  Forall2 rel t1 t2 -> Forall2 rel t2 t3 -> Forall2 rel t1 t3.
Proof.
  intros Ht H12. revert t3. induction H12; intros t3 H23;
    inversion H23; subst; constructor; eauto.
Qed.

Lemma score_only_refl (d : db) : score_only d d.
Proof.
  exists (posts d). split; [now destruct d|].
  apply Forall2_refl, same_but_score_refl.
Qed.

Lemma score_only_trans (d1 d2 d3 : db) :
  score_only d1 d2 -> score_only d2 d3 -> score_only d1 d3.
Proof.
  intros (t1 & -> & H1) (t2 & -> & H2). simpl in H2.
  exists t2. split; [reflexivity|].
  eapply Forall2_trans; eauto using same_but_score_trans.
Qed.

Lemma engagement_trigger_rows (op : tg_op) (p : uuid) (d d' : db) :
  op <> UPDATE_OP ->
  update_engagement_score op p d = Ok d' ->
  exists t,
    d' = set_posts t d /\
    Forall2 (fun r r' =>
               if uuid_eqb (p_id r) p
               then exists s, calculate_engagement_score p d = Ok s /\
                              r' = set_engagement_score s r
               else r' = r)
            (posts d) t.
Proof.
  intros Hop H.
  assert (H' : (t <- UPDATE (fun r => uuid_eqb (p_id r) p)
                      (fun r => s <- calculate_engagement_score p d ;;
                                Ok (set_engagement_score s r))
                      (posts d) ;;
                Ok (set_posts t d)) = Ok d')
    by (destruct op; [exact H | exact H | congruence]).
  clear H. bind_inv H'. inversion H'; subst d'.
  exists x. split; [reflexivity|].
  apply UPDATE_Forall2 in Hx. eapply Forall2_impl; [|exact Hx].
  intros r r' Hr. cbv beta in Hr.
  destruct (uuid_eqb (p_id r) p); [|assumption].
  bind_inv Hr. inversion Hr; subst. eauto.
Qed.

Lemma engagement_trigger_score_only (op : tg_op) (p : uuid) (d d' : db) :
  update_engagement_score op p d = Ok d' -> score_only d d'.
Proof.
  intros H. destruct (tg_op_eq_dec op UPDATE_OP) as [->|Hop].
  - simpl in H. inversion H. apply score_only_refl.
  - destruct (engagement_trigger_rows _ _ _ _ Hop H) as (t & -> & Ht).
    exists t. split; [reflexivity|].
    eapply Forall2_impl; [|exact Ht].
    intros r r' Hr. cbv beta in Hr.
    destruct (uuid_eqb (p_id r) p).
    + destruct Hr as (s & _ & ->). now exists s.
    + subst. apply same_but_score_refl.
Qed.

Lemma engagement_rows_score_only {R : Type} (g : R -> uuid) (op : tg_op)
    (rows : list R) (d d' : db) :
  for_each_row (fun x => update_engagement_score op (g x)) rows d = Ok d' ->
  score_only d d'.
Proof.
  revert d. induction rows as [|x rows IH]; cbn [for_each_row]; intros d H.
  - inversion H. apply score_only_refl.
  - bind_inv H. eapply score_only_trans; [|apply IH; exact H].
    eapply engagement_trigger_score_only; exact Hx.
Qed.

Lemma score_only_tables (d d' : db) :
  score_only d d' ->
  profiles d' = profiles d /\ follows d' = follows d /\
  post_likes d' = post_likes d /\ comments d' = comments d /\
  user_roles d' = user_roles d /\ user_settings d' = user_settings d /\
  sticker_packs d' = sticker_packs d /\
  user_purchases d' = user_purchases d /\
  map p_id (posts d') = map p_id (posts d) /\
  map creator_id (posts d') = map creator_id (posts d).
Proof.
  intros (t & -> & Ht). simpl. repeat split; try reflexivity.
  - eapply Forall2_map_eq; [exact Ht|]. now intros r r' (s & ->).
  - eapply Forall2_map_eq; [exact Ht|]. now intros r r' (s & ->).
Qed.

(* ================================================================= *)
(** ** Every committed statement keeps the profile counters exact *)

Lemma profile_exists_In (u : uuid) (d : db) :
  profile_exists u d = true <-> In u (map id (profiles d)).
Proof.
  unfold profile_exists. rewrite existsb_exists, in_map_iff.
  split; intros (r & H1 & H2).
  - exists r. split; [now apply uuid_eqb_eq | assumption].
  - exists r. split; [assumption | now apply uuid_eqb_eq].
Qed.

Lemma Forall_filter_keep {R : Type} (Q : R -> Prop) (f : R -> bool)
    (t : list R) :
  Forall Q t -> Forall Q (filter f t).
Proof.
  rewrite !Forall_forall. intros H r Hr. apply filter_In in Hr. now apply H.
Qed.

Lemma counts_row_ok_eq (F F' : list follow) (Po Po' : list post)
    (r : profile) :
  (forall u, count (fun e => uuid_eqb (following_id e) u) F' =
             count (fun e => uuid_eqb (following_id e) u) F) ->
  (forall u, count (fun e => uuid_eqb (follower_id e) u) F' =
             count (fun e => uuid_eqb (follower_id e) u) F) ->
  (forall u, count (fun q => uuid_eqb (creator_id q) u) Po' =
             count (fun q => uuid_eqb (creator_id q) u) Po) ->
  counts_row_ok F Po r -> counts_row_ok F' Po' r.
Proof.
  intros H1 H2 H3 (Ha & Hb & Hc). unfold counts_row_ok.
  now rewrite H1, H2, H3.
Qed.

Lemma count_creator_map (Po Po' : list post) (u : uuid) :
  map creator_id Po' = map creator_id Po ->
  count (fun q => uuid_eqb (creator_id q) u) Po' =
  count (fun q => uuid_eqb (creator_id q) u) Po.
Proof.
  intros H. exact (count_map_eq creator_id (fun c => uuid_eqb c u) Po Po' H).
Qed.

Lemma Forall_creator_map (Q : uuid -> Prop) (Po Po' : list post) :
  map creator_id Po' = map creator_id Po ->
  Forall (fun q => Q (creator_id q)) Po ->
  Forall (fun q => Q (creator_id q)) Po'.
Proof.
  revert Po'. induction Po as [|q Po IH]; intros [|q' Po'] H HF;
    try discriminate; constructor; simpl in H; inversion H; inversion HF; subst.
  - now rewrite H1.
  - now apply IH.
Qed.

Lemma score_only_counters (d d' : db) :
  score_only d d' -> counters_exact d -> counters_exact d'.
Proof.
  intros Hs (Hc & Hf & Hp).
  destruct (score_only_tables _ _ Hs)
    as (E1 & E2 & _ & _ & _ & _ & _ & _ & _ & E3).
  unfold counters_exact, references_ok. rewrite E1, E2. repeat split.
  - eapply Forall_impl; [|exact Hc]. intros r.
    apply counts_row_ok_eq; auto. intros u. now apply count_creator_map.
  - assumption.
  - eapply Forall_creator_map with (Q := fun c => In c (map id (profiles d)));
      eassumption.
Qed.

Lemma sign_up_counters (NEW : auth_user) (d d' : db) :
  counters_exact d -> handle_new_user NEW d = Ok d' -> counters_exact d'.
Proof.
  intros (Hc & Hf & Hp) H. unfold handle_new_user in H. bind_inv H.
  unfold insert_profile in Hx. cbn [id username] in Hx.
  destruct (existsb _ (profiles d)) eqn:E1 in Hx; [discriminate|].
  destruct (existsb _ (profiles d)) eqn:E2 in Hx; [discriminate|].
  inversion Hx; subst x; clear Hx.
  unfold insert_user_role in H.
  destruct (existsb _ _) in H; [discriminate|].
  destruct (negb _) in H; [discriminate|].
  inversion H; subst d'; clear H.
  unfold counters_exact, references_ok. cbn.
  assert (Hnew : ~ In (au_id NEW) (map id (profiles d))).
  { intros Hin. apply profile_exists_In in Hin. unfold profile_exists in Hin.
    congruence. }
  repeat split.
  - constructor.
    + rewrite Forall_forall in Hf, Hp. unfold counts_row_ok. cbn.
      rewrite !count_zero; auto.
      * intros q Hq. apply uuid_eqb_neq. intros Heq. apply Hnew.
        rewrite <- Heq. now apply Hp.
      * intros e He. apply uuid_eqb_neq. intros Heq. apply Hnew.
        rewrite <- Heq. now apply (Hf e He).
      * intros e He. apply uuid_eqb_neq. intros Heq. apply Hnew.
        rewrite <- Heq. now apply (Hf e He).
    + exact Hc.
  - eapply Forall_impl; [|exact Hf]. intros e [? ?]. split; now right.
  - eapply Forall_impl; [|exact Hp]. intros q ?. now right.
Qed.

Lemma insert_follow_counters (NEW : follow) (d d' : db) :
  counters_exact d -> insert_follow NEW d = Ok d' -> counters_exact d'.
Proof.
  intros (Hc & Hf & Hp) H. unfold insert_follow in H.
  destruct (existsb _ _) in H; [discriminate|].
  destruct (profile_exists (follower_id NEW) d) eqn:Ea;
    [|discriminate].
  destruct (profile_exists (following_id NEW) d) eqn:Eb;
    [|discriminate].
  cbn [negb andb] in H.
  apply follow_INSERT_counts with (F := follows d) (Po := posts d) in H;
    [|exact Hc].
  destruct H as ((t & ->) & H1 & H2).
    unfold counters_exact, references_ok. cbn in *.
  repeat split; try assumption.
  - constructor.
    + rewrite H2. split; now apply profile_exists_In.
    + rewrite H2. exact Hf.
  - now rewrite H2.
Qed.

Lemma delete_follow_counters (a b : uuid) (d d' : db) :
  counters_exact d -> delete_follow a b d = Ok d' -> counters_exact d'.
Proof.
  intros (Hc & Hf & Hp) H. unfold delete_follow in H.
  apply follow_DELETE_rows with
    (F := filter (fun r => negb (same_follow
             {| follower_id := a; following_id := b |} r)) (follows d))
    (Po := posts d) in H.
  - destruct H as ((t & ->) & H1 & H2).
    unfold counters_exact, references_ok. cbn in *.
    repeat split; try assumption; rewrite H2.
    + now apply Forall_filter_keep.
    + assumption.
  - cbn. eapply Forall_impl; [|exact Hc]. intros r.
    apply counts_row_ok_eq; auto; intros u; apply count_split.
Qed.

Lemma insert_post_counters (NEW : post) (d d' : db) :
  counters_exact d -> insert_post NEW d = Ok d' -> counters_exact d'.
Proof.
  intros (Hc & Hf & Hp) H. unfold insert_post in H.
  destruct (post_exists _ _) in H; [discriminate|].
  destruct (profile_exists (creator_id NEW) d) eqn:Ea; [|discriminate].
  cbn [negb] in H.
  apply post_INSERT_counts with (F := follows d) (Po := posts d) in H;
    [|exact Hc].
  destruct H as ((t & ->) & H1 & H2).
    unfold counters_exact, references_ok. cbn in *.
  repeat split; try assumption; rewrite H2; try assumption.
  constructor; [now apply profile_exists_In | assumption].
Qed.

Lemma delete_post_counters (p : uuid) (d d' : db) :
  counters_exact d -> delete_post p d = Ok d' -> counters_exact d'.
Proof.
  intros Hd H. unfold delete_post in H.
  destruct (filter (fun r => uuid_eqb (p_id r) p) (posts d)) as [|q0 OLD] eqn:E.
  - inversion H. now subst.
  - rewrite <- E in H. destruct Hd as (Hc & Hf & Hp).
    bind_inv H. bind_inv H.
    apply engagement_rows_score_only in Hx, Hx0.
    pose proof (score_only_trans _ _ _ Hx Hx0) as Hs.
    destruct (score_only_tables _ _ Hs)
      as (E1 & E2 & _ & _ & _ & _ & _ & _ & _ & E3).
    cbn in E1, E2, E3.
    apply post_DELETE_rows with (F := follows d) (Po := posts x0) in H.
    + destruct H as ((t & ->) & H1 & H2).
    unfold counters_exact, references_ok. cbn in *.
      rewrite E2. repeat split; try assumption; rewrite H2, E1.
      * assumption.
      * eapply Forall_creator_map
          with (Q := fun c => In c (map id (profiles d)));
          [exact E3|]. now apply Forall_filter_keep.
    + rewrite E1. eapply Forall_impl; [|exact Hc]. intros r.
      apply counts_row_ok_eq; auto. intros u.
      rewrite count_app, (count_creator_map _ _ u E3), <- count_app.
      apply count_split.
Qed.

Lemma step_counters (o : op) (d d' : db) :
  counters_exact d -> step o d = Ok d' -> counters_exact d'.
Proof.
  intros Hd H. destruct o; cbn [step] in H.
  - eapply sign_up_counters; eassumption.
  - eapply insert_follow_counters; eassumption.
  - eapply delete_follow_counters; eassumption.
  - eapply insert_post_counters; eassumption.
  - eapply delete_post_counters; eassumption.
  - unfold insert_like in H.
    destruct (existsb _ _) in H; [discriminate|].
    destruct (negb _) in H; [discriminate|].
    apply engagement_trigger_score_only in H.
    eapply score_only_counters; [exact H|]. exact Hd.
  - unfold delete_like in H. apply engagement_rows_score_only in H.
    eapply score_only_counters; [exact H|]. exact Hd.
  - unfold insert_comment in H.
    destruct (comment_exists _ _) in H; [discriminate|].
    destruct (negb _) in H; [discriminate|].
    apply engagement_trigger_score_only in H.
    eapply score_only_counters; [exact H|]. exact Hd.
  - unfold delete_comment in H. apply engagement_rows_score_only in H.
    eapply score_only_counters; [exact H|]. exact Hd.
Qed.

Lemma empty_counters : counters_exact empty_db.
Proof. repeat split; constructor. Qed.

Lemma reachable_counters (d : db) : reachable d -> counters_exact d.
Proof.
  induction 1 as [|d d' o _ IH H]; [apply empty_counters|].
  eapply step_counters; eassumption.
Qed.

Lemma run_reachable (os : list op) (d d' : db) :
  reachable d -> run os d = Ok d' -> reachable d'.
Proof.
  revert d. induction os as [|o os IH]; cbn [run]; intros d Hd H.
  - inversion H. now subst.
  - bind_inv H. eapply IH; [|exact H]. eapply reach_step; eassumption.
Qed.

Lemma two_users_reachable : reachable two_users.
Proof.
  apply (run_reachable [SignUp alice; SignUp bob] empty_db);
    [apply reach_empty | reflexivity].
Qed.

Lemma one_post_reachable : reachable one_post.
Proof.
  apply (run_reachable
           [InsertFollow {| follower_id := 1%N; following_id := 2%N |};
            InsertPost (new_post 7%N 1%N)] two_users);
    [apply two_users_reachable | reflexivity].
Qed.

Lemma one_like_reachable : reachable one_like.
Proof.
  apply (run_reachable
           [InsertLike {| pl_post_id := 7%N; pl_user_id := 2%N |}] one_post);
    [apply one_post_reachable | reflexivity].
Qed.




(* ================================================================= *)
(** ** Counters stay non-negative 32-bit values; the clamped decrement
       never fails on them *)

Lemma profiles_column_cases (cname : string) (c : int_column profile) :
  profiles_column cname = Some c ->
  c = {| col_get := followers_count; col_set := set_followers_count |} \/
  c = {| col_get := following_count; col_set := set_following_count |} \/
  c = {| col_get := posts_count; col_set := set_posts_count |}.
Proof.
  unfold profiles_column. intros H.
  destruct (cname =? "followers_count")%string; [inversion H; auto|].
  destruct (cname =? "following_count")%string; [inversion H; auto|].
  destruct (cname =? "posts_count")%string; [inversion H; auto|].
  discriminate.
Qed.

Lemma incr_counter_value (c v : sql_int) :
  counter_value c -> int4_add c (Some 1) = Ok v -> counter_value v.
Proof.
  intros (n & -> & Hn) H. simpl in H. apply int4_Ok in H as [-> Hr].
  exists (n + 1). split; [reflexivity | lia].
Qed.

Lemma decr_counter_value (c v : sql_int) :
  counter_value c ->
  (w <- int4_sub c (Some 1) ;; Ok (GREATEST (Some 0) w)) = Ok v ->
  counter_value v.
Proof.
  intros (n & -> & Hn) H. bind_inv H. simpl in Hx.
  apply int4_Ok in Hx as [-> Hr]. simpl in H. inversion H.
  exists (Z.max 0 (n - 1)). split; [reflexivity | lia].
Qed.

Lemma decr_total (c : sql_int) :
  counter_value c ->
  exists v, (w <- int4_sub c (Some 1) ;; Ok (GREATEST (Some 0) w)) = Ok v.
Proof.
  intros (n & -> & Hn). simpl. rewrite int4_in_range.
  - simpl. eauto.
  - unfold int4_min, int4_max in *. lia.
Qed.

Lemma update_counter_range (expr : sql_int -> result sql_int)
    (cname : string) (a : uuid) (d d' : db) :
  (forall c v, counter_value c -> expr c = Ok v -> counter_value v) ->
  update_counter expr "profiles" cname a d = Ok d' ->
  counters_in_range d -> counters_in_range d'.
Proof.
  intros Hexpr H Hd.
  destruct (profiles_column cname) as [c|] eqn:Ec.
  2:{ unfold update_counter in H.
      change (("profiles" =? "profiles")%string) with true in H.
      cbv iota in H. rewrite Ec in H. discriminate. }
  destruct (update_counter_profiles _ _ _ _ _ _ Ec H) as (t & -> & Ht).
  unfold counters_in_range. cbn [profiles set_profiles].
  eapply Forall2_transfer; [exact Ht| |exact Hd].
  intros r r' Hr (Ha & Hb & Hc). cbv beta in Hr.
  destruct (uuid_eqb (id r) a); [|now subst].
  destruct Hr as (v & Hv & ->).
  destruct (profiles_column_cases _ _ Ec) as [->|[->| ->]]; cbn in *;
    repeat split; eauto.
Qed.

Lemma UPDATE_succeeds {R : Type} (cond : R -> bool) (set : R -> result R)
    (t : list R) :
  (forall r, In r t -> cond r = true -> exists r', set r = Ok r') ->
  exists t', UPDATE cond set t = Ok t'.
Proof.
  induction t as [|r t IH]; intros H; cbn [UPDATE]; [eauto|].
  destruct IH as (t' & Ht'); [intros; apply H; simpl; auto|].
  rewrite Ht'. destruct (cond r) eqn:E.
  - destruct (H r (or_introl eq_refl) E) as (r' & ->). simpl. eauto.
  - simpl. eauto.
Qed.

Lemma decrement_counter_total (cname : string) (c : int_column profile)
    (a : uuid) (d : db) :
  profiles_column cname = Some c ->
  counters_in_range d ->
  exists d', decrement_counter "profiles" cname a d = Ok d'.
Proof.
  intros Ec Hd. unfold decrement_counter, update_counter.
  change (("profiles" =? "profiles")%string) with true. cbv iota.
  rewrite Ec.
  destruct (UPDATE_succeeds (fun r => uuid_eqb (id r) a)
              (fun r => v <- (w <- int4_sub (col_get c r) (Some 1) ;;
                              Ok (GREATEST (Some 0) w)) ;;
                        Ok (col_set c v r)) (profiles d)) as (t & Ht).
  - intros r Hr _. unfold counters_in_range in Hd.
    rewrite Forall_forall in Hd. destruct (Hd r Hr) as (Ha & Hb & Hc).
    assert (Hv : counter_value (col_get c r))
      by (destruct (profiles_column_cases _ _ Ec) as [->|[->| ->]];
          assumption).
    destruct (decr_total _ Hv) as (v & Hv'). rewrite Hv'. simpl. eauto.
  - rewrite Ht. simpl. eauto.
Qed.

Lemma follow_trigger_range (op : tg_op) (e : follow) (d d' : db) :
  update_follow_counts op e d = Ok d' ->
  counters_in_range d -> counters_in_range d'.
Proof.
  intros H Hd. destruct op; cbn [update_follow_counts] in H.
  - bind_inv H. unfold increment_counter in *.
    eapply update_counter_range; [|exact H|].
    + exact incr_counter_value.
    + eapply update_counter_range; [|exact Hx|exact Hd].
      exact incr_counter_value.
  - bind_inv H. unfold decrement_counter in *.
    eapply update_counter_range; [|exact H|].
    + exact decr_counter_value.
    + eapply update_counter_range; [|exact Hx|exact Hd].
      exact decr_counter_value.
  - inversion H. now subst.
Qed.

Lemma post_trigger_range (op : tg_op) (q : post) (d d' : db) :
  update_post_count op q d = Ok d' ->
  counters_in_range d -> counters_in_range d'.
Proof.
  intros H Hd. destruct op; cbn [update_post_count] in H.
  - eapply update_counter_range; [|exact H|exact Hd].
    exact incr_counter_value.
  - eapply update_counter_range; [|exact H|exact Hd].
    exact decr_counter_value.
  - inversion H. now subst.
Qed.

Lemma rows_range {R : Type} (f : R -> db -> result db) (rows : list R)
    (d d' : db) :
  (forall r x x', f r x = Ok x' -> counters_in_range x ->
                  counters_in_range x') ->
  for_each_row f rows d = Ok d' ->
  counters_in_range d -> counters_in_range d'.
Proof.
  intros Hf. revert d. induction rows as [|r rows IH];
    cbn [for_each_row]; intros d H Hd.
  - inversion H. now subst.
  - bind_inv H. eapply IH; [exact H|]. eapply Hf; eassumption.
Qed.

Lemma score_only_range (d d' : db) :
  score_only d d' -> counters_in_range d -> counters_in_range d'.
Proof.
  intros Hs Hd. destruct (score_only_tables _ _ Hs) as (E & _).
  unfold counters_in_range. now rewrite E.
Qed.

(** The clamped decrement of the follow trigger always goes through, and
    leaves every counter a non-negative value. *)
Lemma follow_DELETE_total (e : follow) (d : db) :
  counters_in_range d ->
  exists d', update_follow_counts DELETE e d = Ok d' /\ counters_in_range d'.
Proof.
  intros Hd. cbn [update_follow_counts].
  destruct (decrement_counter_total "following_count" _ (follower_id e) d
              eq_refl Hd) as (d1 & H1).
  assert (Hd1 : counters_in_range d1)
    by (eapply update_counter_range;
        [exact decr_counter_value | exact H1 | exact Hd]).
  destruct (decrement_counter_total "followers_count" _ (following_id e) d1
              eq_refl Hd1) as (d2 & H2).
  exists d2. rewrite H1. cbn [bind]. split; [exact H2|].
  eapply update_counter_range;
    [exact decr_counter_value | exact H2 | exact Hd1].
Qed.

Lemma step_range (o : op) (d d' : db) :
  counters_in_range d -> step o d = Ok d' -> counters_in_range d'.
Proof.
  intros Hd H. destruct o; cbn [step] in H.
  - unfold handle_new_user in H. bind_inv H.
    unfold insert_profile in Hx.
    destruct (existsb _ _) in Hx; [discriminate|].
    destruct (existsb _ _) in Hx; [discriminate|].
    inversion Hx; subst x; clear Hx.
    unfold insert_user_role in H.
    destruct (existsb _ _) in H; [discriminate|].
    destruct (negb _) in H; [discriminate|].
    inversion H; subst d'. unfold counters_in_range. cbn.
    constructor; [|exact Hd].
    repeat split; exists 0; (split; [reflexivity | unfold int4_max; lia]).
  - unfold insert_follow in H.
    destruct (existsb _ _) in H; [discriminate|].
    destruct (negb _) in H; [discriminate|].
    eapply follow_trigger_range; [exact H|exact Hd].
  - unfold delete_follow in H.
    eapply rows_range; [|exact H|exact Hd].
    intros r x x'. apply follow_trigger_range.
  - unfold insert_post in H.
    destruct (post_exists _ _) in H; [discriminate|].
    destruct (negb _) in H; [discriminate|].
    eapply post_trigger_range; [exact H|exact Hd].
  - unfold delete_post in H.
    destruct (filter _ (posts d)) as [|q0 OLD] in H.
    + inversion H. now subst.
    + bind_inv H. bind_inv H.
      apply engagement_rows_score_only in Hx, Hx0.
      eapply rows_range; [|exact H|].
      * intros r y y'. apply post_trigger_range.
      * eapply score_only_range; [exact Hx0|].
        eapply score_only_range; [exact Hx|exact Hd].
  - unfold insert_like in H.
    destruct (existsb _ _) in H; [discriminate|].
    destruct (negb _) in H; [discriminate|].
    apply engagement_trigger_score_only in H.
    eapply score_only_range; eassumption.
  - unfold delete_like in H. apply engagement_rows_score_only in H.
    eapply score_only_range; [exact H|exact Hd].
  - unfold insert_comment in H.
    destruct (comment_exists _ _) in H; [discriminate|].
    destruct (negb _) in H; [discriminate|].
    apply engagement_trigger_score_only in H.
    eapply score_only_range; eassumption.
  - unfold delete_comment in H. apply engagement_rows_score_only in H.
    eapply score_only_range; [exact H|exact Hd].
Qed.

Lemma reachable_range (d : db) : reachable d -> counters_in_range d.
Proof.
  induction 1 as [|d d' o _ IH H]; [constructor|].
  eapply step_range; eassumption.
Qed.

(* ================================================================= *)
(** ** Follow and unfollow *)

Lemma existsb_find {R : Type} (f : R -> bool) (t : list R) :
  existsb f t = true -> exists r, find f t = Some r.
Proof.
  induction t as [|r t IH]; simpl; [discriminate|].
  destruct (f r); [eauto | exact IH].
Qed.

Lemma filter_none {R : Type} (f : R -> bool) (t : list R) :
  existsb f t = false ->
  filter f t = [] /\ filter (fun r => negb (f r)) t = t.
Proof.
  induction t as [|r t IH]; simpl; [auto|].
  destruct (f r); simpl; [discriminate|].
  intros H. destruct (IH H) as [-> ->]. auto.
Qed.

Lemma profile_exists_ids (u : uuid) (d d' : db) :
  map id (profiles d') = map id (profiles d) ->
  profile_exists u d' = profile_exists u d.
Proof.
  intros H. apply eq_true_iff_eq. rewrite !profile_exists_In, H. reflexivity.
Qed.

Lemma counter_lookup (u : uuid) (d : db) :
  counters_exact d -> profile_exists u d = true ->
  followers_count_of u d = Some (followers_of u d) /\
  following_count_of u d = Some (following_of u d).
Proof.
  intros (Hc & _) Hu. unfold followers_count_of, following_count_of,
    profile_row. unfold profile_exists in Hu.
  destruct (existsb_find _ _ Hu) as (r & Hr). rewrite Hr.
  apply find_some in Hr as [Hin Hid]. apply uuid_eqb_eq in Hid.
  rewrite Forall_forall in Hc. destruct (Hc r Hin) as (Ha & Hb & _).
  rewrite Hid in Ha, Hb. now split.
Qed.

Lemma set_follows_same (d : db) : set_follows (follows d) d = d.
Proof. now destruct d. Qed.

Lemma same_follow_refl (e : follow) : same_follow e e = true.
Proof. unfold same_follow. now rewrite !uuid_eqb_refl. Qed.



(* ================================================================= *)
(** ** The engagement score is recomputed from the stored counters *)

Lemma find_Forall2 {R : Type} (rel : R -> R -> Prop) (f : R -> bool)
    (t t' : list R) :
  Forall2 rel t t' ->
  (forall r r', rel r r' -> f r' = f r) ->
  match find f t, find f t' with
  | Some r, Some r' => rel r r'
  | None, None => True
  | _, _ => False
  end.
Proof.
  intros H Hf. induction H as [|r r' t t' Hr _ IH]; simpl; [exact I|].
  rewrite (Hf _ _ Hr). destruct (f r); [exact Hr | exact IH].
Qed.

Lemma calculate_stored (p : uuid) (d : db) (r : post) (s : sql_numeric) :
  post_row p d = Some r ->
  calculate_engagement_score p d = Ok s ->
  s = Some (100 * weighted_sum r).
Proof.
  unfold post_row, calculate_engagement_score. intros -> H.
  unfold numeric_10_2 in H. destruct (_ <? _) in H; [|discriminate].
  inversion H. f_equal. unfold weighted_sum, dec. lia.
Qed.

Lemma trigger_rel_id (p : uuid) (d : db) (r r' : post) :
  (if uuid_eqb (p_id r) p
   then exists s, calculate_engagement_score p d = Ok s /\
                  r' = set_engagement_score s r
   else r' = r) ->
  p_id r' = p_id r.
Proof.
  destruct (uuid_eqb (p_id r) p); [intros (s & _ & ->) | intros ->];
    reflexivity.
Qed.

Lemma trigger_score_ok (op : tg_op) (p q : uuid) (d d' : db) :
  op <> UPDATE_OP ->
  update_engagement_score op q d = Ok d' ->
  q = p \/ score_ok p d ->
  score_ok p d'.
Proof.
  intros Hop H Hpq.
  destruct (engagement_trigger_rows _ _ _ _ Hop H) as (t & -> & Ht).
  intros r' Hr'. unfold post_row in Hr'. cbn [posts set_posts] in Hr'.
  pose proof (find_Forall2 _ (fun r => uuid_eqb (p_id r) p) _ _ Ht) as Hfind.
  rewrite Hr' in Hfind.
  destruct (find (fun r => uuid_eqb (p_id r) p) (posts d)) as [r|] eqn:Er.
  2:{ exfalso. apply Hfind. intros r1 r2 H12. cbv beta in H12.
      now rewrite (trigger_rel_id _ _ _ _ H12). }
  assert (Hrel : if uuid_eqb (p_id r) q
                 then exists s, calculate_engagement_score q d = Ok s /\
                                r' = set_engagement_score s r
                 else r' = r).
  { apply Hfind. intros r1 r2 H12. cbv beta in H12.
    now rewrite (trigger_rel_id _ _ _ _ H12). }
  apply find_some in Er as Er'. destruct Er' as (_ & Hid).
  apply uuid_eqb_eq in Hid.
  destruct (uuid_eqb (p_id r) q) eqn:E.
  - apply uuid_eqb_eq in E. assert (Hq : q = p) by congruence.
    rewrite Hq in Hrel. destruct Hrel as (s & Hs & ->).
    apply (calculate_stored p d r s Er) in Hs. subst s. reflexivity.
  - subst r'. destruct Hpq as [->|Hok].
    + apply uuid_eqb_neq in E. congruence.
    + apply Hok. exact Er.
Qed.

Lemma rows_score_ok {R : Type} (g : R -> uuid) (op : tg_op) (p : uuid)
    (rows : list R) (d d' : db) :
  op <> UPDATE_OP ->
  for_each_row (fun x => update_engagement_score op (g x)) rows d = Ok d' ->
  In p (map g rows) \/ score_ok p d ->
  score_ok p d'.
Proof.
  intros Hop. revert d. induction rows as [|x rows IH];
    cbn [for_each_row map]; intros d H Hp.
  - inversion H; subst. destruct Hp as [[]|Hp]. exact Hp.
  - bind_inv H. apply (IH _ H).
    destruct Hp as [[Hx'|Hin]|Hok].
    + right. eapply trigger_score_ok; [exact Hop|exact Hx|now left].
    + now left.
    + right. eapply trigger_score_ok; [exact Hop|exact Hx|now right].
Qed.

Lemma cascade_root (root : comment -> bool) (t : list comment) (r : comment) :
  In r t -> root r = true -> In (c_id r) (cascade_delete root t).
Proof.
  induction t as [|c older IH]; intros Hin Hr; [destruct Hin|].
  cbn [cascade_delete]. destruct Hin as [->|Hin].
  - rewrite Hr. now left.
  - specialize (IH Hin Hr).
    destruct (root c || _); [now right | assumption].
Qed.

Lemma recompute_fixed (op : tg_op) (p : uuid) (d d1 : db) :
  score_ok p d ->
  update_engagement_score op p d = Ok d1 ->
  post_row p d1 = post_row p d.
Proof.
  intros Hok H. destruct (tg_op_eq_dec op UPDATE_OP) as [->|Hop].
  - inversion H. reflexivity.
  - destruct (engagement_trigger_rows _ _ _ _ Hop H) as (t & -> & Ht).
    unfold post_row. cbn [posts set_posts].
    pose proof (find_Forall2 _ (fun r => uuid_eqb (p_id r) p) _ _ Ht) as Hfind.
    assert (Hpres : forall r r',
               (if uuid_eqb (p_id r) p
                then exists s, calculate_engagement_score p d = Ok s /\
                               r' = set_engagement_score s r
                else r' = r) ->
               uuid_eqb (p_id r') p = uuid_eqb (p_id r) p)
      by (intros r r' H12; now rewrite (trigger_rel_id _ _ _ _ H12)).
    specialize (Hfind Hpres).
    destruct (find _ (posts d)) as [r|] eqn:Er;
      destruct (find _ t) as [r'|]; try contradiction; [|reflexivity].
    apply find_some in Er as Er'. destruct Er' as (_ & Hid).
    rewrite Hid in Hfind. destruct Hfind as (s & Hs & ->).
    apply (calculate_stored p d r s Er) in Hs. subst s.
    rewrite <- (Hok r Er). now destruct r.
Qed.




(** Along a whole history: a post inserted with the column defaults starts
    with a right score, and no history of like and comment statements, on
    this post or on others, ever makes it wrong. *)
Lemma new_post_score_ok (p creator : uuid) (d d' : db) :
  insert_post (new_post p creator) d = Ok d' -> score_ok p d'.
Proof.
  unfold insert_post. destruct (post_exists _ _); [discriminate|].
  destruct (negb _); [discriminate|].
  unfold update_post_count, increment_counter. intros H.
  eapply update_counter_profiles in H; [|reflexivity].
  destruct H as (t & -> & _). intros r Hr.
  unfold post_row in Hr. cbn in Hr. rewrite uuid_eqb_refl in Hr.
  inversion Hr. reflexivity.
Qed.

Lemma like_comment_step_score_ok (o : op) (p : uuid) (d d' : db) :
  like_or_comment o = true -> score_ok p d -> step o d = Ok d' ->
  score_ok p d'.
Proof.
  intros Ho Hok Hs. destruct o; try discriminate; cbn [step] in Hs.
  - unfold insert_like in Hs.
    destruct (existsb _ _) in Hs; [discriminate|].
    destruct (negb _) in Hs; [discriminate|].
    eapply trigger_score_ok; [|exact Hs|now right]. discriminate.
  - unfold delete_like in Hs.
    eapply rows_score_ok; [|exact Hs|now right]. discriminate.
  - unfold insert_comment in Hs.
    destruct (comment_exists _ _) in Hs; [discriminate|].
    destruct (negb _) in Hs; [discriminate|].
    eapply trigger_score_ok; [|exact Hs|now right]. discriminate.
  - unfold delete_comment in Hs.
    eapply rows_score_ok; [|exact Hs|now right]. discriminate.
Qed.

Lemma score_ok_along_history (os : list op) (p : uuid) (d d' : db) :
  forallb like_or_comment os = true -> score_ok p d -> run os d = Ok d' ->
  score_ok p d'.
Proof.
  revert d. induction os as [|o os IH]; cbn [forallb run]; intros d Ho Hok H.
  - inversion H. now subst.
  - apply andb_prop in Ho as [Ho Hos]. bind_inv H.
    eapply IH; [exact Hos| |exact H].
    eapply like_comment_step_score_ok; eassumption.
Qed.

(* ================================================================= *)
(** ** Duplicate likes *)

Lemma same_like_refl (l : post_like) : same_like l l = true.
Proof. unfold same_like. now rewrite !uuid_eqb_refl. Qed.

Lemma existsb_false_forall {R : Type} (f : R -> bool) (t : list R) :
  existsb f t = false -> forall r, In r t -> f r = false.
Proof.
  intros H r Hr. destruct (f r) eqn:E; [|reflexivity].
  assert (existsb f t = true) by (apply existsb_exists; eauto). congruence.
Qed.

(** C4 (amended): once a like of a (user, post) pair is committed, a
    second insertion of the same pair is rejected by the uniqueness
    constraint, so no second like row appears and the database stays as the
    first like left it: exactly one like row of the pair, and the number of
    like rows on the post one more than before the first like. *)
Theorem duplicate_like_rejected (NEW : post_like) (d d1 : db) :
  insert_like NEW d = Ok d1 ->
  insert_like NEW d1 = Err unique_violation /\
  count (same_like NEW) (post_likes d1) = 1 /\
  likes_of (pl_post_id NEW) d1 = likes_of (pl_post_id NEW) d + 1.
Proof.
  intros H. unfold insert_like in H.
  destruct (existsb (same_like NEW) (post_likes d)) eqn:E0; [discriminate|].
  destruct (negb _) in H; [discriminate|].
  apply engagement_trigger_score_only in H.
  destruct (score_only_tables _ _ H) as (_ & _ & EL & _).
  cbn [post_likes set_post_likes] in EL.
  split; [|split].
  - unfold insert_like. rewrite EL. cbn [existsb].
    now rewrite same_like_refl.
  - rewrite EL, count_cons, same_like_refl.
    rewrite count_zero; [reflexivity|].
    now apply existsb_false_forall.
  - unfold likes_of. rewrite EL, count_cons, uuid_eqb_refl. lia.
Qed.

Lemma duplicate_like_rejected_witness :
  insert_like {| pl_post_id := 7%N; pl_user_id := 2%N |} one_like
    = Err unique_violation /\
  count (same_like {| pl_post_id := 7%N; pl_user_id := 2%N |})
    (post_likes one_like) = 1 /\
  likes_of 7%N one_like = likes_of 7%N one_post + 1.
Proof.
  apply (duplicate_like_rejected
           {| pl_post_id := 7%N; pl_user_id := 2%N |} one_post one_like).
  reflexivity.
Defined.

(** C4, as stated, fails on its counter part: the first like leaves the
    stored [likes_count] of the post where it was, not one higher. *)
Lemma first_like_leaves_likes_count :
  insert_like {| pl_post_id := 7%N; pl_user_id := 2%N |} one_post
    = Ok one_like /\
  exists r0 r1,
    post_row 7%N one_post = Some r0 /\ post_row 7%N one_like = Some r1 /\
    likes_count r0 = Some 0 /\ likes_count r1 = Some 0 /\
    likes_count r1 <> Some (0 + 1).
Proof.
  split; [reflexivity|]. do 2 eexists.
  split; [reflexivity|]. split; [reflexivity|]. repeat split. discriminate.
Qed.

(* ================================================================= *)
(** ** Sign-up *)

(** C9 (amended): for a new user (fresh id, user name not taken) the
    trigger of the account creation commits, as one unit, a default profile
    row (counters 0) and the base role `user`; it writes nothing else, in
    particular no settings row. *)
Theorem sign_up_cascade (NEW : auth_user) (d : db) :
  profile_exists (au_id NEW) d = false ->
  existsb (fun r => same_text (username r)
                      (json_text (raw_user_meta_data NEW) "username"))
    (profiles d) = false ->
  existsb (fun r => uuid_eqb (ur_user_id r) (au_id NEW)) (user_roles d)
    = false ->
  exists d',
    handle_new_user NEW d = Ok d' /\
    profiles d' =
      {| id := au_id NEW;
         username := json_text (raw_user_meta_data NEW) "username";
         display_name := json_text (raw_user_meta_data NEW) "display_name";
         followers_count := Some 0; following_count := Some 0;
         posts_count := Some 0 |} :: profiles d /\
    user_roles d' =
      {| ur_user_id := au_id NEW; ur_role := role_user |} :: user_roles d /\
    user_settings d' = user_settings d /\
    posts d' = posts d /\ follows d' = follows d /\
    post_likes d' = post_likes d /\ comments d' = comments d /\
    sticker_packs d' = sticker_packs d /\
    user_purchases d' = user_purchases d.
Proof.
  intros Hid Hname Hrole. unfold handle_new_user, insert_profile.
  cbn [id username]. unfold profile_exists in Hid. rewrite Hid, Hname.
  cbn [bind]. unfold insert_user_role, profile_exists.
  cbn [ur_user_id user_roles set_profiles profiles existsb id].
  rewrite Hrole, uuid_eqb_refl. cbn [orb negb].
  eexists. split; [reflexivity|]. cbn. repeat split.
Qed.

Lemma sign_up_cascade_witness :
  exists d',
    handle_new_user alice empty_db = Ok d' /\
    profiles d' =
      [{| id := 1%N; username := Some "alice"; display_name := Some "Alice";
          followers_count := Some 0; following_count := Some 0;
          posts_count := Some 0 |}] /\
    user_roles d' = [{| ur_user_id := 1%N; ur_role := role_user |}] /\
    user_settings d' = [].
Proof.
  destruct (sign_up_cascade alice empty_db eq_refl eq_refl eq_refl)
    as (d' & H & Hp & Hr & Hs & _).
  exists d'. repeat split; assumption.
Defined.

(** C9, as stated, fails on the settings row: after the cascade of a
    first sign-up there is a profile and a role, and no settings row. *)
Lemma sign_up_creates_no_settings :
  exists d',
    handle_new_user alice empty_db = Ok d' /\
    profile_exists 1%N d' = true /\
    existsb (fun r => uuid_eqb (ur_user_id r) 1%N) (user_roles d') = true /\
    existsb (fun s => uuid_eqb (us_user_id s) 1%N) (user_settings d') = false.
Proof.
  eexists. split; [reflexivity|]. repeat split.
Qed.

(* ================================================================= *)
(** ** Ephemeral content: visibility is the predicate, not the sweep *)

Lemma select_after_cleanup (reader : option uuid) (now at_ : Z)
    (t : list ephemeral_post) :
  at_ <= now ->
  select_ephemeral reader now (cleanup_ephemeral_content at_ t) =
  select_ephemeral reader now t.
Proof.
  intros Hle. unfold select_ephemeral, cleanup_ephemeral_content.
  induction t as [|e t IH]; [reflexivity|]. cbn [filter].
  destruct (e_expires_at e <? at_) eqn:E1; cbn [negb]; [|cbn [filter]];
    destruct (ephemeral_viewable now e) eqn:E2; rewrite IH; try reflexivity.
  unfold ephemeral_viewable in E2.
  apply Z.ltb_lt in E1. apply Z.gtb_lt in E2. lia.
Qed.

Lemma select_after_sweeps (reader : option uuid) (now : Z) (times : list Z)
    (t : list ephemeral_post) :
  Forall (fun at_ => at_ <= now) times ->
  select_ephemeral reader now (swept times t) = select_ephemeral reader now t.
Proof.
  induction 1 as [|at_ times Hat _ IH]; cbn [swept fold_right];
    [reflexivity|].
  fold (swept times t). now rewrite select_after_cleanup.
Qed.

(** C5: an ephemeral post of the table is among the rows a reader gets
    exactly while now < expires_at (so it is excluded once
    now >= expires_at), whoever the reader is, and whichever sweeps have
    run before: reading the swept table gives the same rows as reading the
    unswept one. *)
Theorem ephemeral_visibility (reader : option uuid) (now : Z)
    (times : list Z) (t : list ephemeral_post) (e : ephemeral_post) :
  In e t ->
  Forall (fun at_ => at_ <= now) times ->
  (now < e_expires_at e -> In e (select_ephemeral reader now (swept times t))) /\
  (e_expires_at e <= now ->
   ~ In e (select_ephemeral reader now (swept times t))) /\
  select_ephemeral reader now (swept times t) = select_ephemeral reader now t.
Proof.
  intros He Ht. rewrite (select_after_sweeps reader now times t Ht).
  unfold select_ephemeral. repeat split.
  - intros Hlt. apply filter_In. split; [exact He|].
    unfold ephemeral_viewable. apply Z.gtb_lt. lia.
  - intros Hge Hin. apply filter_In in Hin as [_ Hv].
    unfold ephemeral_viewable in Hv. apply Z.gtb_lt in Hv. lia.
Qed.

Lemma ephemeral_visibility_witness :
  let e := {| e_id := 5%N; e_creator_id := 1%N; e_duration_hours := 6;
              e_expires_at := 21600000000; e_created_at := 0 |} in
  In e (select_ephemeral (Some 2%N) 21599999999
          (swept [900000000; 1800000000] [e])) /\
  ~ In e (select_ephemeral (Some 2%N) 21600000000
            (swept [900000000; 1800000000] [e])).
Proof.
  intros e. split.
  - apply (ephemeral_visibility (Some 2%N) 21599999999
             [900000000; 1800000000] [e] e).
    + left. reflexivity.
    + repeat constructor; lia.
    + cbn. lia.
  - apply (ephemeral_visibility (Some 2%N) 21600000000
             [900000000; 1800000000] [e] e).
    + left. reflexivity.
    + repeat constructor; lia.
    + cbn. lia.
Defined.

(* ================================================================= *)
(** ** Messages are read by current participants only *)

Lemma messages_policy_iff (u : uuid)
    (participants : list conversation_participant) (m : message) :
  messages_select_policy (Some u) participants m = true <->
  exists cp, In cp participants /\
             cp_conversation_id cp = m_conversation_id m /\
             cp_user_id cp = u /\ cp_left_at cp = None.
Proof.
  unfold messages_select_policy. rewrite existsb_exists.
  split; intros (cp & Hin & H); exists cp; (split; [exact Hin|]).
  - apply andb_prop in H as [H H3]. apply andb_prop in H as [H1 H2].
    apply uuid_eqb_eq in H1. cbn in H2. apply uuid_eqb_eq in H2.
    destruct (cp_left_at cp); [discriminate|]. auto.
  - destruct H as (H1 & H2 & H3). rewrite H1, H2, H3. cbn.
    now rewrite !uuid_eqb_refl.
Qed.



(* ================================================================= *)
(** ** Creation of a sticker pack *)

Lemma handleSubmit_created (user : option uuid) (form : pack_form)
    (new_id : uuid) (d d' : db) (row : sticker_pack) :
  handleSubmit user form new_id d = pack_created row d' ->
  exists u stored_price,
    user = Some u /\
    numeric_of_js (js_or_zero (parseFloat (price form))) = Ok stored_price /\
    row = {| sp_id := new_id; sp_creator_id := u;
             sp_name := trim (packName form); sp_price := stored_price;
             sp_is_public := isPublic form;
             sp_is_approved := (price form =? "0")%string |} /\
    insert_sticker_pack row d = Ok d'.
Proof.
  unfold handleSubmit. destruct user as [u|]; [|discriminate].
  destruct (_ =? _)%string; [discriminate|].
  destruct (Nat.eqb _ _); [discriminate|].
  destruct (Nat.ltb _ _); [discriminate|].
  destruct (cover_upload_failed form); [discriminate|].
  destruct (numeric_of_js _) as [sp|e]; [|discriminate].
  destruct (insert_sticker_pack _ d) as [d1|e] eqn:E; [|discriminate].
  intros H. inversion H; subst. eauto 8.
Qed.

(** What does hold of every created pack: it is approved exactly when the
    price field is the text "0", and then its stored price is 0; so a pack
    stored with a positive price is never approved, nor publicly
    listable. *)
Lemma created_pack_approval (user : option uuid) (form : pack_form)
    (new_id : uuid) (d d' : db) (row : sticker_pack) :
  handleSubmit user form new_id d = pack_created row d' ->
  sp_is_approved row = (price form =? "0")%string /\
  (sp_is_approved row = true -> sp_price row = Some 0) /\
  (forall h, sp_price row = Some h -> 0 < h ->
             sp_is_approved row = false /\ publicly_listable row = false).
Proof.
  intros H. apply handleSubmit_created in H
    as (u & sp & _ & Hp & -> & _). cbn.
  assert (Hz : (price form =? "0")%string = true -> sp = Some 0).
  { intros E. apply String.eqb_eq in E. rewrite E in Hp.
    cbv in Hp. now inversion Hp. }
  split; [reflexivity|]. split; [exact Hz|].
  intros h Hh Hpos. unfold publicly_listable. cbn.
  destruct (price form =? "0")%string.
  - specialize (Hz eq_refl). assert (h = 0) by congruence. lia.
  - now rewrite andb_false_r.
Qed.

(** C7, at the failing inputs: the price field reading "0.00", or left
    empty, creates a pack whose stored price is 0 and which is not
    approved, hence not publicly listable although it is public. *)
Theorem free_pack_not_auto_approved :
  (exists row d',
     handleSubmit (Some 1%N) typed_0_00 50%N two_users = pack_created row d' /\
     sp_price row = Some 0 /\ sp_is_public row = true /\
     sp_is_approved row = false /\ publicly_listable row = false) /\
  (exists row d',
     handleSubmit (Some 1%N) cleared_price 50%N two_users
       = pack_created row d' /\
     sp_price row = Some 0 /\ sp_is_public row = true /\
     sp_is_approved row = false /\ publicly_listable row = false).
Proof.
  split; do 2 eexists; (split; [reflexivity|]); repeat split.
Qed.

(* ================================================================= *)
(** ** Purchases *)

Lemma pack_exists_In (k : sticker_pack) (d : db) :
  In k (sticker_packs d) -> pack_exists (sp_id k) d = true.
Proof.
  intros H. unfold pack_exists. apply existsb_exists.
  exists k. split; [exact H | apply uuid_eqb_refl].
Qed.

Lemma pack_by_id (t : list sticker_pack) (k k' : sticker_pack) :
  NoDup (map sp_id t) -> In k t -> In k' t -> sp_id k' = sp_id k -> k' = k.
Proof.
  induction t as [|x t IH]; intros Hnd Hk Hk' Hid; [destruct Hk|].
  cbn in Hnd. inversion Hnd as [|? ? Hx Hnd']; subst.
  destruct Hk as [->|Hk], Hk' as [->|Hk']; auto.
  - exfalso. apply Hx. rewrite <- Hid. now apply in_map.
  - exfalso. apply Hx. rewrite Hid. now apply in_map.
Qed.

Lemma has_id_filter (t : list sticker_pack) (f : sticker_pack -> bool)
    (k : sticker_pack) :
  NoDup (map sp_id t) -> In k t ->
  existsb (uuid_eqb (sp_id k)) (map sp_id (filter f t)) = f k.
Proof.
  intros Hnd Hk. apply eq_true_iff_eq. rewrite existsb_exists. split.
  - intros (i & Hi & Heq). apply uuid_eqb_eq in Heq. subst i.
    apply in_map_iff in Hi as (k' & Hid & Hk').
    apply filter_In in Hk' as (Hk' & Hf).
    now rewrite <- (pack_by_id t k k' Hnd Hk Hk' Hid).
  - intros Hf. exists (sp_id k). split; [|apply uuid_eqb_refl].
    apply in_map, filter_In. now split.
Qed.

Lemma owned_flag_spec (u : uuid) (d : db) (k : sticker_pack) :
  NoDup (map sp_id (sticker_packs d)) -> In k (sticker_packs d) ->
  owned_flag u d k =
  has_purchase u (sp_id k) d || uuid_eqb (sp_creator_id k) u.
Proof.
  intros Hnd Hk. unfold owned_flag, ownedPacks, myPacks.
  now rewrite !has_id_filter.
Qed.

Lemma price_is_zero_iff (p : sql_numeric) :
  price_is_zero p = true <-> p = Some 0.
Proof.
  destruct p as [[| |]|]; cbn; split; intros H;
    try reflexivity; try discriminate.
Qed.

Lemma free_claim (u : uuid) (k : sticker_pack) (d : db) :
  profile_exists u d = true -> In k (sticker_packs d) ->
  insert_user_purchase (free_purchase u k) d =
  Ok (set_user_purchases (free_purchase u k :: user_purchases d) d).
Proof.
  intros Hu Hk. unfold insert_user_purchase. cbn [free_purchase up_user_id
    up_pack_id]. now rewrite Hu, (pack_exists_In k d Hk).
Qed.

(** C8 (amended): for an identity and a pack of the store, once the
    identity has made its request the store holds the pack as owned if and
    only if the price is 0, or a Purchase record of the pair exists, or the
    identity is the creator of the pack.  The request for a free pack that
    is not yet owned inserts a zero-amount Purchase record with the payment
    id "free_download" and makes no checkout request; the request for a
    paid pack inserts nothing (for a pack not yet owned it issues the
    checkout request with the pack and the identity), so a paid pack of
    another creator is not owned until a Purchase record exists. *)
Theorem sticker_pack_access (u : uuid) (k : sticker_pack) (d : db) :
  profile_exists u d = true ->
  In k (sticker_packs d) ->
  NoDup (map sp_id (sticker_packs d)) ->
  let after := handlePurchase (Some u) (view_of u d k) d in
  (owned_flag u (fst after) k = true <->
   sp_price k = Some 0 \/ has_purchase u (sp_id k) d = true \/
   sp_creator_id k = u) /\
  (sp_price k = Some 0 -> owned_flag u d k = false ->
   after =
     (set_user_purchases (free_purchase u k :: user_purchases d) d,
      free_pack_added)) /\
  (sp_price k <> Some 0 ->
   fst after = d /\
   (owned_flag u d k = false ->
    snd after = checkout (sp_id k) u /\
    has_purchase u (sp_id k) d = false /\ sp_creator_id k <> u)).
Proof.
  intros Hu Hk Hnd after.
  pose proof (owned_flag_spec u d k Hnd Hk) as Hown.
  subst after. unfold handlePurchase, view_of. cbn [is_owned pack].
  destruct (owned_flag u d k) eqn:Eo.
  - (* already owned *)
    cbn [fst snd]. rewrite Eo.
    symmetry in Hown. apply orb_prop in Hown.
    repeat split; try discriminate; auto.
    intros _. destruct Hown as [H|H]; [auto|].
    apply uuid_eqb_eq in H. auto.
  - symmetry in Hown. apply orb_false_elim in Hown as (Hp & Hc).
    apply uuid_eqb_neq in Hc.
    destruct (price_is_zero (sp_price k)) eqn:Ez.
    + (* free, first request *)
      apply price_is_zero_iff in Ez.
      rewrite (free_claim u k d Hu Hk). cbn [fst snd].
      repeat split; try congruence; auto.
      intros _. rewrite owned_flag_spec; [|exact Hnd|exact Hk].
      unfold has_purchase. cbn. now rewrite !uuid_eqb_refl.
    + (* paid, not owned *)
      cbn [fst snd]. rewrite Eo.
      assert (Hnz : sp_price k <> Some 0)
        by (intros E; apply price_is_zero_iff in E; congruence).
      repeat split; try congruence; auto.
      intros [H|[H|H]]; congruence.
Qed.

Lemma sticker_pack_access_witness :
  (* bob and the free pack: granted on the first request *)
  handlePurchase (Some 2%N) (view_of 2%N store_db free_dogs) store_db =
    (set_user_purchases [free_purchase 2%N free_dogs] store_db,
     free_pack_added) /\
  (* bob and the paid pack: checkout, no record, not owned *)
  fst (handlePurchase (Some 2%N) (view_of 2%N store_db paid_cats) store_db)
    = store_db /\
  snd (handlePurchase (Some 2%N) (view_of 2%N store_db paid_cats) store_db)
    = checkout 50%N 2%N.
Proof.
  assert (Hnd : NoDup (map sp_id (sticker_packs store_db))).
  { cbn. repeat constructor; cbn; intuition discriminate. }
  split; [|split].
  - apply (sticker_pack_access 2%N free_dogs store_db eq_refl
             (or_introl eq_refl) Hnd); reflexivity.
  - apply (sticker_pack_access 2%N paid_cats store_db eq_refl
             (or_intror (or_introl eq_refl)) Hnd). discriminate.
  - apply (sticker_pack_access 2%N paid_cats store_db eq_refl
             (or_intror (or_introl eq_refl)) Hnd);
      [discriminate | reflexivity].
Defined.

(** C8, as stated, fails for the creator of a paid pack: the store holds
    the pack as owned although its price is not 0 and no Purchase record
    of the pair exists. *)
Lemma creator_owns_paid_pack_without_purchase :
  owned_flag 1%N store_db paid_cats = true /\
  sp_price paid_cats = Some 500 /\
  has_purchase 1%N (sp_id paid_cats) store_db = false /\
  handlePurchase (Some 1%N) (view_of 1%N store_db paid_cats) store_db
    = (store_db, already_owned).
Proof. repeat split. Qed.

(** C10: the purchase table rejects no repetition.  Two zero-amount
    claims of the same free pack by the same identity, the second made on
    a view that does not yet show the pack as owned, both go through and
    leave two Purchase rows of the pair; no insertion into the table ever
    raises a uniqueness violation. *)
Theorem free_claim_repeats (u : uuid) (k : sticker_pack) (d : db) :
  profile_exists u d = true ->
  In k (sticker_packs d) ->
  sp_price k = Some 0 ->
  let stale := {| pack := k; is_owned := false |} in
  let pair := fun r => uuid_eqb (up_user_id r) u &&
                       uuid_eqb (up_pack_id r) (sp_id k) in
  exists d1 d2,
    handlePurchase (Some u) stale d = (d1, free_pack_added) /\
    handlePurchase (Some u) stale d1 = (d2, free_pack_added) /\
    user_purchases d2 =
      free_purchase u k :: free_purchase u k :: user_purchases d /\
    count pair (user_purchases d2) = count pair (user_purchases d) + 2 /\
    (forall NEW d0, insert_user_purchase NEW d0 <> Err unique_violation).
Proof.
  intros Hu Hk Hz stale pair.
  set (d1 := set_user_purchases (free_purchase u k :: user_purchases d) d).
  set (d2 := set_user_purchases (free_purchase u k :: user_purchases d1) d1).
  exists d1, d2. unfold handlePurchase, stale. cbn [is_owned pack].
  rewrite Hz. cbn [price_is_zero].
  rewrite (free_claim u k d Hu Hk).
  rewrite (free_claim u k d1 Hu Hk). fold d1 d2.
  repeat split.
  - cbn [d2 d1 user_purchases set_user_purchases]. rewrite !count_cons.
    unfold pair. cbn [free_purchase up_user_id up_pack_id].
    rewrite !uuid_eqb_refl. cbn [andb]. lia.
  - intros NEW d0. unfold insert_user_purchase.
    destruct (negb _); discriminate.
Qed.

Lemma free_claim_repeats_witness :
  exists d1 d2,
    handlePurchase (Some 2%N) {| pack := free_dogs; is_owned := false |}
      store_db = (d1, free_pack_added) /\
    handlePurchase (Some 2%N) {| pack := free_dogs; is_owned := false |}
      d1 = (d2, free_pack_added) /\
    user_purchases d2 =
      [free_purchase 2%N free_dogs; free_purchase 2%N free_dogs].
Proof.
  destruct (free_claim_repeats 2%N free_dogs store_db eq_refl
              (or_introl eq_refl) eq_refl)
    as (d1 & d2 & H1 & H2 & H3 & _).
  exists d1, d2. repeat split; assumption.
Defined.

(* ================================================================= *)
(** * Further properties of the schema and of the client code *)

(* ================================================================= *)
(** ** Triggers touch counters and scores only *)

Lemma posts_column_cases (cname : string) (c : int_column post) :
  posts_column cname = Some c ->
  c = {| col_get := likes_count; col_set := set_likes_count |} \/
  c = {| col_get := comments_count; col_set := set_comments_count |} \/
  c = {| col_get := shares_count; col_set := set_shares_count |} \/
  c = {| col_get := saves_count; col_set := set_saves_count |}.
Proof.
  unfold posts_column. intros H.
  destruct (cname =? "likes_count")%string; [inversion H; auto|].
  destruct (cname =? "comments_count")%string; [inversion H; auto|].
  destruct (cname =? "shares_count")%string; [inversion H; auto|].
  destruct (cname =? "saves_count")%string; [inversion H; auto 6|].
  discriminate.
Qed.

Lemma UPDATE_map_eq {R X : Type} (cond : R -> bool) (set : R -> result R)
    (f : R -> X) (t t' : list R) :
  UPDATE cond set t = Ok t' ->
  (forall r r', set r = Ok r' -> f r' = f r) ->
  map f t' = map f t.
Proof.
  intros H Hf. apply UPDATE_Forall2 in H.
  eapply Forall2_map_eq; [exact H|].
  intros r r' Hr. cbv beta in Hr. destruct (cond r); [auto | now subst].
Qed.

Lemma frame_refl (d : db) : frame d d.
Proof. repeat split. Qed.

Lemma frame_trans (d1 d2 d3 : db) : frame d1 d2 -> frame d2 d3 -> frame d1 d3.
Proof.
  unfold frame.
  intros (A1 & A2 & A3 & A4 & A5 & A6 & A7 & A8 & A9 & A10)
         (B1 & B2 & B3 & B4 & B5 & B6 & B7 & B8 & B9 & B10).
  repeat split; congruence.
Qed.

Lemma update_counter_frame (expr : sql_int -> result sql_int)
    (table_name column_name : string) (row_id : uuid) (d d' : db) :
  update_counter expr table_name column_name row_id d = Ok d' -> frame d d'.
Proof.
  unfold update_counter. intros H.
  destruct (table_name =? "profiles")%string.
  - destruct (profiles_column column_name) as [c|] eqn:Ec; [|discriminate].
    bind_inv H. inversion H; subst d'; clear H.
    unfold frame. cbn. repeat split.
    eapply UPDATE_map_eq; [exact Hx|].
    intros r r' Hr. bind_inv Hr. inversion Hr; subst r'.
    destruct (profiles_column_cases _ _ Ec) as [->|[->| ->]]; reflexivity.
  - destruct (table_name =? "posts")%string; [|discriminate].
    destruct (posts_column column_name) as [c|] eqn:Ec; [|discriminate].
    bind_inv H. inversion H; subst d'; clear H.
    unfold frame. cbn. repeat split.
    + eapply UPDATE_map_eq; [exact Hx|].
      intros r r' Hr. bind_inv Hr. inversion Hr; subst r'.
      destruct (posts_column_cases _ _ Ec) as [->|[->|[->| ->]]]; reflexivity.
    + eapply UPDATE_map_eq; [exact Hx|].
      intros r r' Hr. bind_inv Hr. inversion Hr; subst r'.
      destruct (posts_column_cases _ _ Ec) as [->|[->|[->| ->]]]; reflexivity.
Qed.

Lemma score_only_frame (d d' : db) : score_only d d' -> frame d d'.
Proof.
  intros H. destruct (score_only_tables _ _ H)
    as (A1 & A2 & A3 & A4 & A5 & A6 & A7 & A8 & A9 & A10).
  unfold frame. rewrite A1. repeat split; assumption.
Qed.

Lemma follow_trigger_frame (op : tg_op) (e : follow) (d d' : db) :
  update_follow_counts op e d = Ok d' -> frame d d'.
Proof.
  destruct op; cbn [update_follow_counts]; intros H.
  - bind_inv H. eapply frame_trans; eapply update_counter_frame; eassumption.
  - bind_inv H. eapply frame_trans; eapply update_counter_frame; eassumption.
  - inversion H. apply frame_refl.
Qed.

Lemma post_trigger_frame (op : tg_op) (q : post) (d d' : db) :
  update_post_count op q d = Ok d' -> frame d d'.
Proof.
  destruct op; cbn [update_post_count]; intros H.
  - eapply update_counter_frame; eassumption.
  - eapply update_counter_frame; eassumption.
  - inversion H. apply frame_refl.
Qed.

Lemma rows_frame {R : Type} (f : R -> db -> result db) (rows : list R)
    (d d' : db) :
  (forall r x x', f r x = Ok x' -> frame x x') ->
  for_each_row f rows d = Ok d' -> frame d d'.
Proof.
  intros Hf. revert d. induction rows as [|r rows IH];
    cbn [for_each_row]; intros d H.
  - inversion H. apply frame_refl.
  - bind_inv H. eapply frame_trans; [eapply Hf; exact Hx | now apply IH].
Qed.

Lemma engagement_rows_frame {R : Type} (g : R -> uuid) (op : tg_op)
    (rows : list R) (d d' : db) :
  for_each_row (fun x => update_engagement_score op (g x)) rows d = Ok d' ->
  frame d d'.
Proof.
  intros H. apply score_only_frame.
  eapply engagement_rows_score_only; exact H.
Qed.

Lemma integrity_frame (d d' : db) : frame d d' -> integrity d -> integrity d'.
Proof.
  unfold frame, integrity.
  intros (A1 & A2 & A3 & A4 & A5 & A6 & _).
  now rewrite A1, A2, A3, A4, A5, A6.
Qed.

(* ================================================================= *)
(** ** Deleting a comment takes its replies, and only them *)

Lemma cascade_ids (root : comment -> bool) (t : list comment) (i : uuid) :
  In i (cascade_delete root t) -> In i (map c_id t).
Proof.
  induction t as [|c older IH]; cbn [cascade_delete map]; [auto|].
  destruct (root c || _); intros H.
  - destruct H as [<-|H]; [now left | right; auto].
  - right; auto.
Qed.

Lemma cascade_older (root : comment -> bool) (c : comment)
    (older : list comment) (i : uuid) :
  In i (cascade_delete root older) -> In i (cascade_delete root (c :: older)).
Proof.
  cbn [cascade_delete]. destruct (root c || _); [now right | auto].
Qed.

Lemma is_gone_In (gone : list uuid) (c : comment) :
  is_gone gone c = true <-> In (c_id c) gone.
Proof.
  unfold is_gone. rewrite existsb_exists. split.
  - intros (i & Hi & He). apply uuid_eqb_eq in He. now subst.
  - intros H. exists (c_id c). split; [exact H | apply uuid_eqb_refl].
Qed.

Lemma existsb_uuid_In (q : uuid) (l : list uuid) :
  existsb (uuid_eqb q) l = true <-> In q l.
Proof.
  rewrite existsb_exists. split.
  - intros (i & Hi & He). apply uuid_eqb_eq in He. now subst.
  - intros H. exists q. split; [exact H | apply uuid_eqb_refl].
Qed.

Lemma comments_wf_parent (t : list comment) (c : comment) (q : uuid) :
  comments_wf t -> In c t -> c_parent_id c = Some q -> In q (map c_id t).
Proof.
  induction t as [|c0 older IH]; intros Hwf Hc Hq; [destruct Hc|].
  destruct Hwf as (_ & Hp & Hwf). cbn [map]. right.
  destruct Hc as [->|Hc]; [now apply Hp | now apply IH].
Qed.

(** A kept comment was not selected and its parent is kept as well. *)
Lemma cascade_closed (root : comment -> bool) (t : list comment)
    (c : comment) :
  comments_wf t -> In c t ->
  ~ In (c_id c) (cascade_delete root t) ->
  root c = false /\
  forall q, c_parent_id c = Some q -> ~ In q (cascade_delete root t).
Proof.
  induction t as [|c0 older IH]; intros Hwf Hc Hkept; [destruct Hc|].
  destruct Hwf as (Hfresh & Hp & Hwf). cbn [cascade_delete] in *.
  destruct Hc as [->|Hc].
  - destruct (root c) eqn:Er; cbn [orb] in *;
      [exfalso; apply Hkept; now left|].
    split; [reflexivity|]. intros q Hq. rewrite Hq in Hkept |- *.
    destruct (existsb (uuid_eqb q) (cascade_delete root older)) eqn:E.
    + exfalso. apply Hkept. now left.
    + intros Hin. apply existsb_uuid_In in Hin. congruence.
  - assert (Hk : ~ In (c_id c) (cascade_delete root older)).
    { intros H. apply Hkept. destruct (root c0 || _); [now right | auto]. }
    destruct (IH Hwf Hc Hk) as (Hr & Hpar). split; [exact Hr|].
    intros q Hq. specialize (Hpar q Hq).
    destruct (root c0 || _); [|exact Hpar].
    intros [Heq|Hin]; [|auto].
    apply Hfresh. rewrite Heq.
    eapply comments_wf_parent; eassumption.
Qed.

(** A removed comment was selected, or is a reply to a removed one. *)
Lemma cascade_reason (root : comment -> bool) (t : list comment) (i : uuid) :
  In i (cascade_delete root t) ->
  exists c, In c t /\ c_id c = i /\
            (root c = true \/
             exists q, c_parent_id c = Some q /\
                       In q (cascade_delete root t)).
Proof.
  induction t as [|c0 older IH]; cbn [cascade_delete]; [intros []|].
  destruct (root c0) eqn:Er; cbn [orb].
  - intros [<-|H].
    + exists c0. split; [now left|]. auto.
    + destruct (IH H) as (c & Hc & Hi & [Hr|(q & Hq & Hg)]);
        exists c; (split; [now right|]); split; auto.
      right. exists q. split; [exact Hq | now right].
  - destruct (c_parent_id c0) as [q0|] eqn:Ep.
    + destruct (existsb (uuid_eqb q0) (cascade_delete root older)) eqn:E.
      * intros [<-|H].
        -- exists c0. split; [now left|]. split; [reflexivity|].
           right. exists q0. split; [exact Ep|].
           right. now apply existsb_uuid_In.
        -- destruct (IH H) as (c & Hc & Hi & [Hr|(q & Hq & Hg)]);
             exists c; (split; [now right|]); split; auto.
           right. exists q. split; [exact Hq | now right].
      * intros H.
        destruct (IH H) as (c & Hc & Hi & [Hr|(q & Hq & Hg)]);
          exists c; (split; [now right|]); split; auto.
        right. exists q. split; [exact Hq | exact Hg].
    + intros H.
      destruct (IH H) as (c & Hc & Hi & [Hr|(q & Hq & Hg)]);
        exists c; (split; [now right|]); split; auto.
      right. exists q. split; [exact Hq | exact Hg].
Qed.

Lemma comments_wf_unique (t : list comment) (c c' : comment) :
  comments_wf t -> In c t -> In c' t -> c_id c' = c_id c -> c' = c.
Proof.
  induction t as [|c0 older IH]; intros Hwf Hc Hc' Hid; [destruct Hc|].
  destruct Hwf as (Hfresh & _ & Hwf).
  destruct Hc as [->|Hc], Hc' as [->|Hc']; auto.
  - exfalso. apply Hfresh. rewrite <- Hid. now apply in_map.
  - exfalso. apply Hfresh. rewrite Hid. now apply in_map.
Qed.

Lemma comments_wf_filter (gone : list uuid) (t : list comment) :
  comments_wf t ->
  (forall c q, In c t -> ~ In (c_id c) gone -> c_parent_id c = Some q ->
               ~ In q gone) ->
  comments_wf (filter (fun r => negb (is_gone gone r)) t).
Proof.
  induction t as [|c0 older IH]; intros Hwf Hcl; [exact I|].
  destruct Hwf as (Hfresh & Hp & Hwf). cbn [filter].
  assert (IH' : comments_wf (filter (fun r => negb (is_gone gone r)) older)).
  { apply IH; [exact Hwf|]. intros c q Hc. apply Hcl. now right. }
  destruct (is_gone gone c0) eqn:Eg; cbn [negb]; [exact IH'|].
  cbn [comments_wf]. split; [|split; [|exact IH']].
  - intros Hin. apply Hfresh. apply in_map_iff in Hin as (c & Hid & Hc).
    apply filter_In in Hc as (Hc & _). apply in_map_iff. eauto.
  - intros q Hq. specialize (Hp q Hq).
    apply in_map_iff in Hp as (c & Hid & Hc).
    apply in_map_iff. exists c. split; [exact Hid|].
    apply filter_In. split; [exact Hc|].
    destruct (is_gone gone c) eqn:Ec; [|reflexivity]. exfalso.
    apply is_gone_In in Ec. rewrite Hid in Ec.
    refine (Hcl c0 q (or_introl eq_refl) _ Hq Ec).
    intros H. apply is_gone_In in H. congruence.
Qed.

(* ================================================================= *)
(** ** Keys and references hold in every reachable state *)

Lemma post_exists_In (p : uuid) (d : db) :
  post_exists p d = true <-> In p (map p_id (posts d)).
Proof.
  unfold post_exists. rewrite existsb_exists, in_map_iff.
  split; intros (r & H1 & H2).
  - exists r. split; [now apply uuid_eqb_eq | assumption].
  - exists r. split; [assumption | now apply uuid_eqb_eq].
Qed.

Lemma comment_exists_In (c : uuid) (d : db) :
  comment_exists c d = true <-> In c (map c_id (comments d)).
Proof.
  unfold comment_exists. rewrite existsb_exists, in_map_iff.
  split; intros (r & H1 & H2).
  - exists r. split; [now apply uuid_eqb_eq | assumption].
  - exists r. split; [assumption | now apply uuid_eqb_eq].
Qed.

Lemma existsb_false_not_In {R : Type} (same : R -> R -> bool) (x : R)
    (t : list R) :
  same x x = true -> existsb (same x) t = false -> ~ In x t.
Proof.
  intros Hrefl H Hin.
  assert (existsb (same x) t = true) by (apply existsb_exists; eauto).
  congruence.
Qed.

Lemma NoDup_map_filter {R X : Type} (f : R -> X) (g : R -> bool)
    (t : list R) :
  NoDup (map f t) -> NoDup (map f (filter g t)).
Proof.
  induction t as [|r t IH]; cbn [map filter]; intros H; [constructor|].
  inversion H as [|? ? Hr Ht]; subst.
  destruct (g r); cbn [map]; [|auto].
  constructor; [|auto]. intros Hin. apply Hr.
  apply in_map_iff in Hin as (r' & Hf & Hr').
  apply filter_In in Hr' as (Hr' & _). apply in_map_iff. eauto.
Qed.

Lemma In_map_filter {R X : Type} (f : R -> X) (g : R -> bool)
    (t : list R) (x : X) :
  In x (map f t) -> (forall r, In r t -> f r = x -> g r = true) ->
  In x (map f (filter g t)).
Proof.
  intros Hin Hg. apply in_map_iff in Hin as (r & Hf & Hr).
  apply in_map_iff. exists r. split; [exact Hf|].
  apply filter_In. split; [exact Hr | now apply Hg].
Qed.

Lemma integrity_after_comment_cascade (root : comment -> bool) (d : db)
    (Po : list post) (L : list post_like) :
  integrity d ->
  NoDup (map p_id Po) ->
  Forall (fun u => In u (map id (profiles d))) (map creator_id Po) ->
  NoDup L ->
  Forall (fun l => In (pl_post_id l) (map p_id Po) /\
                   In (pl_user_id l) (map id (profiles d))) L ->
  (forall c, In c (comments d) -> root c = false ->
             In (c_post_id c) (map p_id Po)) ->
  integrity
    (set_comments
       (filter (fun r => negb (is_gone (cascade_delete root (comments d)) r))
          (comments d))
       (set_post_likes L (set_posts Po d))).
Proof.
  intros (I1 & I2 & I3 & I4 & I5 & I6 & I7 & I8 & I9) HPo HPoc HL HLr Hroot.
  unfold integrity. cbn. repeat split; try assumption.
  - apply comments_wf_filter; [exact I5|].
    intros c q Hc Hk Hq.
    now apply (cascade_closed root (comments d) c I5 Hc Hk).
  - apply Forall_forall. intros c Hc. apply filter_In in Hc as (Hc & Hk).
    rewrite Forall_forall in I9. split; [|now apply I9].
    apply Hroot; [exact Hc|].
    apply (cascade_closed root (comments d) c I5 Hc).
    intros H. apply is_gone_In in H. rewrite H in Hk. discriminate.
Qed.

Lemma step_integrity (o : op) (d d' : db) :
  integrity d -> step o d = Ok d' -> integrity d'.
Proof.
  intros Hd H. pose proof Hd as (I1 & I2 & I3 & I4 & I5 & I6 & I7 & I8 & I9).
  destruct o; cbn [step] in H.
  - (* sign-up *)
    unfold handle_new_user in H. bind_inv H.
    unfold insert_profile in Hx. cbn [id username] in Hx.
    destruct (existsb _ (profiles d)) eqn:E1 in Hx; [discriminate|].
    destruct (existsb _ (profiles d)) eqn:E2 in Hx; [discriminate|].
    inversion Hx; subst x; clear Hx.
    unfold insert_user_role in H.
    destruct (existsb _ _) in H; [discriminate|].
    destruct (negb _) in H; [discriminate|].
    inversion H; subst d'; clear H. unfold integrity. cbn.
    repeat split; try assumption.
    + constructor; [|exact I1]. intros Hin.
      apply profile_exists_In in Hin. unfold profile_exists in Hin.
      congruence.
    + eapply Forall_impl; [|exact I6]. intros u ?. now right.
    + eapply Forall_impl; [|exact I7]. intros e [? ?]. split; now right.
    + eapply Forall_impl; [|exact I8]. intros l [? ?]. split; [auto|now right].
    + eapply Forall_impl; [|exact I9]. intros c [? ?]. split; [auto|now right].
  - (* insert follow *)
    unfold insert_follow in H.
    destruct (existsb (same_follow NEW) (follows d)) eqn:E0; [discriminate|].
    destruct (profile_exists (follower_id NEW) d) eqn:Ea; [|discriminate].
    destruct (profile_exists (following_id NEW) d) eqn:Eb; [|discriminate].
    cbn [negb andb] in H. apply follow_trigger_frame in H.
    apply (integrity_frame _ _ H). unfold integrity. cbn.
    repeat split; try assumption.
    + constructor; [|exact I3].
      apply (existsb_false_not_In same_follow); [apply same_follow_refl|].
      exact E0.
    + constructor; [|exact I7]. split; now apply profile_exists_In.
  - (* delete follow *)
    unfold delete_follow in H.
    apply rows_frame in H; [|intros r x x'; apply follow_trigger_frame].
    apply (integrity_frame _ _ H). unfold integrity. cbn.
    repeat split; try assumption.
    + now apply NoDup_filter.
    + now apply Forall_filter_keep.
  - (* insert post *)
    unfold insert_post in H.
    destruct (post_exists (p_id NEW) d) eqn:E0; [discriminate|].
    destruct (profile_exists (creator_id NEW) d) eqn:Ea; [|discriminate].
    cbn [negb] in H. apply post_trigger_frame in H.
    apply (integrity_frame _ _ H). unfold integrity. cbn.
    repeat split; try assumption.
    + constructor; [|exact I2]. intros Hin. apply post_exists_In in Hin.
      congruence.
    + constructor; [now apply profile_exists_In | exact I6].
    + eapply Forall_impl; [|exact I8]. intros l [? ?]. split; [now right|auto].
    + eapply Forall_impl; [|exact I9]. intros c [? ?]. split; [now right|auto].
  - (* delete post *)
    unfold delete_post in H.
    destruct (filter (fun r => uuid_eqb (p_id r) p) (posts d))
      as [|q0 OLD] eqn:E.
    { inversion H. now subst. }
    bind_inv H. bind_inv H.
    apply engagement_rows_frame in Hx, Hx0.
    apply rows_frame in H; [|intros r y y'; apply post_trigger_frame].
    apply (integrity_frame _ _ H). apply (integrity_frame _ _ Hx0).
    apply (integrity_frame _ _ Hx).
    assert (Hkeep : forall i, In i (map p_id (posts d)) -> i <> p ->
              In i (map p_id (filter (fun r => negb (uuid_eqb (p_id r) p))
                                     (posts d)))).
    { intros i Hi Hne. apply In_map_filter; [exact Hi|].
      intros r _ Hr. apply negb_true_iff, uuid_eqb_neq. congruence. }
    apply integrity_after_comment_cascade; try assumption.
    + now apply NoDup_map_filter.
    + apply Forall_forall. intros u Hu.
      apply in_map_iff in Hu as (q & <- & Hq).
      apply filter_In in Hq as (Hq & _).
      rewrite Forall_forall in I6. apply I6. now apply in_map.
    + now apply NoDup_filter.
    + apply Forall_forall. intros l Hl. apply filter_In in Hl as (Hl & Hne).
      rewrite Forall_forall in I8. destruct (I8 l Hl) as (Hp & Hu).
      split; [|exact Hu]. apply Hkeep; [exact Hp|].
      apply negb_true_iff, uuid_eqb_neq in Hne. exact Hne.
    + intros c Hc Hr. rewrite Forall_forall in I9.
      apply Hkeep; [now apply I9|]. now apply uuid_eqb_neq.
  - (* insert like *)
    unfold insert_like in H.
    destruct (existsb (same_like NEW) (post_likes d)) eqn:E0; [discriminate|].
    destruct (post_exists (pl_post_id NEW) d) eqn:Ea; [|discriminate].
    destruct (profile_exists (pl_user_id NEW) d) eqn:Eb; [|discriminate].
    cbn [negb andb] in H.
    apply engagement_trigger_score_only, score_only_frame in H.
    apply (integrity_frame _ _ H). unfold integrity. cbn.
    repeat split; try assumption.
    + constructor; [|exact I4].
      apply (existsb_false_not_In same_like); [apply same_like_refl|].
      exact E0.
    + constructor; [|exact I8].
      split; [now apply post_exists_In | now apply profile_exists_In].
  - (* delete like *)
    unfold delete_like in H. apply engagement_rows_frame in H.
    apply (integrity_frame _ _ H). unfold integrity. cbn.
    repeat split; try assumption.
    + now apply NoDup_filter.
    + now apply Forall_filter_keep.
  - (* insert comment *)
    unfold insert_comment in H.
    destruct (comment_exists (c_id NEW) d) eqn:E0; [discriminate|].
    destruct (post_exists (c_post_id NEW) d) eqn:Ea; [|discriminate].
    destruct (profile_exists (c_user_id NEW) d) eqn:Eb; [|discriminate].
    cbn [andb] in H.
    destruct (match c_parent_id NEW with
              | Some q => comment_exists q d
              | None => true
              end) eqn:Ec; [|discriminate].
    cbn [negb] in H.
    apply engagement_trigger_score_only, score_only_frame in H.
    apply (integrity_frame _ _ H). unfold integrity. cbn.
    repeat split; try assumption.
    + intros Hin. apply comment_exists_In in Hin. congruence.
    + intros q Hq. rewrite Hq in Ec. now apply comment_exists_In.
    + constructor; [|exact I9].
      split; [now apply post_exists_In | now apply profile_exists_In].
  - (* delete comment *)
    unfold delete_comment in H. apply engagement_rows_frame in H.
    apply (integrity_frame _ _ H).
    assert (HI := integrity_after_comment_cascade
                    (fun r => uuid_eqb (c_id r) c) d (posts d) (post_likes d)
                    Hd I2 I6 I4 I8).
    unfold integrity in HI |- *. cbn in HI |- *. apply HI.
    intros c0 Hc0 _. rewrite Forall_forall in I9. now apply I9.
Qed.

Lemma empty_integrity : integrity empty_db.
Proof. unfold integrity. cbn. repeat split; constructor. Qed.

(** The keys and references of a reachable state, as a hypothesis. *)
Ltac integrity_of Hd HI :=
  match type of Hd with
  | reachable ?d =>
      assert (HI : integrity d)
        by (clear - Hd; induction Hd;
            [apply empty_integrity | eapply step_integrity; eassumption])
  end.



Lemma with_thread_reachable : reachable with_thread.
Proof.
  apply (run_reachable thread_history one_like);
    [exact one_like_reachable | reflexivity].
Qed.

(* ================================================================= *)
(** ** What the deletions remove *)

Lemma delete_comment_rows (c : uuid) (d d' : db) :
  delete_comment c d = Ok d' ->
  comments d' =
    filter (fun r => negb (is_gone
              (cascade_delete (fun r => uuid_eqb (c_id r) c) (comments d)) r))
      (comments d) /\
  post_likes d' = post_likes d /\ follows d' = follows d /\
  map p_id (posts d') = map p_id (posts d) /\
  map id (profiles d') = map id (profiles d).
Proof.
  unfold delete_comment. intros H. apply engagement_rows_frame in H.
  destruct H as (A1 & A2 & A3 & A4 & A5 & A6 & _). cbn in *. auto.
Qed.

(** X3: deleting comment [c] in a reachable state removes exactly the
    thread below it: a comment of the table disappears if and only if it is
    [c] itself or the comment it replies to disappears; the rows that stay
    keep their order, and likes, follow edges, posts and profiles lose no
    row. *)
Theorem delete_comment_removes_thread (c : uuid) (d d' : db) :
  reachable d ->
  delete_comment c d = Ok d' ->
  (forall r, In r (comments d) ->
     (~ In r (comments d') <->
      c_id r = c \/
      exists parent, In parent (comments d) /\
                     c_parent_id r = Some (c_id parent) /\
                     ~ In parent (comments d'))) /\
  (exists keep, comments d' = filter keep (comments d)) /\
  comment_exists c d' = false /\
  post_likes d' = post_likes d /\ follows d' = follows d /\
  map p_id (posts d') = map p_id (posts d) /\
  map id (profiles d') = map id (profiles d).
Proof.
  intros Hd H. integrity_of Hd HI. destruct HI as (_ & _ & _ & _ & Hwf & _).
  destruct (delete_comment_rows c d d' H) as (Hc & HL & HF & HP & HPr).
  set (root := fun r => uuid_eqb (c_id r) c) in *.
  set (gone := cascade_delete root (comments d)) in *.
  assert (Hout : forall r, In r (comments d) ->
                   (~ In r (comments d') <-> In (c_id r) gone)).
  { intros r Hr. rewrite Hc, filter_In, <- is_gone_In.
    destruct (is_gone gone r); cbn; intuition congruence. }
  split; [|split; [|split]].
  - intros r Hr. rewrite (Hout r Hr). split.
    + intros Hg. destruct (cascade_reason root (comments d) _ Hg)
        as (c0 & Hc0 & Hid & Hwhy).
      assert (c0 = r) by (eapply comments_wf_unique; eassumption). subst c0.
      destruct Hwhy as [Hroot|(q & Hq & Hqg)].
      * left. now apply uuid_eqb_eq.
      * right. pose proof (cascade_ids root (comments d) q Hqg) as Hin.
        apply in_map_iff in Hin as (parent & Hpid & Hparent).
        exists parent. split; [exact Hparent|]. split; [congruence|].
        apply (Hout parent Hparent). now rewrite Hpid.
    + intros [Hroot|(parent & Hparent & Hq & Hpg)].
      * apply (cascade_root root (comments d) r Hr).
        now apply uuid_eqb_eq.
      * apply (Hout parent Hparent) in Hpg.
        destruct (is_gone gone r) eqn:Eg; [now apply is_gone_In|].
        exfalso.
        apply (cascade_closed root (comments d) r Hwf Hr) with (q := c_id parent);
          [|exact Hq|exact Hpg].
        intros Hg. apply is_gone_In in Hg. fold gone in Hg. congruence.
  - eexists. exact Hc.
  - destruct (comment_exists c d') eqn:E; [|reflexivity]. exfalso.
    apply comment_exists_In in E. apply in_map_iff in E as (r & Hid & Hr).
    rewrite Hc in Hr. apply filter_In in Hr as (Hr & Hk).
    assert (Hg : In (c_id r) gone)
      by (apply (cascade_root root (comments d) r Hr); now apply uuid_eqb_eq).
    apply is_gone_In in Hg. fold gone in Hk. rewrite Hg in Hk. discriminate.
  - auto.
Qed.

Lemma delete_comment_removes_thread_witness :
  exists d',
    delete_comment 9%N with_thread = Ok d' /\
    map c_id (comments with_thread) = [12; 11; 10; 9]%N /\
    map c_id (comments d') = [11%N] /\
    post_likes d' = post_likes with_thread.
Proof.
  eexists. split; [reflexivity|].
  destruct (delete_comment_removes_thread 9%N with_thread _
              with_thread_reachable eq_refl) as (_ & _ & _ & HL & _).
  split; [reflexivity|]. split; [reflexivity|]. exact HL.
Defined.

Lemma filter_by_key {R : Type} (key : R -> uuid) (k : uuid) (t : list R)
    (r : R) :
  NoDup (map key t) ->
  find (fun x => uuid_eqb (key x) k) t = Some r ->
  filter (fun x => uuid_eqb (key x) k) t = [r].
Proof.
  induction t as [|x t IH]; cbn [map find filter]; intros Hnd H;
    [discriminate|].
  inversion Hnd as [|? ? Hx Hnd']; subst.
  destruct (uuid_eqb (key x) k) eqn:E.
  - inversion H; subst x. f_equal.
    destruct (filter (fun x => uuid_eqb (key x) k) t) as [|y l] eqn:Ef;
      [reflexivity|].
    exfalso. assert (Hy : In y (filter (fun x => uuid_eqb (key x) k) t))
      by (rewrite Ef; now left).
    apply filter_In in Hy as (Hy & Hk).
    apply uuid_eqb_eq in E, Hk. apply Hx. rewrite E, <- Hk. now apply in_map.
  - now apply IH.
Qed.



(* ================================================================= *)
(** ** The counter functions, on any table and column *)

Lemma profiles_column_laws (cname : string) (c : int_column profile) :
  profiles_column cname = Some c -> column_laws id c.
Proof.
  intros H. destruct (profiles_column_cases _ _ H) as [->|[->| ->]];
    repeat split; cbn; intros; try reflexivity;
    match goal with |- _ = ?r => now destruct r end.
Qed.

Lemma posts_column_laws (cname : string) (c : int_column post) :
  posts_column cname = Some c -> column_laws p_id c.
Proof.
  intros H. destruct (posts_column_cases _ _ H) as [->|[->|[->| ->]]];
    repeat split; cbn; intros; try reflexivity;
    match goal with |- _ = ?r => now destruct r end.
Qed.

Section Column.

Variable R : Type.
Variable key : R -> uuid.
Variable c : int_column R.
Hypothesis laws : column_laws key c.
Variable expr : sql_int -> result sql_int.
Variable i : uuid.

Lemma cells_written (P : sql_int -> Prop) (t t' : list R) :
  (forall x v, expr x = Ok v -> P v) ->
  UPDATE (fun r => uuid_eqb (key r) i)
    (fun r => v <- expr (col_get c r) ;; Ok (col_set c v r)) t = Ok t' ->
  Forall P (map (col_get c) (filter (fun r => uuid_eqb (key r) i) t')).
Proof.
  destruct laws as (L1 & _ & _ & L4).
  intros HP H. apply UPDATE_Forall2 in H.
  induction H as [|r r' t t' Hr _ IH]; cbn [filter map]; [constructor|].
  cbv beta in Hr. destruct (uuid_eqb (key r) i) eqn:E.
  - bind_inv Hr. inversion Hr; subst r'.
    rewrite L4, E. cbn [map]. constructor; [|exact IH].
    rewrite L1. eapply HP; eassumption.
  - subst r'. rewrite E. exact IH.
Qed.

Lemma cells_elsewhere (j : uuid) (t t' : list R) :
  j <> i ->
  UPDATE (fun r => uuid_eqb (key r) i)
    (fun r => v <- expr (col_get c r) ;; Ok (col_set c v r)) t = Ok t' ->
  map (col_get c) (filter (fun r => uuid_eqb (key r) j) t') =
  map (col_get c) (filter (fun r => uuid_eqb (key r) j) t).
Proof.
  destruct laws as (_ & _ & _ & L4).
  intros Hj H. apply UPDATE_Forall2 in H.
  induction H as [|r r' t t' Hr _ IH]; cbn [filter map]; [reflexivity|].
  cbv beta in Hr. destruct (uuid_eqb (key r) i) eqn:E.
  - bind_inv Hr. inversion Hr; subst r'.
    rewrite L4. apply uuid_eqb_eq in E.
    assert (Ej : uuid_eqb (key r) j = false)
      by (apply uuid_eqb_neq; congruence).
    rewrite Ej. exact IH.
  - subst r'. destruct (uuid_eqb (key r) j); cbn [map]; now rewrite IH.
Qed.

End Column.

Lemma UPDATE_undo {R : Type} (cond : R -> bool) (f g : R -> result R)
    (t t' : list R) :
  UPDATE cond f t = Ok t' ->
  (forall r r', In r t -> cond r = true -> f r = Ok r' ->
                cond r' = true /\ g r' = Ok r) ->
  UPDATE cond g t' = Ok t.
Proof.
  revert t'. induction t as [|r t IH]; cbn [UPDATE]; intros t' H Hfg.
  - inversion H. reflexivity.
  - bind_inv H. bind_inv H. inversion H; subst t'; clear H. cbn [UPDATE].
    rewrite (IH x0 Hx0); [|intros; apply Hfg; auto; now right].
    destruct (cond r) eqn:E.
    + destruct (Hfg r x (or_introl eq_refl) E Hx) as (E' & Hg).
      rewrite E', Hg. reflexivity.
    + inversion Hx; subst x. rewrite E. reflexivity.
Qed.

Lemma incr_then_decr {R : Type} (key : R -> uuid) (c : int_column R)
    (r r' : R) :
  column_laws key c ->
  not_negative (col_get c r) ->
  (v <- int4_add (col_get c r) (Some 1) ;; Ok (col_set c v r)) = Ok r' ->
  key r' = key r /\
  (v <- (w <- int4_sub (col_get c r') (Some 1) ;; Ok (GREATEST (Some 0) w)) ;;
   Ok (col_set c v r')) = Ok r.
Proof.
  intros (L1 & L2 & L3 & L4) (n & Hn & Hpos) H. bind_inv H.
  inversion H; subst r'; clear H. rewrite Hn in Hx. cbn in Hx.
  apply int4_Ok in Hx as (-> & Hr). split; [apply L4|].
  rewrite L1. cbn [int4_sub bind]. rewrite int4_in_range;
    [|unfold int4_min in *; lia].
  cbn. rewrite L3. replace (Z.max 0 (n + 1 - 1)) with n by lia.
  rewrite <- Hn, L2. reflexivity.
Qed.

Lemma cells_rows {R : Type} (key : R -> uuid) (c : int_column R)
    (P : sql_int -> Prop) (i : uuid) (t : list R) :
  Forall P (map (col_get c) (filter (fun r => uuid_eqb (key r) i) t)) ->
  forall r, In r t -> uuid_eqb (key r) i = true -> P (col_get c r).
Proof.
  intros H r Hr Hi. rewrite Forall_forall in H. apply H.
  apply in_map. apply filter_In. now split.
Qed.

Lemma set_profiles_same (d : db) : set_profiles (profiles d) d = d.
Proof. now destruct d. Qed.

Lemma set_posts_same (d : db) : set_posts (posts d) d = d.
Proof. now destruct d. Qed.



Lemma decr_not_negative (x v : sql_int) :
  (w <- int4_sub x (Some 1) ;; Ok (GREATEST (Some 0) w)) = Ok v ->
  not_negative v.
Proof.
  intros H. bind_inv H. inversion H; subst v.
  destruct x0 as [y|]; cbn.
  - exists (Z.max 0 y). split; [reflexivity | lia].
  - exists 0. split; [reflexivity | lia].
Qed.



(* ================================================================= *)
(** ** Roles and the reports policy *)

Lemma roles_frame (d d' : db) : frame d d' -> roles_ok d -> roles_ok d'.
Proof.
  unfold frame, roles_ok.
  intros (A1 & _ & _ & _ & _ & _ & A7 & _). now rewrite A1, A7.
Qed.

Lemma step_frame_or_sign_up (o : op) (d d' : db) :
  step o d = Ok d' ->
  (exists NEW, o = SignUp NEW) \/
  (map id (profiles d') = map id (profiles d) /\
   user_roles d' = user_roles d).
Proof.
  intros H. destruct o; cbn [step] in H; [left; eauto|right..].
  - unfold insert_follow in H.
    destruct (existsb _ _) in H; [discriminate|].
    destruct (negb _) in H; [discriminate|].
    apply follow_trigger_frame in H.
    destruct H as (A1 & _ & _ & _ & _ & _ & A7 & _). auto.
  - unfold delete_follow in H.
    apply rows_frame in H; [|intros r x x'; apply follow_trigger_frame].
    destruct H as (A1 & _ & _ & _ & _ & _ & A7 & _). auto.
  - unfold insert_post in H.
    destruct (post_exists _ _) in H; [discriminate|].
    destruct (negb _) in H; [discriminate|].
    apply post_trigger_frame in H.
    destruct H as (A1 & _ & _ & _ & _ & _ & A7 & _). auto.
  - unfold delete_post in H.
    destruct (filter _ (posts d)) as [|q0 OLD] in H.
    { inversion H. auto. }
    bind_inv H. bind_inv H. apply engagement_rows_frame in Hx, Hx0.
    apply rows_frame in H; [|intros r y y'; apply post_trigger_frame].
    destruct (frame_trans _ _ _ (frame_trans _ _ _ Hx Hx0) H)
      as (A1 & _ & _ & _ & _ & _ & A7 & _). auto.
  - unfold insert_like in H.
    destruct (existsb _ _) in H; [discriminate|].
    destruct (negb _) in H; [discriminate|].
    apply engagement_trigger_score_only, score_only_frame in H.
    destruct H as (A1 & _ & _ & _ & _ & _ & A7 & _). auto.
  - unfold delete_like in H. apply engagement_rows_frame in H.
    destruct H as (A1 & _ & _ & _ & _ & _ & A7 & _). auto.
  - unfold insert_comment in H.
    destruct (comment_exists _ _) in H; [discriminate|].
    destruct (negb _) in H; [discriminate|].
    apply engagement_trigger_score_only, score_only_frame in H.
    destruct H as (A1 & _ & _ & _ & _ & _ & A7 & _). auto.
  - unfold delete_comment in H. apply engagement_rows_frame in H.
    destruct H as (A1 & _ & _ & _ & _ & _ & A7 & _). auto.
Qed.

Lemma reachable_roles (d : db) : reachable d -> roles_ok d.
Proof.
  induction 1 as [|d d' o _ IH H]; [split; constructor|].
  destruct (step_frame_or_sign_up o d d' H) as [(NEW & ->)|(A1 & A7)].
  - cbn [step] in H. unfold handle_new_user in H. bind_inv H.
    unfold insert_profile in Hx.
    destruct (existsb _ _) in Hx; [discriminate|].
    destruct (existsb _ _) in Hx; [discriminate|].
    inversion Hx; subst x; clear Hx. unfold insert_user_role in H.
    destruct (existsb _ _) in H; [discriminate|].
    destruct (negb _) in H; [discriminate|].
    inversion H; subst d'. destruct IH as (E & F). split; cbn.
    + now rewrite E.
    + constructor; [reflexivity | exact F].
  - destruct IH as (E & F). split; [now rewrite A1, A7 | now rewrite A7].
Qed.

Lemma count_once (u : uuid) (l : list uuid) :
  NoDup l -> In u l -> count (fun x => uuid_eqb x u) l = 1.
Proof.
  induction l as [|x l IH]; intros Hnd Hin; [destruct Hin|].
  inversion Hnd as [|? ? Hx Hnd']; subst. rewrite count_cons.
  destruct Hin as [->|Hin].
  - rewrite uuid_eqb_refl, count_zero; [reflexivity|].
    intros y Hy. apply uuid_eqb_neq. congruence.
  - assert (E : uuid_eqb x u = false) by (apply uuid_eqb_neq; congruence).
    rewrite E, IH; auto.
Qed.

Lemma count_map {R X : Type} (f : R -> X) (g : X -> bool) (t : list R) :
  count (fun r => g (f r)) t = count g (map f t).
Proof.
  induction t as [|r t IH]; [reflexivity|].
  cbn [map]. now rewrite !count_cons, IH.
Qed.

(** X6: in every reachable state each identity holds exactly one role
    row, every role is the base role `user`, and so the reports policy
    admits no caller: the sign-up cascade is the only writer of roles. *)
Theorem every_identity_has_the_base_role (d : db) (u : uuid) :
  reachable d ->
  profile_exists u d = true ->
  count (fun r => uuid_eqb (ur_user_id r) u) (user_roles d) = 1 /\
  (forall r, In r (user_roles d) -> ur_role r = role_user) /\
  (forall caller, reports_select_policy caller d = false).
Proof.
  intros Hd Hu. destruct (reachable_roles d Hd) as (E & F).
  integrity_of Hd HI. destruct HI as (I1 & _).
  rewrite Forall_forall in F. split; [|split].
  - rewrite (count_map ur_user_id (fun x => uuid_eqb x u)), E.
    apply count_once; [exact I1 | now apply profile_exists_In].
  - exact F.
  - intros caller. unfold reports_select_policy.
    destruct (existsb _ _) eqn:Ex; [|reflexivity].
    apply existsb_exists in Ex as (r & Hr & Hp).
    rewrite (F r Hr) in Hp. now rewrite andb_false_r in Hp.
Qed.

Lemma every_identity_has_the_base_role_witness :
  count (fun r => uuid_eqb (ur_user_id r) 2%N) (user_roles one_like) = 1 /\
  (forall r, In r (user_roles one_like) -> ur_role r = role_user) /\
  (forall caller, reports_select_policy caller one_like = false).
Proof.
  apply (every_identity_has_the_base_role one_like 2%N one_like_reachable).
  reflexivity.
Defined.

(* ================================================================= *)
(** ** Uploads go to the caller's own folder *)

Lemma split_slash_not_nil (s : string) : split_slash s <> [].
Proof.
  induction s as [|c s IH]; cbn; [discriminate|].
  destruct (Ascii.eqb c "/"); [discriminate|].
  destruct (split_slash s); discriminate.
Qed.

Lemma split_slash_folder (u rest : string) :
  has_slash u = false ->
  split_slash (u ++ "/" ++ rest) = u :: split_slash rest.
Proof.
  induction u as [|c u IH]; cbn [has_slash append split_slash]; intros H.
  - reflexivity.
  - apply orb_false_elim in H as (Hc & Hu). rewrite Hc.
    cbn [append] in IH. now rewrite (IH Hu).
Qed.

Lemma first_folder_own (u rest : string) :
  has_slash u = false ->
  hd_error (foldername (u ++ "/" ++ rest)) = Some u.
Proof.
  intros H. unfold foldername. rewrite (split_slash_folder u rest H).
  pose proof (split_slash_not_nil rest).
  cbn [removelast]. destruct (split_slash rest); [contradiction|reflexivity].
Qed.

(** X7: the object paths the creation form builds lie in the uploading
    identity's own folder, so the upload policy of the `stickers` bucket
    admits them for that identity, whatever the file is called, and for
    nobody else: not for another identity, not for an anonymous caller, and
    not when the object is addressed to another bucket. *)
Theorem uploads_pass_for_owner_only (user_id pack_id now file_name : string) :
  has_slash user_id = false ->
  storage_owner_policy "stickers" (Some user_id) "stickers"
    (coverFileName user_id now file_name) = true /\
  storage_owner_policy "stickers" (Some user_id) "stickers"
    (fileName user_id pack_id now file_name) = true /\
  (forall other, other <> user_id ->
     storage_owner_policy "stickers" (Some other) "stickers"
       (coverFileName user_id now file_name) = false /\
     storage_owner_policy "stickers" (Some other) "stickers"
       (fileName user_id pack_id now file_name) = false) /\
  storage_owner_policy "stickers" None "stickers"
    (coverFileName user_id now file_name) = false /\
  (forall bucket_id, bucket_id <> "stickers" ->
     storage_owner_policy "stickers" (Some user_id) bucket_id
       (coverFileName user_id now file_name) = false).
Proof.
  intros H. unfold storage_owner_policy, coverFileName, fileName.
  rewrite !first_folder_own by exact H. cbn [andb String.eqb].
  rewrite String.eqb_refl. repeat split.
  - apply String.eqb_neq. exact H0.
  - apply String.eqb_neq. exact H0.
  - intros bucket_id Hb. apply String.eqb_neq in Hb. now rewrite Hb.
Qed.

Lemma uploads_pass_for_owner_only_witness :
  storage_owner_policy "stickers" (Some "0b6c-41") "stickers"
    (coverFileName "0b6c-41" "1700000000000" "a/b.png") = true /\
  storage_owner_policy "stickers" (Some "77aa-02") "stickers"
    (coverFileName "0b6c-41" "1700000000000" "a/b.png") = false.
Proof.
  destruct (uploads_pass_for_owner_only "0b6c-41" "50" "1700000000000"
              "a/b.png" eq_refl) as (H1 & _ & H3 & _).
  split; [exact H1|]. apply (H3 "77aa-02"). discriminate.
Defined.

(* ================================================================= *)
(** ** Seeding is idempotent *)

Lemma insert_do_nothing_keeps (rows t : list report_type) (n : string) :
  has_name n t = true -> has_name n (insert_do_nothing rows t) = true.
Proof.
  revert t. induction rows as [|r rows IH]; cbn [insert_do_nothing];
    intros t H; [exact H|].
  apply IH. fold (has_name (rt_name r) t). destruct (has_name (rt_name r) t);
    [exact H|]. unfold has_name in *. cbn [existsb]. rewrite H.
  apply orb_true_r.
Qed.

Lemma insert_do_nothing_names (rows t : list report_type) (r : report_type) :
  In r rows -> has_name (rt_name r) (insert_do_nothing rows t) = true.
Proof.
  revert t. induction rows as [|r0 rows IH]; intros t Hr; [destruct Hr|].
  cbn [insert_do_nothing]. destruct Hr as [->|Hr]; [|now apply IH].
  apply insert_do_nothing_keeps. fold (has_name (rt_name r) t).
  destruct (has_name (rt_name r) t) eqn:E; [exact E|].
  unfold has_name. cbn [existsb]. now rewrite String.eqb_refl.
Qed.

Lemma insert_do_nothing_present (rows t : list report_type) :
  (forall r, In r rows -> has_name (rt_name r) t = true) ->
  insert_do_nothing rows t = t.
Proof.
  induction rows as [|r rows IH]; intros H; [reflexivity|].
  cbn [insert_do_nothing]. fold (has_name (rt_name r) t).
  rewrite (H r (or_introl eq_refl)). apply IH. intros; apply H; now right.
Qed.

Lemma insert_do_nothing_suffix (rows t : list report_type) :
  exists added, insert_do_nothing rows t = (added ++ t)%list /\
                forall r, In r added -> In r rows /\
                                        has_name (rt_name r) t = false.
Proof.
  revert t. induction rows as [|r rows IH]; intros t; cbn [insert_do_nothing].
  - exists []. split; [reflexivity | intros r []].
  - fold (has_name (rt_name r) t). destruct (has_name (rt_name r) t) eqn:E.
    + destruct (IH t) as (added & -> & Ha). exists added.
      split; [reflexivity|]. intros x Hx. destruct (Ha x Hx). split; auto.
      now right.
    + destruct (IH (r :: t)) as (added & -> & Ha). exists (added ++ [r])%list.
      split; [now rewrite <- app_assoc|]. intros x Hx.
      apply in_app_or in Hx as [Hx|[<-|[]]]; [|split; [now left|exact E]].
      destruct (Ha x Hx) as (Hin & Hn). split; [now right|].
      unfold has_name in Hn |- *. cbn [existsb] in Hn.
      now apply orb_false_elim in Hn.
Qed.

(** X8: the seeding of the report types can be repeated: a second run
    changes nothing; a run keeps every row that was there before as it was
    (a type whose name is taken is not overwritten), adds only default
    rows whose name was free, and leaves every default name present. *)
Theorem seeding_is_idempotent (t : list report_type) :
  seed_report_types (seed_report_types t) = seed_report_types t /\
  (exists added,
     seed_report_types t = (added ++ t)%list /\
     forall r, In r added ->
               In r default_report_types /\ has_name (rt_name r) t = false) /\
  (forall r, In r default_report_types ->
             has_name (rt_name r) (seed_report_types t) = true).
Proof.
  unfold seed_report_types. split; [|split].
  - apply insert_do_nothing_present. intros r Hr.
    now apply insert_do_nothing_names.
  - apply insert_do_nothing_suffix.
  - intros r Hr. now apply insert_do_nothing_names.
Qed.

(* ================================================================= *)
(** ** Who sees a created pack *)



(* ================================================================= *)
(** ** No statement writes the stored counters of a post *)

Lemma update_counter_profiles_posts (expr : sql_int -> result sql_int)
    (cname : string) (a : uuid) (d d' : db) :
  update_counter expr "profiles" cname a d = Ok d' -> posts d' = posts d.
Proof.
  unfold update_counter.
  change (("profiles" =? "profiles")%string) with true. cbv iota.
  destruct (profiles_column cname); [|discriminate].
  intros H. bind_inv H. inversion H. reflexivity.
Qed.

Lemma follow_trigger_posts (op : tg_op) (e : follow) (d d' : db) :
  update_follow_counts op e d = Ok d' -> posts d' = posts d.
Proof.
  destruct op; cbn [update_follow_counts];
    unfold increment_counter, decrement_counter; intros H.
  - bind_inv H. apply update_counter_profiles_posts in Hx, H. congruence.
  - bind_inv H. apply update_counter_profiles_posts in Hx, H. congruence.
  - now inversion H.
Qed.

Lemma post_trigger_posts (op : tg_op) (q : post) (d d' : db) :
  update_post_count op q d = Ok d' -> posts d' = posts d.
Proof.
  destruct op; cbn [update_post_count];
    unfold increment_counter, decrement_counter; intros H.
  - now apply update_counter_profiles_posts in H.
  - now apply update_counter_profiles_posts in H.
  - now inversion H.
Qed.

Lemma rows_posts {R : Type} (f : R -> db -> result db) (rows : list R)
    (d d' : db) :
  (forall r x x', f r x = Ok x' -> posts x' = posts x) ->
  for_each_row f rows d = Ok d' -> posts d' = posts d.
Proof.
  intros Hf. revert d. induction rows as [|r rows IH];
    cbn [for_each_row]; intros d H.
  - now inversion H.
  - bind_inv H. rewrite (IH _ H). eapply Hf; exact Hx.
Qed.

Lemma Forall2_In_r {R : Type} (rel : R -> R -> Prop) (t t' : list R) (y : R) :
  Forall2 rel t t' -> In y t' -> exists x, In x t /\ rel x y.
Proof.
  induction 1 as [|a b t t' Hab _ IH]; intros Hy; [destruct Hy|].
  destruct Hy as [<-|Hy]; [exists a; split; [now left|exact Hab]|].
  destruct (IH Hy) as (x & Hx & Hr). exists x. split; [now right|exact Hr].
Qed.

Lemma posts_kept_eq (d d' : db) : posts d' = posts d -> posts_kept d d'.
Proof.
  intros E q' Hq. rewrite E in Hq. exists q'.
  split; [exact Hq | apply same_but_score_refl].
Qed.

Lemma posts_kept_trans (d1 d2 d3 : db) :
  posts_kept d1 d2 -> posts_kept d2 d3 -> posts_kept d1 d3.
Proof.
  intros H12 H23 q3 H3. destruct (H23 q3 H3) as (q2 & H2 & R23).
  destruct (H12 q2 H2) as (q1 & H1 & R12). exists q1.
  split; [exact H1 | eapply same_but_score_trans; eassumption].
Qed.

Lemma score_only_kept (d d' : db) : score_only d d' -> posts_kept d d'.
Proof.
  intros (t & -> & HF) q' Hq. cbn in Hq.
  exact (Forall2_In_r _ _ _ _ HF Hq).
Qed.

Lemma step_posts (o : op) (d d' : db) :
  step o d = Ok d' ->
  posts_kept d d' \/
  exists NEW, o = InsertPost NEW /\ post_exists (p_id NEW) d = false /\
              posts d' = NEW :: posts d.
Proof.
  intros H. destruct o; cbn [step] in H.
  - left. apply posts_kept_eq. unfold handle_new_user in H. bind_inv H.
    unfold insert_profile in Hx.
    destruct (existsb _ _) in Hx; [discriminate|].
    destruct (existsb _ _) in Hx; [discriminate|].
    inversion Hx; subst x; clear Hx. unfold insert_user_role in H.
    destruct (existsb _ _) in H; [discriminate|].
    destruct (negb _) in H; [discriminate|].
    inversion H. reflexivity.
  - left. apply posts_kept_eq. unfold insert_follow in H.
    destruct (existsb _ _) in H; [discriminate|].
    destruct (negb _) in H; [discriminate|].
    now apply follow_trigger_posts in H.
  - left. apply posts_kept_eq. unfold delete_follow in H.
    apply rows_posts in H; [exact H|].
    intros r x x'; apply follow_trigger_posts.
  - right. exists NEW. unfold insert_post in H.
    destruct (post_exists _ _) eqn:E in H; [discriminate|].
    destruct (negb _) in H; [discriminate|].
    apply post_trigger_posts in H. auto.
  - left. unfold delete_post in H.
    destruct (filter _ (posts d)) as [|q0 OLD] in H.
    { inversion H. apply posts_kept_eq. reflexivity. }
    bind_inv H. bind_inv H.
    apply engagement_rows_score_only, score_only_kept in Hx, Hx0.
    apply rows_posts in H; [|intros r y y'; apply post_trigger_posts].
    apply posts_kept_eq in H.
    refine (posts_kept_trans _ _ _ _
              (posts_kept_trans _ _ _ Hx (posts_kept_trans _ _ _ Hx0 H))).
    intros q' Hq. cbn in Hq. apply filter_In in Hq as (Hq & _).
    exists q'. split; [exact Hq | apply same_but_score_refl].
  - left. unfold insert_like in H.
    destruct (existsb _ _) in H; [discriminate|].
    destruct (negb _) in H; [discriminate|].
    apply engagement_trigger_score_only, score_only_kept in H.
    eapply posts_kept_trans; [|exact H]. now apply posts_kept_eq.
  - left. unfold delete_like in H.
    apply engagement_rows_score_only, score_only_kept in H.
    eapply posts_kept_trans; [|exact H]. now apply posts_kept_eq.
  - left. unfold insert_comment in H.
    destruct (comment_exists _ _) in H; [discriminate|].
    destruct (negb _) in H; [discriminate|].
    apply engagement_trigger_score_only, score_only_kept in H.
    eapply posts_kept_trans; [|exact H]. now apply posts_kept_eq.
  - left. unfold delete_comment in H.
    apply engagement_rows_score_only, score_only_kept in H.
    eapply posts_kept_trans; [|exact H]. now apply posts_kept_eq.
Qed.

Lemma row_by_key {R : Type} (key : R -> uuid) (t : list R) (a b : R) :
  NoDup (map key t) -> In a t -> In b t -> key a = key b -> a = b.
Proof.
  induction t as [|r t IH]; intros Hnd Ha Hb E; [destruct Ha|].
  cbn [map] in Hnd. inversion Hnd as [|? ? Hr Hnd']; subst.
  destruct Ha as [->|Ha], Hb as [->|Hb]; auto.
  - exfalso. apply Hr. rewrite E. now apply in_map.
  - exfalso. apply Hr. rewrite <- E. now apply in_map.
Qed.



(* ================================================================= *)
(** ** The sticker list stays within its bounds *)

Lemma newStickers_length (rand : nat -> string) (i : nat)
    (files : list js_file) :
  List.length (newStickers rand i files) = List.length files.
Proof.
  revert i. induction files as [|f files IH]; intros i; cbn; [reflexivity|].
  now rewrite IH.
Qed.

Lemma newStickers_images (rand : nat -> string) (i : nat)
    (files : list js_file) :
  Forall (fun f => is_image f = true) files ->
  Forall (fun s => is_image (sf_file s) = true) (newStickers rand i files).
Proof.
  revert i. induction files as [|f files IH]; intros i H; cbn; [constructor|].
  inversion H; subst. constructor; [assumption | now apply IH].
Qed.

Lemma form_step_bounded (prev : list sticker_file) (ev : form_event) :
  (List.length prev <= 50)%nat /\
  Forall (fun s => is_image (sf_file s) = true) prev ->
  (List.length (form_step prev ev) <= 50)%nat /\
  Forall (fun s => is_image (sf_file s) = true) (form_step prev ev).
Proof.
  intros (Hl & Hi). destruct ev as [rand files|i|i emoji]; cbn [form_step].
  - unfold processStickerFiles.
    destruct (Nat.eqb _ 0); [now split|].
    destruct (Nat.ltb 50 _) eqn:E; [now split|].
    apply Nat.ltb_ge in E. split.
    + now rewrite List.length_app, newStickers_length.
    + apply Forall_app. split; [exact Hi|].
      apply newStickers_images, Forall_forall.
      intros f Hf. now apply filter_In in Hf.
  - unfold removeSticker. split.
    + etransitivity; [apply filter_length_le | exact Hl].
    + apply Forall_filter_keep, Hi.
  - unfold updateStickerEmoji. split; [now rewrite length_map|].
    rewrite Forall_forall in Hi |- *. intros s Hs.
    apply in_map_iff in Hs as (s0 & <- & Hs0).
    destruct (sf_id s0 =? i)%string; cbn; now apply Hi.
Qed.

(** X11: whatever the user does to the sticker list of the creation form
    (adding batches of files, removing entries, setting emojis, in any
    order and with any drawn ids), the list never holds more than 50
    stickers, and every sticker in it is an image file. *)
Theorem sticker_list_bounded (events : list form_event) :
  (List.length (form_run events) <= 50)%nat /\
  Forall (fun s => is_image (sf_file s) = true) (form_run events).
Proof.
  unfold form_run.
  assert (G : forall prev,
             (List.length prev <= 50)%nat /\
             Forall (fun s => is_image (sf_file s) = true) prev ->
             (List.length (fold_left form_step events prev) <= 50)%nat /\
             Forall (fun s => is_image (sf_file s) = true)
               (fold_left form_step events prev)).
  { induction events as [|ev events IH]; intros prev H; [exact H|].
    cbn [fold_left]. apply IH, form_step_bounded, H. }
  apply G. split; [cbn; lia | constructor].
Qed.

(* ================================================================= *)
(** ** The like handler and the stored count *)

Lemma existsb_filter {R : Type} (f g : R -> bool) (t : list R) :
  existsb f (filter g t) = existsb (fun x => g x && f x) t.
Proof.
  induction t as [|x t IH]; [reflexivity|]. cbn [filter existsb].
  destruct (g x); cbn [existsb andb]; now rewrite IH.
Qed.

Lemma has_like_inserted (user postId q : uuid) (d d' : db) :
  post_likes d' =
    {| pl_post_id := postId; pl_user_id := user |} :: post_likes d ->
  has_like q user d' = if uuid_eqb q postId then true else has_like q user d.
Proof.
  intros E. unfold has_like. rewrite E. cbn [existsb].
  unfold same_like at 1. cbn [pl_post_id pl_user_id].
  rewrite (uuid_eqb_refl user), andb_true_r.
  now destruct (uuid_eqb q postId).
Qed.

Lemma has_like_deleted (user postId q : uuid) (d d' : db) :
  post_likes d' =
    filter (fun r => negb (same_like {| pl_post_id := postId;
                                        pl_user_id := user |} r))
      (post_likes d) ->
  has_like q user d' = if uuid_eqb q postId then false else has_like q user d.
Proof.
  intros E. unfold has_like. rewrite E, existsb_filter. clear E.
  induction (post_likes d) as [|l t IH]; cbn [existsb].
  - now destruct (uuid_eqb q postId).
  - rewrite IH. unfold same_like. cbn [pl_post_id pl_user_id].
    destruct (uuid_eqb q postId) eqn:Eq.
    + apply uuid_eqb_eq in Eq. subst q.
      now destruct (uuid_eqb postId (pl_post_id l) &&
                    uuid_eqb user (pl_user_id l)).
    + destruct (uuid_eqb q (pl_post_id l)) eqn:E1,
               (uuid_eqb user (pl_user_id l)),
               (uuid_eqb postId (pl_post_id l)) eqn:E2;
        cbn [andb orb negb]; try reflexivity.
      exfalso. apply uuid_eqb_eq in E1, E2. rewrite <- E2 in E1. subst q.
      rewrite uuid_eqb_refl in Eq. discriminate.
Qed.

Lemma Forall2_In_l {R : Type} (rel : R -> R -> Prop) (t t' : list R) (x : R) :
  Forall2 rel t t' -> In x t -> exists y, In y t' /\ rel x y.
Proof.
  induction 1 as [|a b t t' Hab _ IH]; intros Hx; [destruct Hx|].
  destruct Hx as [<-|Hx]; [exists b; split; [now left|exact Hab]|].
  destruct (IH Hx) as (y & Hy & Hr). exists y. split; [now right|exact Hr].
Qed.

Lemma insert_like_effect (user postId : uuid) (d d' : db) :
  insert_like {| pl_post_id := postId; pl_user_id := user |} d = Ok d' ->
  Forall2 same_but_score (posts d) (posts d') /\
  post_likes d' =
    {| pl_post_id := postId; pl_user_id := user |} :: post_likes d.
Proof.
  unfold insert_like. intros H.
  destruct (existsb _ _) in H; [discriminate|].
  destruct (negb _) in H; [discriminate|].
  apply engagement_trigger_score_only in H.
  pose proof (score_only_tables _ _ H) as (_ & _ & A3 & _).
  destruct H as (t & -> & Ht). split; [exact Ht | exact A3].
Qed.

Lemma delete_like_effect (user postId : uuid) (d d' : db) :
  delete_like postId user d = Ok d' ->
  Forall2 same_but_score (posts d) (posts d') /\
  post_likes d' =
    filter (fun r => negb (same_like {| pl_post_id := postId;
                                        pl_user_id := user |} r))
      (post_likes d).
Proof.
  unfold delete_like. intros H.
  apply engagement_rows_score_only in H.
  pose proof (score_only_tables _ _ H) as (_ & _ & A3 & _).
  destruct H as (t & -> & Ht). split; [exact Ht | exact A3].
Qed.

Lemma toggle_like_shown (user postId : uuid) (fps : list feed_post)
    (d d' : db) (b : bool) :
  Forall (in_sync user d) fps ->
  Forall2 same_but_score (posts d) (posts d') ->
  (forall q, has_like q user d' =
             if uuid_eqb q postId then b else has_like q user d) ->
  (forall post, In post fps -> uuid_eqb (fp_id post) postId = true ->
                is_liked post = negb b) ->
  forall post', In post' (map (toggle_like postId) fps) ->
    exists r r',
      In r (posts d) /\ In r' (posts d') /\ p_id r' = p_id r /\
      stored_counters r' = stored_counters r /\
      fp_id post' = p_id r' /\
      is_liked post' = has_like (p_id r') user d' /\
      fp_likes_count post' =
        if uuid_eqb (fp_id post') postId
        then Some (to_number (likes_count r') +
                   (if is_liked post' then 1 else -1))
        else likes_count r'.
Proof.
  intros Hs Hp Hl Hb post' Hin.
  apply in_map_iff in Hin as (post & <- & Hin).
  rewrite Forall_forall in Hs. destruct (Hs post Hin) as (r & Hr & E).
  destruct (Forall2_In_l _ _ _ _ Hp Hr) as (r' & Hr' & (s & Es)).
  exists r, r'. assert (Hid : p_id r' = p_id r) by (subst r'; now destruct r).
  assert (Hc : stored_counters r' = stored_counters r)
    by (subst r'; now destruct r).
  assert (Hlc : likes_count r' = likes_count r) by (subst r'; now destruct r).
  split; [exact Hr|]. split; [exact Hr'|]. split; [exact Hid|].
  split; [exact Hc|]. specialize (Hb post Hin).
  unfold toggle_like. rewrite Hid, Hl, Hlc.
  assert (Ei : fp_id post = p_id r) by (rewrite E; reflexivity).
  assert (El : is_liked post = has_like (p_id r) user d)
    by (rewrite E; reflexivity).
  assert (Ec : fp_likes_count post = likes_count r)
    by (rewrite E; reflexivity).
  rewrite Ei in Hb |- *. destruct (uuid_eqb (p_id r) postId) eqn:Eq.
  - cbn [fp_id is_liked fp_likes_count]. rewrite Eq, (Hb eq_refl), Ec.
    destruct b; cbn [negb]; repeat split; f_equal; lia.
  - rewrite Ei, Eq. repeat split; assumption.
Qed.

(** X12: liking or unliking from the feed, when the statement goes
    through and the feed was as fetched: afterwards every entry still
    shows the like flag the database holds for the reader, and every
    post row keeps its stored counters; so the entry that was toggled
    shows a likes count that is the stored count plus 1 (liked) or minus 1
    (unliked), a number no column holds, and every other entry shows its
    stored count. *)
Theorem like_toggle_shows_unstored_count (user postId : uuid)
    (followingPosts shown : list feed_post) (d d' : db) :
  Forall (in_sync user d) followingPosts ->
  handleLikePost user postId followingPosts d = (shown, d', None) ->
  forall post', In post' shown ->
    exists r r',
      In r (posts d) /\ In r' (posts d') /\ p_id r' = p_id r /\
      stored_counters r' = stored_counters r /\
      fp_id post' = p_id r' /\
      is_liked post' = has_like (p_id r') user d' /\
      fp_likes_count post' =
        if uuid_eqb (fp_id post') postId
        then Some (to_number (likes_count r') +
                   (if is_liked post' then 1 else -1))
        else likes_count r'.
Proof.
  intros Hs H. unfold handleLikePost in H.
  destruct (find _ followingPosts) as [fp0|] eqn:Ef.
  - apply find_some in Ef as (Hin0 & Hid0).
    assert (Hsame : forall post, In post followingPosts ->
                      uuid_eqb (fp_id post) postId = true ->
                      is_liked post = is_liked fp0).
    { intros post Hin Hid. rewrite Forall_forall in Hs.
      destruct (Hs post Hin) as (r & _ & ->).
      destruct (Hs fp0 Hin0) as (r0 & _ & E0). rewrite E0 in Hid0 |- *.
      cbn [fetched fp_id is_liked] in *.
      apply uuid_eqb_eq in Hid, Hid0. congruence. }
    destruct (is_liked fp0) eqn:Eb.
    + destruct (delete_like postId user d) as [d1|e] eqn:Es;
        inversion H; subst shown d'; clear H.
      apply delete_like_effect in Es as (Hp & Hl).
      apply (toggle_like_shown user postId followingPosts d d1 false Hs Hp).
      * intros q. now apply has_like_deleted.
      * exact Hsame.
    + destruct (insert_like _ d) as [d1|e] eqn:Es;
        inversion H; subst shown d'; clear H.
      apply insert_like_effect in Es as (Hp & Hl).
      apply (toggle_like_shown user postId followingPosts d d1 true Hs Hp).
      * intros q. now apply has_like_inserted.
      * exact Hsame.
  - destruct (insert_like _ d) as [d1|e] eqn:Es;
      inversion H; subst shown d'; clear H.
    apply insert_like_effect in Es as (Hp & Hl).
    apply (toggle_like_shown user postId followingPosts d d1 true Hs Hp).
    + intros q. now apply has_like_inserted.
    + intros post Hin Hid.
      pose proof (find_none _ _ Ef post Hin) as Hn. cbv beta in Hn.
      congruence.
Qed.

Lemma like_toggle_shows_unstored_count_witness :
  exists r r',
    In r (posts one_post) /\ In r' (posts one_like) /\ p_id r' = p_id r /\
    stored_counters r' = stored_counters r /\
    fp_id liked_entry = p_id r' /\
    is_liked liked_entry = has_like (p_id r') 2%N one_like /\
    fp_likes_count liked_entry =
      if uuid_eqb (fp_id liked_entry) 7%N
      then Some (to_number (likes_count r') +
                 (if is_liked liked_entry then 1 else -1))
      else likes_count r'.
Proof.
  apply (like_toggle_shows_unstored_count 2%N 7%N
           [fetched 2%N one_post (new_post 7%N 1%N)] [liked_entry]
           one_post one_like).
  - constructor; [|constructor].
    exists (new_post 7%N 1%N). split; [now left | reflexivity].
  - reflexivity.
  - now left.
Defined.

(* ================================================================= *)
(** ** The store shows the matching packs, in order *)

Section Sorting.
Variable A : Type.
Variable key : A -> Z.

Lemma js_insert_perm (x : A) (l : list A) :
  Permutation (js_insert (fun a b => key a - key b) x l) (x :: l).
Proof.
  induction l as [|y l IH]; cbn [js_insert]; [reflexivity|].
  destruct (key x - key y <=? 0); [reflexivity|].
  rewrite IH. apply perm_swap.
Qed.

Lemma js_sort_perm (l : list A) :
  Permutation (js_sort (fun a b => key a - key b) l) l.
Proof.
  induction l as [|x l IH]; cbn [js_sort]; [reflexivity|].
  rewrite js_insert_perm. now constructor.
Qed.

Lemma js_insert_sorted (x : A) (l : list A) :
  StronglySorted (fun a b => key a <= key b) l ->
  StronglySorted (fun a b => key a <= key b)
    (js_insert (fun a b => key a - key b) x l).
Proof.
  induction 1 as [|y l Hs IH Hy]; cbn [js_insert].
  - constructor; constructor.
  - cbv beta. destruct (key x - key y <=? 0) eqn:E.
    + apply Z.leb_le in E. constructor; [now constructor|].
      constructor; [lia|]. rewrite Forall_forall in Hy |- *.
      intros z Hz. specialize (Hy z Hz). cbv beta in Hy. lia.
    + apply Z.leb_gt in E. constructor; [exact IH|].
      rewrite Forall_forall in Hy |- *. intros z Hz.
      apply (Permutation_in _ (js_insert_perm x l)) in Hz.
      destruct Hz as [<-|Hz]; [lia | now apply Hy].
Qed.

Lemma js_sort_sorted (l : list A) :
  StronglySorted (fun a b => key a <= key b)
    (js_sort (fun a b => key a - key b) l).
Proof.
  induction l as [|x l IH]; cbn [js_sort]; [constructor|].
  now apply js_insert_sorted.
Qed.

Lemma js_insert_ties (k : Z) (x : A) (l : list A) :
  StronglySorted (fun a b => key a <= key b) l ->
  filter (fun a => key a =? k) (js_insert (fun a b => key a - key b) x l) =
  filter (fun a => key a =? k) (x :: l).
Proof.
  induction 1 as [|y l Hs IH Hy]; cbn [js_insert]; [reflexivity|].
  cbv beta. destruct (key x - key y <=? 0) eqn:E; [reflexivity|].
  apply Z.leb_gt in E. cbn [filter] in IH |- *. rewrite IH.
  destruct (key x =? k) eqn:Ex; [|reflexivity].
  destruct (key y =? k) eqn:Ey; [|reflexivity].
  apply Z.eqb_eq in Ex, Ey. lia.
Qed.

Lemma js_sort_ties (k : Z) (l : list A) :
  filter (fun a => key a =? k) (js_sort (fun a b => key a - key b) l) =
  filter (fun a => key a =? k) l.
Proof.
  induction l as [|x l IH]; cbn [js_sort]; [reflexivity|].
  rewrite js_insert_ties by apply js_sort_sorted.
  cbn [filter]. now rewrite IH.
Qed.
End Sorting.

Lemma js_sort_ext {A : Type} (f g : A -> A -> Z) (l : list A) :
  (forall a b, f a b = g a b) -> js_sort f l = js_sort g l.
Proof.
  intros E. induction l as [|x l IH]; cbn [js_sort]; [reflexivity|].
  rewrite IH. generalize (js_sort g l) as s.
  induction s as [|y s IHs]; cbn [js_insert]; [reflexivity|].
  now rewrite E, IHs.
Qed.

Lemma compare_by_rank (sortBy : SortOption) (a b : store_pack) :
  compare_by sortBy a b = rank sortBy a - rank sortBy b.
Proof. destruct sortBy; cbn [compare_by rank]; lia. Qed.

Lemma filter_ext_eq {R : Type} (f g : R -> bool) (t : list R) :
  (forall x, f x = g x) -> filter f t = filter g t.
Proof.
  intros E. induction t as [|x t IH]; cbn [filter]; [reflexivity|].
  now rewrite E, IH.
Qed.

Lemma filter_twice {R : Type} (f g : R -> bool) (t : list R) :
  filter g (filter f t) = filter (fun x => f x && g x) t.
Proof.
  induction t as [|x t IH]; cbn [filter]; [reflexivity|].
  destruct (f x); cbn [filter andb]; now rewrite IH.
Qed.

Lemma filter_all_true {R : Type} (t : list R) : filter (fun _ => true) t = t.
Proof. induction t as [|x t IH]; cbn [filter]; now rewrite ?IH. Qed.

Lemma StronglySorted_weaken {R : Type} (P Q : R -> R -> Prop) (t : list R) :
  (forall a b, P a b -> Q a b) -> StronglySorted P t -> StronglySorted Q t.
Proof.
  intros PQ. induction 1 as [|x t Hs IH Hx]; constructor; [exact IH|].
  eapply Forall_impl; [|exact Hx]. intros b. apply PQ.
Qed.

(** X13: the store listing holds exactly the fetched packs that pass the
    search and the price filter, each as often as fetched; it is ordered
    by the chosen criterion (most sold, newest, cheapest or dearest
    first), and packs that tie keep the order in which they were fetched.
    A pack whose price is `NULL` is listed under neither "free" nor
    "paid". *)
Theorem store_listing (search : option (store_pack -> bool))
    (filterBy : FilterOption) (sortBy : SortOption)
    (allPacks : list store_pack) :
  let wanted :=
    filter (fun k => match search with
                     | Some matches => matches k
                     | None => true
                     end && passes filterBy k) allPacks in
  let listing := filteredAndSortedPacks search filterBy sortBy allPacks in
  Permutation listing wanted /\
  StronglySorted (fun a b => compare_by sortBy a b <= 0) listing /\
  (forall k, ties sortBy k listing = ties sortBy k wanted) /\
  (forall k, In k listing -> sp_price (pack (shown k)) = None ->
             filterBy <> filter_free /\ filterBy <> filter_paid).
Proof.
  intros wanted listing.
  assert (E : listing = js_sort (fun a b => rank sortBy a - rank sortBy b)
                          wanted).
  { unfold listing, filteredAndSortedPacks, wanted.
    rewrite (js_sort_ext _ _ _ (compare_by_rank sortBy)). f_equal.
    destruct search as [matches|].
    - destruct filterBy; rewrite ?filter_twice; apply filter_ext_eq;
        intros x; cbn [passes]; now rewrite ?andb_true_r.
    - destruct filterBy; cbn [andb]; try reflexivity.
      symmetry. apply filter_all_true. }
  rewrite E. split; [apply js_sort_perm|]. split; [|split].
  - eapply StronglySorted_weaken;
      [|apply (js_sort_sorted _ (rank sortBy))].
    intros a b H. cbv beta in H. rewrite compare_by_rank. lia.
  - intros k. unfold ties.
    rewrite !(filter_ext_eq (fun x => compare_by sortBy x k =? 0)
                (fun x => rank sortBy x =? rank sortBy k)).
    + apply js_sort_ties.
    + intros x. rewrite compare_by_rank.
      destruct (rank sortBy x =? rank sortBy k) eqn:Ek.
      * apply Z.eqb_eq in Ek. apply Z.eqb_eq. lia.
      * apply Z.eqb_neq in Ek. apply Z.eqb_neq. lia.
    + intros x. rewrite compare_by_rank.
      destruct (rank sortBy x =? rank sortBy k) eqn:Ek.
      * apply Z.eqb_eq in Ek. apply Z.eqb_eq. lia.
      * apply Z.eqb_neq in Ek. apply Z.eqb_neq. lia.
  - intros k Hk Hp.
    apply (Permutation_in _ (js_sort_perm _ (rank sortBy) wanted)) in Hk.
    apply filter_In in Hk as (_ & Hk). apply andb_prop in Hk as (_ & Hk).
    split; intros ->; cbn [passes] in Hk; rewrite Hp in Hk; discriminate.
Qed.

(* ================================================================= *)
(** ** Who may send a message *)

